(** * hh-rumors-presto: the rumor acquisition pipeline, embedded in Rocq

  The repository holds several generations of one Netlify function,
  [netlify/functions/fetchRumors.js].  Each generation is a small
  JavaScript module: text helpers ([clean], [slugify], [extractISODate],
  [toISO]), a subject matcher ([matchMode] / [buildMatcher]), a handful of
  scraping strategies and a [handler].

  JavaScript strings are sequences of 16-bit code units; they are modelled
  as lists of [N].  What the engine supplies (Unicode normalisation, case
  mapping, [Date] parsing, the HTML parser) is collected in the class
  [Engine] together with the few facts about it that the proofs use. *)

From Stdlib Require Import List Bool NArith ZArith Lia String Ascii.
From Stdlib Require Import Permutation Sorted.
From Stdlib Require Import Numbers.DecimalString.
Import ListNotations.

Set Implicit Arguments.
Local Set Warnings "-register-all".
Local Open Scope N_scope.

(* ================================================================== *)
(** * Strings as code units *)
(* ================================================================== *)

Module JsString.

Definition jsstring := list N.

(** An ASCII literal as a JavaScript string. *)
Definition js (s : string) : jsstring :=
  map N_of_ascii (list_ascii_of_string s).

Definition jsstring_eqb (a b : jsstring) : bool :=
  if list_eq_dec N.eq_dec a b then true else false.

(** [a < b] on strings: code units compared left to right, a proper
    prefix being smaller. *)
Fixpoint str_ltb (a b : jsstring) : bool :=
  match a, b with
  | _, [] => false
  | [], _ :: _ => true
  | x :: a', y :: b' =>
      if x <? y then true else if y <? x then false else str_ltb a' b'
  end.

(** [x || ""] for a string [x]: the empty string is the only falsy one. *)
Definition orEmpty (x : jsstring) : jsstring :=
  match x with [] => [] | _ => x end.

(** [!x] for a string. *)
Definition falsy (x : jsstring) : bool :=
  match x with [] => true | _ => false end.

(** ** Character classes *)

(** [\s]: WhiteSpace and LineTerminator code units. *)
Definition isWhiteSpace (c : N) : bool :=
  ((9 <=? c) && (c <=? 13)) || (c =? 32) || (c =? 160) || (c =? 5760)
  || ((8192 <=? c) && (c <=? 8202)) || (c =? 8232) || (c =? 8233)
  || (c =? 8239) || (c =? 8287) || (c =? 12288) || (c =? 65279).

Definition isDigit (c : N) : bool := (48 <=? c) && (c <=? 57).
Definition isLower (c : N) : bool := (97 <=? c) && (c <=? 122).
Definition isUpper (c : N) : bool := (65 <=? c) && (c <=? 90).
Definition isLetter (c : N) : bool := isLower c || isUpper c.
Definition isAscii (c : N) : bool := c <? 128.

(** [[\u0300-\u036f]]: the combining diacritical marks. *)
Definition isCombiningMark (c : N) : bool := (768 <=? c) && (c <=? 879).

(** [[a-z0-9]] *)
Definition isSlugAlnum (c : N) : bool := isLower c || isDigit c.

Definition asciiLower (c : N) : N := if isUpper c then c + 32 else c.

(** ** The string methods the sources call *)

Fixpoint dropWhile (p : N -> bool) (s : jsstring) : jsstring :=
  match s with
  | [] => []
  | c :: r => if p c then dropWhile p r else s
  end.

(** [s] without the longest run of code units of the class at its end. *)
Fixpoint dropWhileEnd (p : N -> bool) (s : jsstring) : jsstring :=
  match s with
  | [] => []
  | c :: r =>
      match dropWhileEnd p r with
      | [] => if p c then [] else [c]
      | r' => c :: r'
      end
  end.

(** [s.trim()] *)
Definition trim (s : jsstring) : jsstring :=
  dropWhileEnd isWhiteSpace (dropWhile isWhiteSpace s).

(** [s.replace(/[class]+/g, rep)]: every maximal run of code units of the
    class becomes one [rep].  [inRun] tells that the previous code unit
    was of the class. *)
Fixpoint replaceRuns (p : N -> bool) (rep : jsstring) (inRun : bool)
         (s : jsstring) : jsstring :=
  match s with
  | [] => []
  | c :: r =>
      if p c
      then (if inRun then replaceRuns p rep true r
            else rep ++ replaceRuns p rep true r)
      else c :: replaceRuns p rep false r
  end.

(** [s.replace(/[class]/g, rep)]: every code unit of the class becomes
    [rep]. *)
Definition replaceEach (p : N -> bool) (rep : jsstring) (s : jsstring)
  : jsstring :=
  flat_map (fun c => if p c then rep else [c]) s.

(** [s.slice(0, n)] for a non-negative [n]. *)
Definition slicePrefix (n : nat) (s : jsstring) : jsstring := firstn n s.

(** [s.padStart(2, "0")] *)
Definition padStart2 (s : jsstring) : jsstring :=
  match s with
  | [] => [48; 48]
  | [c] => [48; c]
  | _ => s
  end.

(** [String(n)] for a non-negative integer. *)
Definition decimal (n : N) : jsstring :=
  js (NilZero.string_of_uint (N.to_uint n)).

(** [parseInt(s, 10)] on a string of decimal digits. *)
Definition parseDigits (s : jsstring) : N :=
  fold_left (fun acc c => 10 * acc + (c - 48)) s 0.

(** [haystack.includes(needle)] *)
Fixpoint isPrefixOf (p s : jsstring) : bool :=
  match p, s with
  | [], _ => true
  | _ :: _, [] => false
  | x :: p', y :: s' => (x =? y) && isPrefixOf p' s'
  end.

Fixpoint includes (haystack needle : jsstring) : bool :=
  isPrefixOf needle haystack
  || match haystack with
     | [] => false
     | _ :: r => includes r needle
     end.

End JsString.
Import JsString.

(* ================================================================== *)
(** * What the engine supplies *)
(* ================================================================== *)

(** A parsed document is a tree of nodes.  Tag and attribute names are
    kept as the parser delivers them (lower case for HTML). *)
Inductive Node : Type :=
| Text (data : jsstring)
| Comment (data : jsstring)
| Element (tag : jsstring) (attrs : list (jsstring * jsstring))
          (children : list Node).

(** The engine and the libraries the sources import:
    - [normalizeNFD] is [String.prototype.normalize("NFD")] and
      [toLowerCase] is [String.prototype.toLowerCase]; both depend on the
      Unicode tables, and the development uses only how they act on
      ASCII: ASCII text is already normalised, and an ASCII stretch of a
      string is lower-cased letter by letter whatever surrounds it;
    - [canonicalize] is the case folding of a regular expression with
      the [i] flag;
    - [dateParse s] is the time value of [new Date(s)], [None] when it is
      [NaN]; [toISOString] is [Date.prototype.toISOString];
    - [encodeURIComponent] fails ([URIError]) on a lone surrogate;
    - [parseHTML] is [new JSDOM(html).window.document.documentElement];
      [parseXML] is the same with [contentType: "text/xml"] and fails on
      ill-formed input;
    - [hrefProperty] is the [href] property of an anchor, computed from
      its [href] attribute. *)
Class Engine := {
  normalizeNFD : jsstring -> jsstring;
  toLowerCase : jsstring -> jsstring;
  canonicalize : N -> N;
  dateParse : jsstring -> option Z;
  toISOString : Z -> jsstring;
  encodeURIComponent : jsstring -> option jsstring;
  parseHTML : jsstring -> Node;
  parseXML : jsstring -> option Node;
  hrefProperty : jsstring -> jsstring;
  normalizeNFD_ascii :
    forall s, forallb isAscii s = true -> normalizeNFD s = s;
  toLowerCase_ascii :
    forall s, forallb isAscii s = true -> toLowerCase s = map asciiLower s;
  toLowerCase_ascii_infix :
    forall u w v, forallb isAscii w = true ->
      exists u' v', toLowerCase (u ++ w ++ v) = u' ++ map asciiLower w ++ v'
}.

(* ================================================================== *)
(** * Text normaliser *)
(* ================================================================== *)

(** [function clean(s) { return (s || "").replace(/\s+/g, " ").trim(); }] *)
Definition clean (s : jsstring) : jsstring :=
  trim (replaceRuns isWhiteSpace (js " ") false (orEmpty s)).

(** [slugify] (named [slugifyTag] in two generations):
<<
  clean(q)
    .normalize("NFD").replace(/[\u0300-\u036f]/g,"")
    .toLowerCase().replace(/&/g," and ")
    .replace(/[^a-z0-9]+/g,"_").replace(/^_+|_+$/g,"")
>> *)
Definition slugify {E : Engine} (q : jsstring) : jsstring :=
  let s1 := clean q in
  let s2 := replaceEach isCombiningMark [] (normalizeNFD s1) in
  let s3 := replaceEach (N.eqb 38) (js " and ") (toLowerCase s2) in
  let s4 := replaceRuns (fun c => negb (isSlugAlnum c)) (js "_") false s3 in
  dropWhileEnd (N.eqb 95) (dropWhile (N.eqb 95) s4).

Definition slugifyTag {E : Engine} := slugify.

(* ================================================================== *)
(** * Object literals used as lookup tables *)
(* ================================================================== *)

(** [MONTHS] and [TEAM_ALIASES] are object literals read with
    [table[key]].  Such a read finds the table's own property when there
    is one and otherwise looks the key up on [Object.prototype], so a key
    that names one of the prototype's properties yields that property (a
    function, or the prototype itself for [__proto__]): a truthy value. *)
Inductive Lookup (V : Type) : Type :=
| Own (v : V)
| Inherited (name : jsstring)
| Undefined.
Arguments Inherited {V} name.
Arguments Undefined {V}.

Definition objectPrototypeKeys : list jsstring :=
  [ js "constructor"; js "__defineGetter__"; js "__defineSetter__";
    js "hasOwnProperty"; js "__lookupGetter__"; js "__lookupSetter__";
    js "isPrototypeOf"; js "propertyIsEnumerable"; js "toString";
    js "valueOf"; js "__proto__"; js "toLocaleString" ].

Fixpoint assoc {V : Type} (k : jsstring) (l : list (jsstring * V)) : option V :=
  match l with
  | [] => None
  | (k', v) :: r => if jsstring_eqb k' k then Some v else assoc k r
  end.

Definition objGet {V : Type} (table : list (jsstring * V)) (k : jsstring)
  : Lookup V :=
  match assoc k table with
  | Some v => Own v
  | None =>
      if existsb (jsstring_eqb k) objectPrototypeKeys
      then Inherited k else Undefined
  end.

(** [String(v)] of an inherited property: the source text of a built-in
    function, or [[object Object]] for the prototype object. *)
Definition inheritedToString (name : jsstring) : jsstring :=
  if jsstring_eqb name (js "__proto__") then js "[object Object]"
  else if jsstring_eqb name (js "constructor")
  then js "function Object() { [native code] }"
  else js "function " ++ name ++ js "() { [native code] }".

(* ================================================================== *)
(** * Dates *)
(* ================================================================== *)

(** [toISO]:
<<
  const d = new Date(dstr);
  return isNaN(d) ? "" : d.toISOString().slice(0,10);
>> *)
Definition toISO {E : Engine} (dstr : jsstring) : jsstring :=
  match dateParse dstr with
  | None => []
  | Some t => slicePrefix 10 (toISOString t)
  end.

(** [toISO(x)] where [x] may be [undefined]: [new Date(undefined)] is an
    invalid date. *)
Definition toISO_opt {E : Engine} (dstr : option jsstring) : jsstring :=
  match dstr with
  | None => []
  | Some s => toISO s
  end.

Definition MONTHS : list (jsstring * N) :=
  [ (js "january", 1); (js "february", 2); (js "march", 3); (js "april", 4);
    (js "may", 5); (js "june", 6); (js "july", 7); (js "august", 8);
    (js "september", 9); (js "october", 10); (js "november", 11);
    (js "december", 12) ].

Fixpoint span (p : N -> bool) (s : jsstring) : jsstring * jsstring :=
  match s with
  | [] => ([], [])
  | c :: r =>
      if p c then let (a, b) := span p r in (c :: a, b) else ([], s)
  end.

(** The pattern [/([A-Za-z]+)\s+(\d{1,2}),\s+(\d{4})/] tried at the start
    of [s].  Each greedy repetition is followed by a code unit outside
    its class, so the longest run is the only way to go on; [\d{1,2}] is
    one or two digits with the comma right behind. *)
Definition dateAfterDay (m1 m2 rest : jsstring)
  : option (jsstring * jsstring * jsstring) :=
  match span isWhiteSpace rest with
  | ([], _) => None
  | (_, y1 :: y2 :: y3 :: y4 :: _) =>
      if forallb isDigit [y1; y2; y3; y4]
      then Some (m1, m2, [y1; y2; y3; y4]) else None
  | _ => None
  end.

Definition dateHere (s : jsstring) : option (jsstring * jsstring * jsstring) :=
  match span isLetter s with
  | ([], _) => None
  | (m1, r1) =>
      match span isWhiteSpace r1 with
      | ([], _) => None
      | (_, d1 :: 44 :: r3) =>
          if isDigit d1 then dateAfterDay m1 [d1] r3 else None
      | (_, d1 :: d2 :: 44 :: r3) =>
          if isDigit d1 && isDigit d2 then dateAfterDay m1 [d1; d2] r3
          else None
      | _ => None
      end
  end.

(** [re.exec(txt)]: the match at the leftmost position that has one,
    [here] trying the pattern at the start of what is left. *)
Fixpoint firstMatch {A : Type} (here : jsstring -> option A) (s : jsstring)
  : option A :=
  match here s with
  | Some m => Some m
  | None =>
      match s with
      | [] => None
      | _ :: r => firstMatch here r
      end
  end.

Definition dateExec (s : jsstring) : option (jsstring * jsstring * jsstring) :=
  firstMatch dateHere s.

(** [extractISODate]:
<<
  const m = /([A-Za-z]+)\s+(\d{1,2}),\s+(\d{4})/.exec(txt || "");
  if (!m) return "";
  const mm = MONTHS[m[1].toLowerCase()];
  if (!mm) return "";
  const dd = String(parseInt(m[2],10)).padStart(2,"0");
  const yy = m[3];
  return `${yy}-${String(mm).padStart(2,"0")}-${dd}`;
>> *)
Definition extractISODate {E : Engine} (txt : jsstring) : jsstring :=
  match dateExec (orEmpty txt) with
  | None => []
  | Some (m1, m2, m3) =>
      let dd := padStart2 (decimal (parseDigits m2)) in
      match objGet MONTHS (toLowerCase m1) with
      | Undefined => []
      | Own mm =>
          if mm =? 0 then []
          else m3 ++ js "-" ++ padStart2 (decimal mm) ++ js "-" ++ dd
      | Inherited name =>
          m3 ++ js "-" ++ padStart2 (inheritedToString name) ++ js "-" ++ dd
      end
  end.

(* ================================================================== *)
(** * Subject matcher *)
(* ================================================================== *)

(** A JavaScript call either returns or throws. *)
Inductive Result (A : Type) : Type :=
| Ok (a : A)
| Throw (message : jsstring).
Arguments Throw {A} message.

Definition TEAM_ALIASES : list (jsstring * list jsstring) :=
  [ (js "lakers", [js "los angeles lakers"; js "lal"; js "lakers"]);
    (js "clippers", [js "los angeles clippers"; js "lac"; js "clippers"]);
    (js "knicks", [js "new york knicks"; js "nyk"; js "knicks"]);
    (js "nets", [js "brooklyn nets"; js "bkn"; js "nets"]);
    (js "heat", [js "miami heat"; js "mia"; js "heat"]);
    (js "bucks", [js "milwaukee bucks"; js "mil"; js "bucks"]);
    (js "celtics", [js "boston celtics"; js "bos"; js "celtics"]);
    (js "sixers", [js "philadelphia 76ers"; js "phi"; js "76ers"; js "sixers"]);
    (js "mavs", [js "dallas mavericks"; js "dal"; js "mavericks"; js "mavs"]);
    (js "suns", [js "phoenix suns"; js "phx"; js "suns"]);
    (js "warriors", [js "golden state warriors"; js "gsw"; js "warriors"]);
    (js "thunder", [js "oklahoma city thunder"; js "okc"; js "thunder"]) ].

(** [s.split(/\s+/)]: [cur] holds the current piece, reversed. *)
Fixpoint splitRuns (p : N -> bool) (inRun : bool) (cur : jsstring)
         (s : jsstring) : list jsstring :=
  match s with
  | [] => [rev cur]
  | c :: r =>
      if p c
      then (if inRun then splitRuns p true cur r
            else rev cur :: splitRuns p true [] r)
      else splitRuns p false (c :: cur) r
  end.

(** [\w] without the [u] flag. *)
Definition isWordChar (c : option N) : bool :=
  match c with
  | None => false
  | Some c => isLetter c || isDigit c || (c =? 95)
  end.

(** [\b] between the code unit before and the one after a position. *)
Definition wordBoundary (before after : option N) : bool :=
  xorb (isWordChar before) (isWordChar after).

(** One escaped alternative read at the start of [s], letter case folded;
    returns the last code unit read and what is left of [s]. *)
Fixpoint matchLiteral {E : Engine} (p s : jsstring) (before : option N)
  : option (option N * jsstring) :=
  match p with
  | [] => Some (before, s)
  | x :: p' =>
      match s with
      | [] => None
      | y :: s' =>
          if canonicalize x =? canonicalize y
          then matchLiteral p' s' (Some y) else None
      end
  end.

Definition altHere {E : Engine} (before : option N) (s p : jsstring) : bool :=
  wordBoundary before (hd_error s)
  && match matchLiteral p s before with
     | Some (lastRead, rest) => wordBoundary lastRead (hd_error rest)
     | None => false
     end.

(** [new RegExp("\\b(" + alts.join("|") + ")\\b", "i").test(txt)] for
    escaped alternatives. *)
Fixpoint wordTest {E : Engine} (alts : list jsstring) (before : option N)
         (s : jsstring) : bool :=
  existsb (altHere before s) alts
  || match s with
     | [] => false
     | c :: r => wordTest alts (Some c) r
     end.

Definition Matcher := jsstring -> Result bool.

(** [matchMode(subject, mode)] ([buildMatcher] in the four-strategy
    generation):
<<
  const s = subject.toLowerCase().trim();
  if(mode === "team"){
    const key = s.replace(/[^a-z]/g,'');
    const aliases = TEAM_ALIASES[key] || [s];
    return (txt) => { const t = txt.toLowerCase();
                      return aliases.some(a => t.includes(a)); };
  }
  if(mode === "player"){
    const parts = s.split(/\s+/);
    const last = parts[parts.length-1];
    const re = new RegExp(`\\b(${parts.map(p=>escapeRegExp(p)).join("|")}|${escapeRegExp(last)})\\b`, "i");
    return (txt) => re.test(txt);
  }
  return (txt) => txt.toLowerCase().includes(s);
>>
    When the key names an inherited property, [aliases] is that property
    and not an array: [aliases.some] is [undefined] and calling it throws
    a [TypeError]. *)
Definition matchMode {E : Engine} (subject mode : jsstring) : Matcher :=
  let s := trim (toLowerCase subject) in
  if jsstring_eqb mode (js "team") then
    let key := filter isLower s in
    match objGet TEAM_ALIASES key with
    | Own aliases =>
        fun txt => Ok (existsb (includes (toLowerCase txt)) aliases)
    | Undefined =>
        fun txt => Ok (existsb (includes (toLowerCase txt)) [s])
    | Inherited _ =>
        fun txt => Throw (js "aliases.some is not a function")
    end
  else if jsstring_eqb mode (js "player") then
    let parts := splitRuns isWhiteSpace false [] s in
    let last := List.last parts [] in
    fun txt => Ok (wordTest (parts ++ [last]) None txt)
  else
    fun txt => Ok (includes (toLowerCase txt) s).

Definition buildMatcher {E : Engine} := matchMode.

(* ================================================================== *)
(** * Documents *)
(* ================================================================== *)

Module Dom.

Definition Attrs := list (jsstring * jsstring).

(** [el.getAttribute(name)] *)
Definition getAttribute (name : jsstring) (a : Attrs) : option jsstring :=
  assoc name a.

(** The text of the text nodes below a node, in document order. *)
Fixpoint textOf (n : Node) : jsstring :=
  match n with
  | Text d => d
  | Comment _ => []
  | Element _ _ kids => flat_map textOf kids
  end.

(** [el.textContent] *)
Definition textContent (n : Node) : jsstring :=
  match n with
  | Comment d => d
  | _ => textOf n
  end.

(** ** Selectors *)

Inductive Simple : Type :=
| SelAny
| SelTag (tag : jsstring)
| SelId (id : jsstring)
| SelClass (cls : jsstring)
| SelTagAttr (tag attr : jsstring).

(** A selector is a list of alternatives ([a, b]); an alternative is a
    chain of simple selectors joined by the descendant combinator,
    outermost first. *)
Definition Selector := list (list Simple).

(** ASCII white space, on which the DOM splits a [class] attribute: tab,
    line feed, form feed, carriage return and space.  The no-break space,
    the vertical tab and the other white space of [\s] do not end a class
    name. *)
Definition isAsciiWhiteSpace (c : N) : bool :=
  (c =? 9) || (c =? 10) || (c =? 12) || (c =? 13) || (c =? 32).

(** The class names of an element: the pieces of its [class] attribute
    between runs of ASCII white space. *)
Definition classTokens (v : jsstring) : list jsstring :=
  filter (fun t => negb (falsy t)) (splitRuns isAsciiWhiteSpace false [] v).

Definition hasClass (cls : jsstring) (a : Attrs) : bool :=
  match getAttribute (js "class") a with
  | Some v => existsb (jsstring_eqb cls) (classTokens v)
  | None => false
  end.

Definition matchesSimple (s : Simple) (tag : jsstring) (a : Attrs) : bool :=
  match s with
  | SelAny => true
  | SelTag t => jsstring_eqb t tag
  | SelId i =>
      match getAttribute (js "id") a with
      | Some v => jsstring_eqb i v
      | None => false
      end
  | SelClass c => hasClass c a
  | SelTagAttr t n =>
      jsstring_eqb t tag
      && match getAttribute n a with Some _ => true | None => false end
  end.

(** The rest of a chain, innermost first, against the ancestors, nearest
    first. *)
Fixpoint ancestorsMatch (rchain : list Simple)
         (anc : list (jsstring * Attrs)) {struct anc} : bool :=
  match rchain with
  | [] => true
  | s :: rc =>
      match anc with
      | [] => false
      | (t, a) :: anc' =>
          if matchesSimple s t a then ancestorsMatch rc anc'
          else ancestorsMatch rchain anc'
      end
  end.

Definition matchesChain (chain : list Simple) (anc : list (jsstring * Attrs))
           (tag : jsstring) (a : Attrs) : bool :=
  match rev chain with
  | [] => false
  | s :: rc => matchesSimple s tag a && ancestorsMatch rc anc
  end.

Definition matchesSelector (sel : Selector) (anc : list (jsstring * Attrs))
           (tag : jsstring) (a : Attrs) : bool :=
  existsb (fun chain => matchesChain chain anc tag a) sel.

(** The elements among [n] and what is below it that match, in document
    order. *)
Fixpoint selectAll (sel : Selector) (anc : list (jsstring * Attrs))
         (n : Node) : list Node :=
  match n with
  | Element t a kids =>
      (if matchesSelector sel anc t a then [n] else [])
      ++ flat_map (selectAll sel ((t, a) :: anc)) kids
  | _ => []
  end.

(** [document.querySelectorAll(sel)], the document given by its root
    element. *)
Definition docQuerySelectorAll (sel : Selector) (doc : Node) : list Node :=
  selectAll sel [] doc.

Definition docQuerySelector (sel : Selector) (doc : Node) : option Node :=
  hd_error (docQuerySelectorAll sel doc).

(** [el.querySelectorAll(sel)]: the matching elements below [el]. *)
Definition querySelectorAll (sel : Selector) (el : Node) : list Node :=
  match el with
  | Element t a kids => flat_map (selectAll sel [(t, a)]) kids
  | _ => []
  end.

Definition querySelector (sel : Selector) (el : Node) : option Node :=
  hd_error (querySelectorAll sel el).

(** [document.body]: the first child of the [html] element that is a
    [body] or a [frameset]; [null] when the root is no [html] element or
    has no such child. *)
Definition docBody (doc : Node) : option Node :=
  match doc with
  | Element root _ kids =>
      if jsstring_eqb root (js "html") then
        find (fun k => match k with
                       | Element t _ _ =>
                           jsstring_eqb t (js "body")
                           || jsstring_eqb t (js "frameset")
                       | _ => false
                       end) kids
      else None
  | _ => None
  end.

Definition tag1 (t : string) : Selector := [[SelTag (js t)]].

(** ** Serialisation ([innerHTML]) *)

Definition voidTags : list jsstring :=
  map js ["area"; "base"; "basefont"; "bgsound"; "br"; "col"; "embed";
          "frame"; "hr"; "img"; "input"; "keygen"; "link"; "meta"; "param";
          "source"; "track"; "wbr"]%string.

Definition rawTextTags : list jsstring :=
  map js ["style"; "script"; "xmp"; "iframe"; "noembed"; "noframes";
          "plaintext"]%string.

Definition escapeText (s : jsstring) : jsstring :=
  flat_map (fun c =>
    if c =? 38 then js "&amp;"
    else if c =? 160 then js "&nbsp;"
    else if c =? 60 then js "&lt;"
    else if c =? 62 then js "&gt;"
    else [c]) s.

Definition escapeAttr (s : jsstring) : jsstring :=
  flat_map (fun c =>
    if c =? 38 then js "&amp;"
    else if c =? 160 then js "&nbsp;"
    else if c =? 34 then js "&quot;"
    else [c]) s.

Definition serializeAttr (na : jsstring * jsstring) : jsstring :=
  js " " ++ fst na ++ js "=" ++ [34] ++ escapeAttr (snd na) ++ [34].

Fixpoint serialize (rawParent : bool) (n : Node) : jsstring :=
  match n with
  | Text d => if rawParent then d else escapeText d
  | Comment d => js "<!--" ++ d ++ js "-->"
  | Element t a kids =>
      js "<" ++ t ++ flat_map serializeAttr a ++ js ">"
      ++ (if existsb (jsstring_eqb t) voidTags then []
          else flat_map (serialize (existsb (jsstring_eqb t) rawTextTags)) kids
               ++ js "</" ++ t ++ js ">")
  end.

(** [el.innerHTML] *)
Definition innerHTML (el : Node) : jsstring :=
  match el with
  | Element t _ kids =>
      flat_map (serialize (existsb (jsstring_eqb t) rawTextTags)) kids
  | _ => []
  end.

(** ** Elements addressed by position

    [querySelectorAll] returns a static list of elements.  An element of
    the list is identified here by the child indices leading to it. *)
Definition Path := list nat.

Fixpoint elementPaths (n : Node) : list Path :=
  match n with
  | Element _ _ kids =>
      (fix go (i : nat) (l : list Node) {struct l} : list Path :=
         match l with
         | [] => []
         | c :: r =>
             match c with
             | Element _ _ _ => [i] :: map (cons i) (elementPaths c)
             | _ => []
             end ++ go (S i) r
         end) 0%nat kids
  | _ => []
  end.

Fixpoint getAt (n : Node) (p : Path) : option Node :=
  match p with
  | [] => Some n
  | i :: p' =>
      match n with
      | Element _ _ kids =>
          match nth_error kids i with
          | Some c => getAt c p'
          | None => None
          end
      | _ => None
      end
  end.

Fixpoint updateNth {A : Type} (i : nat) (f : A -> A) (l : list A) : list A :=
  match l, i with
  | [], _ => []
  | x :: r, O => f x :: r
  | x :: r, S j => x :: updateNth j f r
  end.

(** The tree with the node at [p] replaced by [new]. *)
Fixpoint setAt (n : Node) (p : Path) (new : Node) : Node :=
  match p with
  | [] => new
  | i :: p' =>
      match n with
      | Element t a kids =>
          Element t a (updateNth i (fun c => setAt c p' new) kids)
      | _ => n
      end
  end.

End Dom.
Import Dom.

(* ================================================================== *)
(** * The markup-preserving snippet *)
(* ================================================================== *)

(** [el.setAttribute(name, value)]: an attribute of that name keeps its
    place, a new one goes last. *)
Fixpoint setAttribute (name value : jsstring) (a : Attrs) : Attrs :=
  match a with
  | [] => [(name, value)]
  | (n, v) :: r =>
      if jsstring_eqb n name then (n, value) :: r
      else (n, v) :: setAttribute name value r
  end.

(** [el.removeAttribute(name)] *)
Definition removeAttribute (name : jsstring) (a : Attrs) : Attrs :=
  filter (fun na => negb (jsstring_eqb (fst na) name)) a.

(** [el.tagName.toLowerCase() === "a"] *)
Definition isAnchorTag {E : Engine} (tag : jsstring) : bool :=
  jsstring_eqb (toLowerCase tag) (js "a").

(** What the loop body does to the attributes of an anchor:
<<
  const href = el.getAttribute("href");
  el.getAttributeNames().forEach(n => { if (n !== "href") el.removeAttribute(n); });
  if (href) el.setAttribute("target","_blank");
  el.removeAttribute("rel");
>> *)
Definition anchorAttrs (a : Attrs) : Attrs :=
  let href := getAttribute (js "href") a in
  let kept := filter (fun na => jsstring_eqb (fst na) (js "href")) a in
  let targeted :=
    match href with
    | Some (_ :: _) => setAttribute (js "target") (js "_blank") kept
    | _ => kept
    end in
  removeAttribute (js "rel") targeted.

(** One turn of [for (const el of clone.querySelectorAll("*"))], the
    element given by its position in the clone.  An element whose
    ancestor has been replaced by a text node is no longer part of the
    clone: what the body does to it leaves the clone as it is. *)
Definition sanitizeStep {E : Engine} (clone : Node) (p : Path) : Node :=
  match getAt clone p with
  | Some (Element t a kids) =>
      if isAnchorTag t
      then setAt clone p (Element t (anchorAttrs a) kids)
      else setAt clone p (Text (orEmpty (textContent (Element t a kids))))
  | _ => clone
  end.

(** [paragraphHTML(p)]:
<<
  const clone = p.cloneNode(true);
  for (const el of clone.querySelectorAll("*")) {
    if (el.tagName.toLowerCase() === "a") { ... }
    else {
      const txt = el.textContent || "";
      el.replaceWith(clone.ownerDocument.createTextNode(txt));
    }
  }
  return clone.innerHTML.replace(/\s+/g," ").trim();
>> *)
Definition paragraphHTML {E : Engine} (p : Node) : jsstring :=
  let clone := p in
  let clone' := fold_left sanitizeStep (elementPaths clone) clone in
  trim (replaceRuns isWhiteSpace (js " ") false (innerHTML clone')).

(** The clone the loop arrives at, described directly: below the block,
    an anchor keeps its children (treated the same way) and the
    attributes [anchorAttrs] leaves; any other element becomes the text
    below it. *)
Fixpoint sanitize {E : Engine} (n : Node) : Node :=
  match n with
  | Element t a kids =>
      if isAnchorTag t then Element t (anchorAttrs a) (map sanitize kids)
      else Text (textOf n)
  | _ => n
  end.

Definition sanitizedClone {E : Engine} (p : Node) : Node :=
  match p with
  | Element t a kids => Element t a (map sanitize kids)
  | _ => p
  end.

(** The snippet as the specification words it: "clone the block, strip
    every attribute from every non-anchor descendant and unwrap it to
    plain text, keep only the [href] attribute on anchor descendants, and
    serialize the result". *)
Fixpoint specSanitize {E : Engine} (n : Node) : Node :=
  match n with
  | Element t a kids =>
      if isAnchorTag t
      then Element t (filter (fun na => jsstring_eqb (fst na) (js "href")) a)
                   (map specSanitize kids)
      else Text (textOf n)
  | _ => n
  end.

Definition paragraphHTML_spec {E : Engine} (p : Node) : jsstring :=
  match p with
  | Element t a kids => innerHTML (Element t a (map specSanitize kids))
  | _ => []
  end.

(* ================================================================== *)
(** * Effects: the network and the debug object *)
(* ================================================================== *)

Module Effects.

Record Response := { ok : bool; status : N; body : jsstring }.

Inductive FetchResult : Type :=
| Rejected (message : jsstring)
| Responded (r : Response).

(** The network as one invocation sees it: what a request for a URL
    yields, given the requests made before it. *)
Definition Network := list jsstring -> jsstring -> FetchResult.

(** The values stored in the debug object. *)
Inductive DbgValue : Type :=
| DNum (n : N)
| DStr (s : jsstring)
| DList (l : list jsstring).

(** The debug object: its properties in insertion order. *)
Definition Dbg := list (jsstring * DbgValue).

Fixpoint dbgSet (k : jsstring) (v : DbgValue) (d : Dbg) : Dbg :=
  match d with
  | [] => [(k, v)]
  | (k', v') :: r =>
      if jsstring_eqb k' k then (k', v) :: r else (k', v') :: dbgSet k v r
  end.

(** [dbg[k] || 0] *)
Definition dbgNum (k : jsstring) (d : Dbg) : N :=
  match assoc k d with
  | Some (DNum n) => n
  | _ => 0
  end.

Record State := { requests : list jsstring; dbg : Dbg }.

(** An asynchronous function body: it runs against the network, reads
    and writes the state, and returns or throws.  What it wrote before
    throwing stays written. *)
Definition M (A : Type) : Type := Network -> State -> Result A * State.

Definition ret {A : Type} (a : A) : M A := fun _ st => (Ok a, st).

Definition throw {A : Type} (message : jsstring) : M A :=
  fun _ st => (Throw message, st).

Definition bind {A B : Type} (m : M A) (k : A -> M B) : M B :=
  fun net st =>
    match m net st with
    | (Ok a, st') => k a net st'
    | (Throw e, st') => (Throw e, st')
    end.

(** [try { m } catch (e) { h(e) }] *)
Definition tryCatch {A : Type} (m : M A) (h : jsstring -> M A) : M A :=
  fun net st =>
    match m net st with
    | (Ok a, st') => (Ok a, st')
    | (Throw e, st') => h e net st'
    end.

(** A synchronous call that may throw. *)
Definition lift {A : Type} (r : Result A) : M A := fun _ st => (r, st).

(** [await fetch(url, options)] *)
Definition fetch (url : jsstring) : M Response :=
  fun net st =>
    let st' := {| requests := requests st ++ [url]; dbg := dbg st |} in
    match net (requests st) url with
    | Rejected e => (Throw e, st')
    | Responded r => (Ok r, st')
    end.

Definition getDbg : M Dbg := fun _ st => (Ok (dbg st), st).

Definition modifyDbg (f : Dbg -> Dbg) : M unit :=
  fun _ st => (Ok tt, {| requests := requests st; dbg := f (dbg st) |}).

End Effects.
Import Effects.

Declare Scope js_scope.
Delimit Scope js_scope with js.
Notation "x <- m ;; k" := (bind m (fun x => k))
  (at level 100, m at next level, right associativity) : js_scope.
Notation "m ;;; k" := (bind m (fun _ => k))
  (at level 100, right associativity) : js_scope.
Local Open Scope js_scope.

(** ** Requests and responses of the function *)

(** [event.queryStringParameters]: each parameter is a string or
    absent. *)
Record Event := { q : option jsstring; mode : option jsstring;
                  debug : option jsstring }.

(** [event.queryStringParameters?.debug === "1"] *)
Definition debugFlag (event : Event) : bool :=
  match debug event with
  | Some d => jsstring_eqb d (js "1")
  | None => false
  end.

(** The body handed to [json(code, body)], before [JSON.stringify]. *)
Inductive Body (Item : Type) : Type :=
| ErrorBody (error : jsstring) (debugInfo : option Dbg)
| ItemsBody (subject : jsstring) (items : list Item) (debugInfo : option Dbg).
Arguments ErrorBody {Item} error debugInfo.

Record HttpResponse (Item : Type) := { statusCode : N; payload : Body Item }.

(** [function json(code, body)] *)
Definition json {Item : Type} (code : N) (b : Body Item) : HttpResponse Item :=
  {| statusCode := code; payload := b |}.

(** [(x || "")] for a parameter that may be absent. *)
Definition orEmptyOpt (x : option jsstring) : jsstring :=
  match x with
  | Some s => orEmpty s
  | None => []
  end.

(** [e.message || "Unknown error"] *)
Definition messageOr (e : jsstring) : jsstring :=
  match e with [] => js "Unknown error" | _ => e end.

(** ** Arrays *)

(** [arr.sort(cmp)].  The comparators of the sources never answer 0, and
    answer -1 both ways round for two items of one date, so where the
    engine leaves such items is its own affair.  The model is the
    insertion V8 runs on short arrays: each element goes in front of the
    first one it compares below.  V8 looks for that place by binary
    search; on a prefix that is already in order by date both searches
    arrive at the same place. *)
Fixpoint insertBy {A : Type} (cmp : A -> A -> Z) (x : A) (l : list A)
  : list A :=
  match l with
  | [] => [x]
  | y :: r => if (cmp x y <? 0)%Z then x :: l else y :: insertBy cmp x r
  end.

Definition sortBy {A : Type} (cmp : A -> A -> Z) (l : list A) : list A :=
  fold_left (fun acc x => insertBy cmp x acc) l [].

(** [arr.slice(from, to)] for literal bounds [0 <= from <= to]. *)
Definition slice {A : Type} (from to : nat) (l : list A) : list A :=
  firstn (to - from) (skipn from l).

(** [s.split(",")] *)
Fixpoint splitOn (sep : N) (cur : jsstring) (s : jsstring) : list jsstring :=
  match s with
  | [] => [rev cur]
  | c :: r =>
      if c =? sep then rev cur :: splitOn sep [] r
      else splitOn sep (c :: cur) r
  end.

(** [(a,b) => (b.date||"") > (a.date||"") ? 1 : -1], for items whose date
    is read by [dateOf]. *)
Definition cmpByDate {A : Type} (dateOf : A -> jsstring) (a b : A) : Z :=
  if str_ltb (orEmpty (dateOf a)) (orEmpty (dateOf b)) then 1%Z else (-1)%Z.

(** [String(e.message || e)] of a caught error, known by its message. *)
Definition errorText (e : jsstring) : jsstring :=
  match e with [] => js "Error" | _ => e end.

(** A [TypeError] for reading a property of [null]. *)
Definition nullRead (prop : string) : jsstring :=
  js "Cannot read properties of null (reading '" ++ js prop ++ js "')".

(* ================================================================== *)
(** * Reading a tag page *)
(* ================================================================== *)

(** What the three tag-crawl generations share word for word; they differ
    in the object a block is turned into and in the length of the title
    prefix that enters the key. *)
Module TagPage.

Definition PREVIEW_ORIGIN : jsstring := js "http://preview.hoopshype.com".

(** [fetchText]:
<<
  const res = await fetch(url, REQ);
  if (!res.ok) throw new Error(`HTTP ${res.status} for ${url}`);
  return res.text();
>> *)
Definition fetchText (u : jsstring) : M jsstring :=
  res <- fetch u ;;
  if negb (ok res)
  then throw (js "HTTP " ++ decimal (status res) ++ js " for " ++ u)
  else ret (body res).

(** [doc.querySelector("main") || doc.querySelector("#content") ||
    doc.querySelector(".content") || doc.querySelector(".container") ||
    doc.body] *)
Definition container (doc : Node) : option Node :=
  match docQuerySelector (tag1 "main") doc with
  | Some c => Some c
  | None =>
  match docQuerySelector [[SelId (js "content")]] doc with
  | Some c => Some c
  | None =>
  match docQuerySelector [[SelClass (js "content")]] doc with
  | Some c => Some c
  | None =>
  match docQuerySelector [[SelClass (js "container")]] doc with
  | Some c => Some c
  | None => docBody doc
  end end end end.

Definition tagName (n : Node) : jsstring :=
  match n with Element t _ _ => t | _ => [] end.

Definition attrsOf (n : Node) : Attrs :=
  match n with Element _ a _ => a | _ => [] end.

(** [const anchors = [...el.querySelectorAll("a")];
     const lastA = anchors[anchors.length - 1];] *)
Definition lastAnchor (el : Node) : option Node :=
  List.last (map Some (querySelectorAll (tag1 "a") el)) None.

(** [lastA?.getAttribute("href") || ""] *)
Definition lastAnchorHref (el : Node) : jsstring :=
  match lastAnchor el with
  | Some a => orEmptyOpt (getAttribute (js "href") (attrsOf a))
  | None => []
  end.

(** [clean(lastA?.textContent || "")] *)
Definition lastAnchorLabel (el : Node) : jsstring :=
  match lastAnchor el with
  | Some a => clean (orEmpty (textContent a))
  | None => clean []
  end.

(** [label || "HoopsHype"] *)
Definition orHoopsHype (label : jsstring) : jsstring :=
  match label with [] => js "HoopsHype" | _ => label end.

Definition pageUrl (encodedSlug : jsstring) (page : N) : jsstring :=
  PREVIEW_ORIGIN ++ js "/rumors/tag/" ++ encodedSlug ++ js "/"
  ++ (if 1 <? page then js "page/" ++ decimal page ++ js "/" else []).

Section Generic.
Context {E : Engine} {Item : Type}.

(** The object a block is turned into, from the element, its cleaned
    text and the current date. *)
Variable mkItem : Node -> jsstring -> jsstring -> Item.

(** The loop of [parseTagPage] over the elements of the container:
<<
  for (const el of nodes) {
    const tag = el.tagName?.toLowerCase() || "";
    const text = clean(el.textContent || "");
    const iso = extractISODate(text);
    if (iso) { currentDateISO = iso; continue; }
    const isItemBlock = (tag === "p" || tag === "li");
    if (!isItemBlock || !currentDateISO) continue;
    if (!text || text.length < 15) continue;
    ...
    out.push({ ... });
    if (out.length >= 80) break;
  }
>> *)
Fixpoint scanNodes (nodes : list Node) (currentDateISO : jsstring)
         (out : list Item) : list Item :=
  match nodes with
  | [] => out
  | el :: rest =>
      let tag := orEmpty (toLowerCase (tagName el)) in
      let text := clean (orEmpty (textContent el)) in
      let iso := extractISODate text in
      if negb (falsy iso) then scanNodes rest iso out
      else
        let isItemBlock :=
          jsstring_eqb tag (js "p") || jsstring_eqb tag (js "li") in
        if negb isItemBlock || falsy currentDateISO
        then scanNodes rest currentDateISO out
        else if falsy text || (List.length text <? 15)%nat
        then scanNodes rest currentDateISO out
        else
          let out' := out ++ [mkItem el text currentDateISO] in
          if (80 <=? List.length out')%nat then out'
          else scanNodes rest currentDateISO out'
  end.

(** [parseTagPage(html, dbg)]:
<<
  const nodes = [...container.querySelectorAll("*")];
  dbg.scannedNodes = (dbg.scannedNodes || 0) + nodes.length;
  for (const el of nodes) { ... }
  dbg.parsedItemsOnPage = (dbg.parsedItemsOnPage || 0) + out.length;
  return out;
>> *)
Definition parseTagPage (html : jsstring) : M (list Item) :=
  let doc := parseHTML html in
  match container doc with
  | None => throw (nullRead "querySelectorAll")
  | Some c =>
      let nodes := querySelectorAll [[SelAny]] c in
      modifyDbg (fun d => dbgSet (js "scannedNodes")
        (DNum (dbgNum (js "scannedNodes") d + N.of_nat (List.length nodes))) d) ;;;
      let out := scanNodes nodes [] [] in
      modifyDbg (fun d => dbgSet (js "parsedItemsOnPage")
        (DNum (dbgNum (js "parsedItemsOnPage") d + N.of_nat (List.length out))) d) ;;;
      ret out
  end.

(** The key of an item; see [itemKey] and [rumorKey]. *)
Variable keyOf : Item -> jsstring.

(** The de-duplicating loop:
<<
  for (const it of parsed) {
    const key = ...;
    if (seen.has(key)) continue;
    seen.add(key);
    items.push(it);
  }
>>
    [seen] is the set, [items] the array built so far. *)
Fixpoint addNew (parsed : list Item) (items : list Item) (seen : list jsstring)
  : list Item * list jsstring :=
  match parsed with
  | [] => (items, seen)
  | it :: rest =>
      let key := keyOf it in
      if existsb (jsstring_eqb key) seen then addNew rest items seen
      else addNew rest (items ++ [it]) (key :: seen)
  end.

End Generic.

End TagPage.
Import TagPage.

(* ================================================================== *)
(** * The tag-crawl generations that keep paragraph markup *)
(* ================================================================== *)

(** The generation that answers with eight items and the one that answers
    with five share everything up to the window. *)
Module TagCrawl.

Record Item := {
  title : jsstring;
  snippet_html : jsstring;
  url : jsstring;
  sourceName : jsstring;
  date : jsstring;
  (** only in the eight-item generation, and not part of its answer *)
  lastAnchorText : jsstring
}.

Record Payload := {
  p_date : jsstring;
  date_pretty : jsstring;
  p_snippet_html : jsstring;
  p_sourceName : jsstring;
  sourceUrl : jsstring;
  (** only in the eight-item generation *)
  suppressSource : option bool
}.

(** The key both de-duplications build:
    [`${it.date}::${it.title.slice(0,120)}::${it.url}`] *)
Definition itemKey (it : Item) : jsstring :=
  date it ++ js "::" ++ slicePrefix 120 (title it) ++ js "::" ++ url it.

(** The object [parseTagPage] pushes:
<<
  out.push({ title: text, snippet_html: htmlSnippet, url, sourceName,
             date: currentDateISO,
             lastAnchorText: clean(anchors.at(-1)?.textContent || "") });
>> *)
Definition blockItem {E : Engine} (el : Node) (text currentDateISO : jsstring)
  : Item :=
  {| title := text;
     snippet_html := paragraphHTML el;
     url := lastAnchorHref el;
     sourceName := orHoopsHype (lastAnchorLabel el);
     date := currentDateISO;
     lastAnchorText := lastAnchorLabel el |}.

(** [collectFromOneTag(slug, dbg)], the pages still to visit given as a
    list:
<<
  for (let page = 1; page <= 10; page++) {
    const url = PREVIEW_ORIGIN + `/rumors/tag/${encodeURIComponent(slug)}/` + ...;
    let html = "";
    try { html = await fetchText(url); }
    catch (e) { dbg[`page${page}Error_${slug}`] = String(e.message || e); break; }
    const parsed = parseTagPage(html, dbg);
    for (const it of parsed) { ... }
    if (items.length >= 150) break;
  }
  return items;
>> *)
Fixpoint collectPages {E : Engine} (slug : jsstring) (pages : list N)
         (items : list Item) (seen : list jsstring) : M (list Item) :=
  match pages with
  | [] => ret items
  | page :: more =>
      match encodeURIComponent slug with
      | None => throw (js "URI malformed")
      | Some enc =>
          got <- tryCatch
                   (html <- fetchText (pageUrl enc page) ;; ret (Some html))
                   (fun e =>
                      modifyDbg (dbgSet
                        (js "page" ++ decimal page ++ js "Error_" ++ slug)
                        (DStr (errorText e))) ;;;
                      ret None) ;;
          match got with
          | None => ret items
          | Some html =>
              parsed <- parseTagPage blockItem html ;;
              let (items', seen') := addNew itemKey parsed items seen in
              if (150 <=? List.length items')%nat then ret items'
              else collectPages slug more items' seen'
          end
      end
  end.

Definition collectFromOneTag {E : Engine} (slug : jsstring) : M (list Item) :=
  collectPages slug [1; 2; 3; 4; 5; 6; 7; 8; 9; 10] [] [].

(** [fmtMonthAbbrev]:
<<
  const m = /^(\d{4})-(\d{2})-(\d{2})$/.exec(dateStr || "");
  if (!m) return "";
  const y = m[1], mon = parseInt(m[2],10), d = parseInt(m[3],10);
  const names = ["Jan.","Feb.", ... ,"Dec."];
  return `${names[mon-1]} ${d}, ${y}`;
>> *)
Definition monthNames : list jsstring :=
  map js ["Jan."; "Feb."; "Mar."; "Apr."; "May"; "Jun."; "Jul."; "Aug.";
          "Sep."; "Oct."; "Nov."; "Dec."]%string.

Definition fmtMonthAbbrev (dateStr : jsstring) : jsstring :=
  match orEmpty dateStr with
  | [y1; y2; y3; y4; 45; m1; m2; 45; d1; d2] =>
      if forallb isDigit [y1; y2; y3; y4; m1; m2; d1; d2] then
        let mon := parseDigits [m1; m2] in
        let name := if mon =? 0 then js "undefined"
                    else nth (N.to_nat (mon - 1)) monthNames (js "undefined") in
        name ++ js " " ++ decimal (parseDigits [d1; d2]) ++ js ", "
        ++ [y1; y2; y3; y4]
      else []
  | _ => []
  end.

Section Handlers.
Context {E : Engine}.

(** [anchorEndExec txt] stands for the [exec] of the regular expression
    of [bodyAlreadyHasSource] (an anchor with a quoted [href] closing the
    text, case ignored) on [txt], giving the two captured groups: the
    [href] value and the anchor text.  The expression only feeds the
    [suppressSource] flag of the eight-item answer; it is left to the
    engine. *)
Variable anchorEndExec : jsstring -> option (jsstring * jsstring).

(** [bodyAlreadyHasSource]:
<<
  if (!item.url) return false;
  const url = item.url.replace(/\/+$/,"");
  const txt = item.snippet_html.trim();
  const anchorEnd = /.../i.exec(txt);
  if (!anchorEnd) return false;
  const href = anchorEnd[1].replace(/\/+$/,"");
  const label = clean(anchorEnd[2] || "");
  return href === url || label.toLowerCase() === item.sourceName.toLowerCase();
>> *)
Definition bodyAlreadyHasSource (item : Item) : bool :=
  if falsy (url item) then false
  else
    let u := dropWhileEnd (N.eqb 47) (url item) in
    let txt := trim (snippet_html item) in
    match anchorEndExec txt with
    | None => false
    | Some (g1, g2) =>
        let href := dropWhileEnd (N.eqb 47) g1 in
        let label := clean (orEmpty g2) in
        jsstring_eqb href u
        || jsstring_eqb (toLowerCase label) (toLowerCase (sourceName item))
    end.

(** [qRaw.split(",").map(s => clean(s)).filter(Boolean)] *)
Definition subjectsOf (qRaw : jsstring) : list jsstring :=
  filter (fun s => negb (falsy s)) (map clean (splitOn 44 [] qRaw)).

(** [for (const slug of slugs) merged = merged.concat(await collectFromOneTag(slug, dbg));] *)
Fixpoint collectAll (slugs : list jsstring) (merged : list Item)
  : M (list Item) :=
  match slugs with
  | [] => ret merged
  | slug :: more =>
      part <- collectFromOneTag slug ;;
      collectAll more (merged ++ part)
  end.

(** The sort and the de-duplication of [handler]:
<<
  merged.sort((a,b) => (b.date||"") > (a.date||"") ? 1 : -1);
  const dedup = [];
  const seen = new Set();
  for (const it of merged) { ... }
>> *)
Definition sortMerged (merged : list Item) : list Item :=
  sortBy (cmpByDate date) merged.

Definition dedupOf (merged : list Item) : list Item :=
  fst (addNew itemKey (sortMerged merged) [] []).

Definition basePayload (it : Item) : Payload :=
  {| p_date := date it;
     date_pretty := fmtMonthAbbrev (date it);
     p_snippet_html := snippet_html it;
     p_sourceName := sourceName it;
     sourceUrl := url it;
     suppressSource := None |}.

Definition withSuppress (it : Item) : Payload :=
  {| p_date := date it;
     date_pretty := fmtMonthAbbrev (date it);
     p_snippet_html := snippet_html it;
     p_sourceName := sourceName it;
     sourceUrl := url it;
     suppressSource := Some (bodyAlreadyHasSource it) |}.

(** [handler], the window's upper index and the item mapping left to the
    generation:
<<
  const qRaw = (event.queryStringParameters?.q || "").trim();
  const debug = event.queryStringParameters?.debug === "1";
  if (!qRaw) return json(400, { error: "Missing q" });
  const subjects = qRaw.split(",").map(s => clean(s)).filter(Boolean);
  const slugs = subjects.map(slugify);
  const dbg = { subjects, slugs };
  try {
    let merged = [];
    for (const slug of slugs) merged = merged.concat(await collectFromOneTag(slug, dbg));
    merged.sort(...);
    (de-duplication)
    const window = dedup.slice(1, 9);
    const items = window.map(it => ({ ... }));
    return json(200, debug
      ? { subject: qRaw, items, debug: { ...dbg, totalMerged: merged.length,
            totalAfterDedup: dedup.length, returning: items.length } }
      : { subject: qRaw, items });
  } catch (e) {
    return json(500, { error: e.message || "Unknown error", debug: dbg });
  }
>> *)
Definition handlerWith (windowTo : nat) (toPayload : Item -> Payload)
           (event : Event) : M (HttpResponse Payload) :=
  let qRaw := trim (orEmptyOpt (q event)) in
  let debug := debugFlag event in
  if falsy qRaw then ret (json 400 (ErrorBody (js "Missing q") None))
  else
    let subjects := subjectsOf qRaw in
    let slugs := map slugify subjects in
    modifyDbg (fun _ => [(js "subjects", DList subjects);
                         (js "slugs", DList slugs)]) ;;;
    tryCatch
      (merged <- collectAll slugs [] ;;
       let dedup := dedupOf merged in
       let window := slice 1 windowTo dedup in
       let items := map toPayload window in
       d <- getDbg ;;
       ret (json 200
              (ItemsBody qRaw items
                 (if debug
                  then Some
                    (dbgSet (js "returning") (DNum (N.of_nat (List.length items)))
                    (dbgSet (js "totalAfterDedup") (DNum (N.of_nat (List.length dedup)))
                    (dbgSet (js "totalMerged") (DNum (N.of_nat (List.length merged))) d)))
                  else None))))
      (fun e =>
         d <- getDbg ;;
         ret (json 500 (ErrorBody (messageOr e) (Some d)))).

(** The generation that skips the newest item and answers with the next
    eight: [dedup.slice(1, 9)]. *)
Definition handler8 : Event -> M (HttpResponse Payload) :=
  handlerWith 9 withSuppress.

(** The generation that skips the newest item and answers with the next
    five: [dedup.slice(1, 6)]. *)
Definition handler5 : Event -> M (HttpResponse Payload) :=
  handlerWith 6 basePayload.

End Handlers.

End TagCrawl.

(** An invocation starts with no request made and an empty debug
    object. *)
Definition invoke {A : Type} (m : M A) (net : Network) : Result A * State :=
  m net {| requests := []; dbg := [] |}.

(* ================================================================== *)
(** * The generations that hydrate article pages *)
(* ================================================================== *)

(** The item of the feed, search and index generations and of the plain
    tag crawl: [{ title, url, date, source, snippet }]. *)
Record Rumor := {
  r_title : jsstring;
  r_url : jsstring;
  r_date : jsstring;
  r_source : jsstring;
  r_snippet : jsstring
}.

(** [a || b] on strings *)
Definition orElse (a b : jsstring) : jsstring :=
  match a with [] => b | _ => a end.

Module Hydrate.

(** ** Source attribution *)

Definition upperLetters : list N :=
  map N_of_ascii (list_ascii_of_string "ABCDEFGHIJKLMNOPQRSTUVWXYZ").

(** The members of [[A-Za-z0-9 .'-]] *)
Definition sourceChars : list N :=
  map N_of_ascii (list_ascii_of_string
    "ABCDEFGHIJKLMNOPQRSTUVWXYZabcdefghijklmnopqrstuvwxyz0123456789 .'-").

Definition isSourceChar (c : N) : bool := existsb (N.eqb c) sourceChars.

(** Membership in a class under the [i] flag. *)
Definition ciMember {E : Engine} (members : list N) (c : N) : bool :=
  existsb (fun d => canonicalize c =? canonicalize d) members.

Definition ciEq {E : Engine} (c d : N) : bool :=
  canonicalize c =? canonicalize d.

(** [/via\s+([A-Z][A-Za-z0-9 .'-]+)/i] at the start of [s]: the captured
    group. *)
Definition viaHere {E : Engine} (s : jsstring) : option jsstring :=
  match s with
  | v :: i :: a :: rest =>
      if ciEq v 118 && ciEq i 105 && ciEq a 97 then
        match span isWhiteSpace rest with
        | ([], _) => None
        | (_, c :: r) =>
            if ciMember upperLetters c then
              match span (ciMember sourceChars) r with
              | ([], _) => None
              | (run, _) => Some (c :: run)
              end
            else None
        | (_, []) => None
        end
      else None
  | _ => None
  end.

(** [/[-\u2013]\s*([A-Z][A-Za-z0-9 .'-]+)$/] at the start of [s], the two
    classes given as tests: the capture has to run to the end of the
    text. *)
Definition dashHere (first rest : N -> bool) (s : jsstring) : option jsstring :=
  match s with
  | d :: r =>
      if (d =? 45) || (d =? 8211) then
        match dropWhile isWhiteSpace r with
        | c :: run =>
            if first c && negb (falsy run) && forallb rest run
            then Some (c :: run) else None
        | [] => None
        end
      else None
  | [] => None
  end.

(** [normSource] of the feed generation:
<<
  const via = /via\s+([A-Z][A-Za-z0-9 .'-]+)/i.exec(text);
  if(via) return via[1].trim();
  const dash = /[-\u2013]\s*([A-Z][A-Za-z0-9 .'-]+)$/.exec(text.trim());
  if(dash) return dash[1].trim();
  return "HoopsHype";
>> *)
Definition normSource {E : Engine} (text : jsstring) : jsstring :=
  match firstMatch viaHere text with
  | Some g => trim g
  | None =>
      match firstMatch (dashHere isUpper isSourceChar) (trim text) with
      | Some g => trim g
      | None => js "HoopsHype"
      end
  end.

(** [sourceFrom] of the four-strategy generation: as [normSource], the
    second expression being [/[-\u2013]\s*([A-Z][A-Za-z0-9 .'-]+)\s*$/i]
    (the text is trimmed, so [\s*] has nothing to read). *)
Definition sourceFrom {E : Engine} (text : jsstring) : jsstring :=
  match firstMatch viaHere text with
  | Some g => trim g
  | None =>
      match firstMatch (dashHere (ciMember upperLetters) (ciMember sourceChars))
                       (trim text) with
      | Some g => trim g
      | None => js "HoopsHype"
      end
  end.

(** ** Reading feeds and article pages *)

(** [it.querySelector(tag)?.textContent || ""] *)
Definition childText (tag : string) (it : Node) : jsstring :=
  match querySelector (tag1 tag) it with
  | Some n => orEmpty (textContent n)
  | None => []
  end.

(** [doc.querySelector("time[datetime]")] *)
Definition timeElement (doc : Node) : option Node :=
  docQuerySelector [[SelTagAttr (js "time") (js "datetime")]] doc.

(** [doc.querySelector("time[datetime]")?.getAttribute("datetime")] *)
Definition datetimeAttr (doc : Node) : option jsstring :=
  match timeElement doc with
  | Some el => getAttribute (js "datetime") (attrsOf el)
  | None => None
  end.

(** [doc.querySelector("article") || doc.body] *)
Definition articleOrBody (doc : Node) : option Node :=
  match docQuerySelector (tag1 "article") doc with
  | Some a => Some a
  | None => docBody doc
  end.

(** [doc.querySelector("article p")] *)
Definition articleParagraph (doc : Node) : option Node :=
  docQuerySelector [[SelTag (js "article"); SelTag (js "p")]] doc.

(** [doc.querySelector("h1, h2")?.textContent || ""] *)
Definition headingText (doc : Node) : jsstring :=
  match docQuerySelector [[SelTag (js "h1")]; [SelTag (js "h2")]] doc with
  | Some h => orEmpty (textContent h)
  | None => []
  end.

(** The fields read off a feed entry. *)
Record FeedItem := {
  f_title : jsstring;
  f_url : jsstring;
  f_date : jsstring;
  f_desc : jsstring
}.

(** [[...dom.window.document.querySelectorAll("item")].map(it => ...)] *)
Definition feedItems {E : Engine} (doc : Node) : list FeedItem :=
  map (fun it =>
         {| f_title := childText "title" it;
            f_url := childText "link" it;
            f_date := toISO (childText "pubDate" it);
            f_desc := childText "description" it |})
      (docQuerySelectorAll (tag1 "item") doc).

(** Items kept by the first occurrence of a key, at most [cap] of them:
<<
  for(const m of matches){
    if(seen.has(m.url)) continue;
    seen.add(m.url);
    unique.push(m);
    if(unique.length >= 12) break;
  }
>> *)
Fixpoint uniqueBy {A : Type} (keyOf : A -> jsstring) (cap : nat)
         (l : list A) (unique : list A) (seen : list jsstring) : list A :=
  match l with
  | [] => unique
  | m :: rest =>
      if existsb (jsstring_eqb (keyOf m)) seen
      then uniqueBy keyOf cap rest unique seen
      else
        let unique' := unique ++ [m] in
        if (cap <=? List.length unique')%nat then unique'
        else uniqueBy keyOf cap rest unique' (keyOf m :: seen)
  end.

(** [Array.prototype.filter] with a predicate that may throw. *)
Fixpoint filterM {A : Type} (p : A -> Result bool) (l : list A)
  : Result (list A) :=
  match l with
  | [] => Ok []
  | x :: r =>
      match p x with
      | Throw e => Throw e
      | Ok b =>
          match filterM p r with
          | Throw e => Throw e
          | Ok r' => Ok (if b then x :: r' else r')
          end
      end
  end.

End Hydrate.
Import Hydrate.

(* ================================================================== *)
(** * The plain tag crawl *)
(* ================================================================== *)

(** The generation that walks every element of the tag page and answers
    with the five newest items that carry a link. *)
Module TagPlain.

(** [`${it.date}::${it.title.slice(0,80)}::${it.url}`] *)
Definition rumorKey (it : Rumor) : jsstring :=
  r_date it ++ js "::" ++ slicePrefix 80 (r_title it) ++ js "::" ++ r_url it.

(** [out.push({ title: text, url, date: currentDateISO, source, snippet: text })] *)
Definition blockRumor (el : Node) (text currentDateISO : jsstring) : Rumor :=
  {| r_title := text;
     r_url := lastAnchorHref el;
     r_date := currentDateISO;
     r_source := orHoopsHype (lastAnchorLabel el);
     r_snippet := text |}.

(** The page loop of [collectFromTag]; the error key is
    [`page${page}Error`]. *)
Fixpoint collectPages {E : Engine} (slug : jsstring) (pages : list N)
         (collected : list Rumor) (seen : list jsstring) : M (list Rumor) :=
  match pages with
  | [] => ret collected
  | page :: more =>
      match encodeURIComponent slug with
      | None => throw (js "URI malformed")
      | Some enc =>
          got <- tryCatch
                   (html <- fetchText (pageUrl enc page) ;; ret (Some html))
                   (fun e =>
                      modifyDbg (dbgSet (js "page" ++ decimal page ++ js "Error")
                                        (DStr (errorText e))) ;;;
                      ret None) ;;
          match got with
          | None => ret collected
          | Some html =>
              items <- parseTagPage blockRumor html ;;
              let (collected', seen') := addNew rumorKey items collected seen in
              if (150 <=? List.length collected')%nat then ret collected'
              else collectPages slug more collected' seen'
          end
      end
  end.

(** [collectFromTag(slug, dbg)]:
<<
  (the page loop)
  collected.sort((a,b) => (b.date||"") > (a.date||"") ? 1 : -1);
  const top5 = collected.filter(x => x.url).slice(0,5);
  dbg.totalCollected = collected.length;
  dbg.returning = top5.length;
  return top5;
>> *)
Definition collectFromTag {E : Engine} (slug : jsstring) : M (list Rumor) :=
  collected <- collectPages slug [1; 2; 3; 4; 5; 6; 7; 8; 9; 10] [] [] ;;
  let sorted := sortBy (cmpByDate r_date) collected in
  let top5 := slice 0 5 (filter (fun x => negb (falsy (r_url x))) sorted) in
  modifyDbg (dbgSet (js "totalCollected") (DNum (N.of_nat (List.length sorted)))) ;;;
  modifyDbg (dbgSet (js "returning") (DNum (N.of_nat (List.length top5)))) ;;;
  ret top5.

(** [handler]:
<<
  const q = (event.queryStringParameters?.q || "").trim();
  const debug = event.queryStringParameters?.debug === "1";
  if (!q) return json(400, { error: "Missing q" });
  const slug = slugify(q);
  const dbg = { slug };
  try {
    const items = await collectFromTag(slug, dbg);
    return json(200, debug ? { subject: q, items, debug: dbg } : { subject: q, items });
  } catch (e) {
    return json(500, { error: e.message || "Unknown error", debug: dbg });
  }
>> *)
Definition handler {E : Engine} (event : Event) : M (HttpResponse Rumor) :=
  let qv := trim (orEmptyOpt (q event)) in
  let debug := debugFlag event in
  if falsy qv then ret (json 400 (ErrorBody (js "Missing q") None))
  else
    let slug := slugify qv in
    modifyDbg (fun _ => [(js "slug", DStr slug)]) ;;;
    tryCatch
      (items <- collectFromTag slug ;;
       d <- getDbg ;;
       ret (json 200 (ItemsBody qv items (if debug then Some d else None))))
      (fun e =>
         d <- getDbg ;;
         ret (json 500 (ErrorBody (messageOr e) (Some d)))).

End TagPlain.

(* ================================================================== *)
(** * The feed generation *)
(* ================================================================== *)

(** [netlify/functions/fetchRumors.js]: the rumors feed first, the index
    pages when the feed throws. *)
Module FeedIndex.

Definition RUMORS_FEED : jsstring := js "https://hoopshype.com/category/rumors/feed/".
Definition RUMORS_INDEX : jsstring := js "https://hoopshype.com/rumors/".

(** A feed entry with the text the matcher is tried on:
    [{ title, url: link, date: toISO(pubDate), raw: `${title} ${desc}` }] *)
Definition rawOf (it : FeedItem) : jsstring :=
  f_title it ++ js " " ++ f_desc it.

(** The hydration of one feed entry in [getFromRSS]:
<<
  try {
    const pg = await fetch(it.url, ...);
    const html = await pg.text();
    const doc = new JSDOM(html).window.document;
    const p = doc.querySelector("article p");
    const metaDate = doc.querySelector("time[datetime]")?.getAttribute("datetime");
    const snippet = p ? clean(p.textContent) : it.title;
    const source = normSource(html) || normSource(it.title);
    refined.push({ title: it.title, url: it.url,
                   date: toISO(metaDate) || it.date || "", source, snippet });
  } catch {
    refined.push({ title: it.title, url: it.url, date: it.date || "",
                   source: "HoopsHype", snippet: it.title });
  }
>> *)
Definition refineOne {E : Engine} (it : FeedItem) : M Rumor :=
  tryCatch
    (pg <- fetch (f_url it) ;;
     let html := body pg in
     let doc := parseHTML html in
     let snippet := match articleParagraph doc with
                    | Some p => clean (textContent p)
                    | None => f_title it
                    end in
     let source := orElse (normSource html) (normSource (f_title it)) in
     ret {| r_title := f_title it; r_url := f_url it;
            r_date := orElse (toISO_opt (datetimeAttr doc)) (orEmpty (f_date it));
            r_source := source; r_snippet := snippet |})
    (fun _ =>
       ret {| r_title := f_title it; r_url := f_url it;
              r_date := orEmpty (f_date it);
              r_source := js "HoopsHype"; r_snippet := f_title it |}).

Fixpoint refineAll {E : Engine} (unique : list FeedItem) (refined : list Rumor)
  : M (list Rumor) :=
  match unique with
  | [] => ret refined
  | it :: rest =>
      r <- refineOne it ;;
      refineAll rest (refined ++ [r])
  end.

(** [getFromRSS(query, mode)]:
<<
  const res = await fetch(RUMORS_FEED, ...);
  if(!res.ok) throw new Error("RSS not reachable");
  const xml = await res.text();
  const dom = new JSDOM(xml, { contentType: "text/xml" });
  const items = [...].map(it => ...);
  const matches = items.filter(x => matchMode(query, mode)(x.raw)).slice(0, 20);
  (unique by url, at most 12)
  (hydration)
  refined.sort((a,b)=> (b.date||"") > (a.date||"") ? 1 : -1);
  return refined.slice(0,5);
>> *)
Definition getFromRSS {E : Engine} (query mode : jsstring) : M (list Rumor) :=
  res <- fetch RUMORS_FEED ;;
  if negb (ok res) then throw (js "RSS not reachable")
  else
    match parseXML (body res) with
    | None => throw (js "XML parse error")
    | Some doc =>
        let items := feedItems doc in
        found <- lift (filterM (fun x => matchMode query mode (rawOf x)) items) ;;
        let matches := slice 0 20 found in
        let unique := uniqueBy f_url 12 matches [] [] in
        refined <- refineAll unique [] ;;
        ret (slice 0 5 (sortBy (cmpByDate r_date) refined))
    end.

(** A card of an index page: [{ url: link, title }]. *)
Record Card := { c_url : jsstring; c_title : jsstring }.

(** The cards of one index page:
<<
  for(const a of articles){
    const link = a.querySelector("a")?.href;
    const title = a.querySelector("h2, h3")?.textContent || a.textContent || "";
    if(!link) continue;
    acc.push({ url: link, title });
  }
>> *)
Definition cardOf {E : Engine} (a : Node) : option Card :=
  let link := match querySelector (tag1 "a") a with
              | Some an =>
                  match getAttribute (js "href") (attrsOf an) with
                  | Some h => hrefProperty h
                  | None => []
                  end
              | None => []
              end in
  let heading := match querySelector [[SelTag (js "h2")]; [SelTag (js "h3")]] a with
                 | Some h => textContent h
                 | None => []
                 end in
  let title := orElse heading (orEmpty (textContent a)) in
  if falsy link then None else Some {| c_url := link; c_title := title |}.

Fixpoint someOnly {A : Type} (l : list (option A)) : list A :=
  match l with
  | [] => []
  | Some x :: r => x :: someOnly r
  | None :: r => someOnly r
  end.

(** The page loop of [getFromIndex]: a page that answers with an error
    status is passed over, a request that fails throws. *)
Fixpoint collectCards {E : Engine} (pages : list jsstring) (acc : list Card)
  : M (list Card) :=
  match pages with
  | [] => ret acc
  | u :: more =>
      res <- fetch u ;;
      if negb (ok res) then collectCards more acc
      else
        let doc := parseHTML (body res) in
        let articles := docQuerySelectorAll (tag1 "article") doc in
        collectCards more (acc ++ someOnly (map cardOf articles))
  end.

(** The hydration of one card in [getFromIndex]. *)
Definition hydrateCard {E : Engine} (it : Card) : M Rumor :=
  tryCatch
    (pg <- fetch (c_url it) ;;
     let html := body pg in
     let doc := parseHTML html in
     let snippet := match articleParagraph doc with
                    | Some p => clean (textContent p)
                    | None => c_title it
                    end in
     let source := orElse (normSource html) (normSource (c_title it)) in
     ret {| r_title := c_title it; r_url := c_url it;
            r_date := orEmpty (toISO_opt (datetimeAttr doc));
            r_source := source; r_snippet := snippet |})
    (fun _ =>
       ret {| r_title := c_title it; r_url := c_url it; r_date := [];
              r_source := js "HoopsHype"; r_snippet := c_title it |}).

Fixpoint hydrateCards {E : Engine} (unique : list Card) (out : list Rumor)
  : M (list Rumor) :=
  match unique with
  | [] => ret out
  | it :: rest =>
      r <- hydrateCard it ;;
      hydrateCards rest (out ++ [r])
  end.

(** [getFromIndex(query, mode)] *)
Definition getFromIndex {E : Engine} (query mode : jsstring) : M (list Rumor) :=
  acc <- collectCards [RUMORS_INDEX; RUMORS_INDEX ++ js "page/2/";
                       RUMORS_INDEX ++ js "page/3/"] [] ;;
  filt <- lift (filterM (fun x => matchMode query mode (c_title x)) acc) ;;
  let unique := uniqueBy c_url 12 filt [] [] in
  out <- hydrateCards unique [] ;;
  ret (slice 0 5 (sortBy (cmpByDate r_date) out)).

(** [(event.queryStringParameters?.mode || "player").toLowerCase()] *)
Definition modeOf {E : Engine} (event : Event) : jsstring :=
  toLowerCase (match mode event with
               | Some (_ :: _ as m) => m
               | _ => js "player"
               end).

(** [handler]:
<<
  const q = (event.queryStringParameters?.q || "").trim();
  const mode = (event.queryStringParameters?.mode || "player").toLowerCase();
  if(!q) return json(400, { error:"Missing q" });
  try {
    let items = [];
    try { items = await getFromRSS(q, mode); }
    catch { items = await getFromIndex(q, mode); }
    return json(200, { subject:q, items });
  } catch (e) {
    return json(500, { error: e.message || "Unknown error" });
  }
>> *)
Definition handler {E : Engine} (event : Event) : M (HttpResponse Rumor) :=
  let qv := trim (orEmptyOpt (q event)) in
  let md := modeOf event in
  if falsy qv then ret (json 400 (ErrorBody (js "Missing q") None))
  else
    tryCatch
      (items <- tryCatch (getFromRSS qv md) (fun _ => getFromIndex qv md) ;;
       ret (json 200 (ItemsBody qv items None)))
      (fun e => ret (json 500 (ErrorBody (messageOr e) None))).

End FeedIndex.

(* ================================================================== *)
(** * The four-strategy generation *)
(* ================================================================== *)

(** Site search feed, site search page, rumors feed, rumors index: each
    strategy is one [try { ... } catch { return []; }]. *)
Module FourStrategies.

Definition RUMORS_FEED : jsstring := js "https://hoopshype.com/category/rumors/feed/".
Definition RUMORS_INDEX : jsstring := js "https://hoopshype.com/rumors/".

(** [SEARCH_RSS(q)] and [SEARCH_HTML(q)], given the encoded query *)
Definition SEARCH_RSS (enc : jsstring) : jsstring :=
  js "https://hoopshype.com/?s=" ++ enc ++ js "&feed=rss2".
Definition SEARCH_HTML (enc : jsstring) : jsstring :=
  js "https://hoopshype.com/?s=" ++ enc.

Definition encodeM {E : Engine} (s : jsstring) : M jsstring :=
  match encodeURIComponent s with
  | Some enc => ret enc
  | None => throw (js "URI malformed")
  end.

(** [fetchText]: [throw new Error(`Fetch ${res.status} ${url}`)] on an
    error status. *)
Definition fetchText (u : jsstring) : M jsstring :=
  res <- fetch u ;;
  if negb (ok res)
  then throw (js "Fetch " ++ decimal (status res) ++ js " " ++ u)
  else ret (body res).

(** A prefix read with letter case folded. *)
Fixpoint stripPrefixCI {E : Engine} (p s : jsstring) : option jsstring :=
  match p with
  | [] => Some s
  | x :: p' =>
      match s with
      | y :: s' => if ciEq x y then stripPrefixCI p' s' else None
      | [] => None
      end
  end.

(** [url.replace(/^https?:\/\/(www\.)?/i, "https://")] *)
Definition normaliseScheme {E : Engine} (u : jsstring) : jsstring :=
  let afterScheme :=
    match stripPrefixCI (js "https://") u with
    | Some r => Some r
    | None => stripPrefixCI (js "http://") u
    end in
  match afterScheme with
  | None => u
  | Some r =>
      match stripPrefixCI (js "www.") r with
      | Some r' => js "https://" ++ r'
      | None => js "https://" ++ r
      end
  end.

(** [isRumorsLanding]:
<<
  return url.replace(/^https?:\/\/(www\.)?/i, "https://")
            .replace(/\/+$/, "") === "https://hoopshype.com/rumors";
>> *)
Definition isRumorsLanding {E : Engine} (u : jsstring) : bool :=
  jsstring_eqb (dropWhileEnd (N.eqb 47) (normaliseScheme u))
               (js "https://hoopshype.com/rumors").

(** [hasTimestamp(doc)] *)
Definition hasTimestamp (doc : Node) : bool :=
  match timeElement doc with Some _ => true | None => false end.

(** [clean(article.textContent || "")] for
    [article = doc.querySelector("article") || doc.body]; reading
    [textContent] of [null] throws. *)
Definition articleBody (doc : Node) : M jsstring :=
  match articleOrBody doc with
  | Some article => ret (clean (orEmpty (textContent article)))
  | None => throw (nullRead "textContent")
  end.

(** [clean(p ? p.textContent : fallback)] for
    [p = doc.querySelector("article p")] *)
Definition snippetOr (doc : Node) (fallback : jsstring) : jsstring :=
  clean (match articleParagraph doc with
         | Some p => textContent p
         | None => fallback
         end).

(** The loop the four strategies run over their candidates, [one] being
    the body of its [try]: [Some item] when it pushes, [None] when it
    passes on ([continue]) and a throw when the page is bad.
<<
  for (const it of candidates) {
    try {
      ...
      out.push({ ... });
      if (out.length >= 5) break;
    } catch { }
  }
>> *)
Fixpoint hydrateLoop {A : Type} (one : A -> M (option Rumor))
         (candidates : list A) (out : list Rumor) : M (list Rumor) :=
  match candidates with
  | [] => ret out
  | it :: rest =>
      r <- tryCatch (one it) (fun _ => ret None) ;;
      match r with
      | Some item =>
          let out' := out ++ [item] in
          if (5 <=? List.length out')%nat then ret out'
          else hydrateLoop one rest out'
      | None => hydrateLoop one rest out
      end
  end.

(** The [try] body of [fromSearchRSS] and [fromRumorsFeed] for one feed
    entry:
<<
  const html = await fetchText(it.url);
  const doc = new JSDOM(html).window.document;
  if (!hasTimestamp(doc)) continue;
  const article = doc.querySelector("article") || doc.body;
  const body = clean(article.textContent || "");
  if (!matcher(body + " " + it.title + " " + it.desc)) continue;
  const p = doc.querySelector("article p");
  const snippet = clean(p ? p.textContent : it.title);
  const meta = toISO(doc.querySelector("time[datetime]")?.getAttribute("datetime") || it.date);
  const src = sourceFrom(html) || sourceFrom(it.title);
  out.push({ title: clean(it.title), url: it.url, date: meta, source: src, snippet });
>> *)
Definition hydrateFeedItem {E : Engine} (matcher : Matcher) (it : FeedItem)
  : M (option Rumor) :=
  html <- fetchText (f_url it) ;;
  let doc := parseHTML html in
  if negb (hasTimestamp doc) then ret None
  else
    text <- articleBody doc ;;
    hit <- lift (matcher (text ++ js " " ++ f_title it ++ js " " ++ f_desc it)) ;;
    if negb hit then ret None
    else
      ret (Some
        {| r_title := clean (f_title it);
           r_url := f_url it;
           r_date := toISO (orElse (orEmptyOpt (datetimeAttr doc)) (f_date it));
           r_source := orElse (sourceFrom html) (sourceFrom (f_title it));
           r_snippet := snippetOr doc (f_title it) |}).

(** The [try] body of [fromSearchHTML] and [fromRumorsIndex] for one
    link:
<<
  const page = await fetchText(url);
  const doc2 = new JSDOM(page).window.document;
  if (!hasTimestamp(doc2)) continue;
  const article = doc2.querySelector("article") || doc2.body;
  const body = clean(article.textContent || "");
  if (!matcher(body)) continue;
  const title = clean(doc2.querySelector("h1, h2")?.textContent || "");
  const p = doc2.querySelector("article p");
  const snippet = clean(p ? p.textContent : title);
  const dateIso = toISO(doc2.querySelector("time[datetime]")?.getAttribute("datetime") || "");
  const src = sourceFrom(page) || sourceFrom(title);
  out.push({ title, url, date: dateIso, source: src, snippet });
>> *)
Definition hydrateLink {E : Engine} (matcher : Matcher) (u : jsstring)
  : M (option Rumor) :=
  page <- fetchText u ;;
  let doc := parseHTML page in
  if negb (hasTimestamp doc) then ret None
  else
    text <- articleBody doc ;;
    hit <- lift (matcher text) ;;
    if negb hit then ret None
    else
      let title := clean (headingText doc) in
      ret (Some
        {| r_title := title;
           r_url := u;
           r_date := toISO (orEmptyOpt (datetimeAttr doc));
           r_source := orElse (sourceFrom page) (sourceFrom title);
           r_snippet := snippetOr doc title |}).

Definition parseXMLM {E : Engine} (xml : jsstring) : M Node :=
  match parseXML xml with
  | Some doc => ret doc
  | None => throw (js "XML parse error")
  end.

(** [dbg[k] = n] *)
Definition dbgCount (k : string) (n : nat) : M unit :=
  modifyDbg (dbgSet (js k) (DNum (N.of_nat n))).

(** A) [fromSearchRSS(q, matcher, dbg)] *)
Definition fromSearchRSS {E : Engine} (qv : jsstring) (matcher : Matcher)
  : M (list Rumor) :=
  tryCatch
    (enc <- encodeM qv ;;
     xml <- fetchText (SEARCH_RSS enc) ;;
     doc <- parseXMLM xml ;;
     let items := feedItems doc in
     let candidates :=
       sortBy (cmpByDate f_date)
         (filter (fun x => includes (orEmpty (f_url x)) (js "/rumors/")
                           && negb (isRumorsLanding (f_url x))) items) in
     dbgCount "rssCount" (List.length items) ;;;
     dbgCount "rssRumorsCount" (List.length candidates) ;;;
     hydrateLoop (hydrateFeedItem matcher) candidates [])
    (fun _ => ret []).

(** The links of the search page:
    [[...doc.querySelectorAll("a")].map(a => a.getAttribute("href"))
       .filter(u => u && u.includes("/rumors/") && !isRumorsLanding(u))] *)
Definition rumorLinks {E : Engine} (doc : Node) : list jsstring :=
  filter (fun u => negb (falsy u) && includes u (js "/rumors/")
                   && negb (isRumorsLanding u))
         (map (fun a => orEmptyOpt (getAttribute (js "href") (attrsOf a)))
              (docQuerySelectorAll (tag1 "a") doc)).

(** [if (!url || seen.has(url)) continue; seen.add(url);] over the links,
    ahead of the hydration: the links that reach the [try]. *)
Fixpoint firstVisits (links : list jsstring) (seen : list jsstring)
  : list jsstring :=
  match links with
  | [] => []
  | u :: rest =>
      if falsy u || existsb (jsstring_eqb u) seen then firstVisits rest seen
      else u :: firstVisits rest (u :: seen)
  end.

(** B) [fromSearchHTML(q, matcher, dbg)] *)
Definition fromSearchHTML {E : Engine} (qv : jsstring) (matcher : Matcher)
  : M (list Rumor) :=
  tryCatch
    (enc <- encodeM qv ;;
     html <- fetchText (SEARCH_HTML enc) ;;
     let links := rumorLinks (parseHTML html) in
     dbgCount "searchLinks" (List.length links) ;;;
     out <- hydrateLoop (hydrateLink matcher) (firstVisits links []) [] ;;
     ret (slice 0 5 (sortBy (cmpByDate r_date) out)))
    (fun _ => ret []).

(** C) [fromRumorsFeed(q, matcher, dbg)]; its loop starts with
    [if (!it.url || isRumorsLanding(it.url)) continue;] *)
Definition fromRumorsFeed {E : Engine} (qv : jsstring) (matcher : Matcher)
  : M (list Rumor) :=
  tryCatch
    (xml <- fetchText RUMORS_FEED ;;
     doc <- parseXMLM xml ;;
     let items := feedItems doc in
     dbgCount "rumorsFeedCount" (List.length items) ;;;
     hydrateLoop (hydrateFeedItem matcher)
       (filter (fun it => negb (falsy (f_url it) || isRumorsLanding (f_url it)))
               items) [])
    (fun _ => ret []).

(** The links of one index page, added to those found so far:
<<
  for (const a of doc.querySelectorAll("article a")) {
    const href = a.getAttribute("href");
    if (!href || seen.has(href) || isRumorsLanding(href)) continue;
    seen.add(href);
    links.push(href);
    if (links.length >= 80) break;
  }
>> *)
Fixpoint addLinks {E : Engine} (hrefs : list jsstring) (links seen : list jsstring)
  : list jsstring * list jsstring :=
  match hrefs with
  | [] => (links, seen)
  | href :: rest =>
      if falsy href || existsb (jsstring_eqb href) seen || isRumorsLanding href
      then addLinks rest links seen
      else
        let links' := links ++ [href] in
        if (80 <=? List.length links')%nat then (links', href :: seen)
        else addLinks rest links' (href :: seen)
  end.

Fixpoint indexLinks {E : Engine} (pages : list jsstring) (links seen : list jsstring)
  : M (list jsstring) :=
  match pages with
  | [] => ret links
  | u :: more =>
      html <- fetchText u ;;
      let doc := parseHTML html in
      let hrefs :=
        map (fun a => orEmptyOpt (getAttribute (js "href") (attrsOf a)))
            (docQuerySelectorAll [[SelTag (js "article"); SelTag (js "a")]] doc) in
      let (links', seen') := addLinks hrefs links seen in
      if (80 <=? List.length links')%nat then ret links'
      else indexLinks more links' seen'
  end.

(** D) [fromRumorsIndex(q, matcher, dbg)] *)
Definition fromRumorsIndex {E : Engine} (qv : jsstring) (matcher : Matcher)
  : M (list Rumor) :=
  tryCatch
    (links <- indexLinks [RUMORS_INDEX; RUMORS_INDEX ++ js "page/2/";
                          RUMORS_INDEX ++ js "page/3/"] [] [] ;;
     dbgCount "indexLinks" (List.length links) ;;;
     out <- hydrateLoop (hydrateLink matcher) links [] ;;
     ret (slice 0 5 (sortBy (cmpByDate r_date) out)))
    (fun _ => ret []).

(** [if (!items.length) items = await next(...)] *)
Definition orTry (items : list Rumor) (next : M (list Rumor)) : M (list Rumor) :=
  match items with
  | [] => next
  | _ => ret items
  end.

(** [handler]:
<<
  const q = (event.queryStringParameters?.q || "").trim();
  const mode = (event.queryStringParameters?.mode || "player").toLowerCase();
  const debug = event.queryStringParameters?.debug === "1";
  if (!q) return json(400, { error: "Missing q" });
  const matcher = buildMatcher(q, mode);
  const dbg = {};
  let items = await fromSearchRSS(q, matcher, dbg);
  if (!items.length) items = await fromSearchHTML(q, matcher, dbg);
  if (!items.length) items = await fromRumorsFeed(q, matcher, dbg);
  if (!items.length) items = await fromRumorsIndex(q, matcher, dbg);
  return json(200, debug ? { subject: q, items, debug: dbg } : { subject: q, items });
>> *)
Definition handler {E : Engine} (event : Event) : M (HttpResponse Rumor) :=
  let qv := trim (orEmptyOpt (q event)) in
  let md := FeedIndex.modeOf event in
  let debug := debugFlag event in
  if falsy qv then ret (json 400 (ErrorBody (js "Missing q") None))
  else
    let matcher := buildMatcher qv md in
    modifyDbg (fun _ => []) ;;;
    items <- fromSearchRSS qv matcher ;;
    items <- orTry items (fromSearchHTML qv matcher) ;;
    items <- orTry items (fromRumorsFeed qv matcher) ;;
    items <- orTry items (fromRumorsIndex qv matcher) ;;
    d <- getDbg ;;
    ret (json 200 (ItemsBody qv items (if debug then Some d else None))).

End FourStrategies.

(* ================================================================== *)
(** * The link-crawl generation *)
(* ================================================================== *)

(** The generation that reads the article links off the first three
    pages of a tag and hydrates the articles until five have a date. *)
Module TagLinks.

Definition PREVIEW_ORIGIN : jsstring := js "https://preview.hoopshype.com".

(** [fetchText] is that of the four-strategy generation, word for
    word. *)
Definition fetchText : jsstring -> M jsstring := FourStrategies.fetchText.

(** The class the separator is read with in this generation: [-],
    U+00E2, U+20AC and U+201C. *)
Definition dashChars : list N := [45; 226; 8364; 8220].

(** The second expression of [sourceFrom], with the [i] flag, at the
    start of [s]: a code unit of the class, white space, a capture that
    runs to the end of the text. *)
Definition dashHere {E : Engine} (s : jsstring) : option jsstring :=
  match s with
  | d :: r =>
      if ciMember dashChars d then
        match dropWhile isWhiteSpace r with
        | c :: run =>
            if ciMember upperLetters c && negb (falsy run)
               && forallb (ciMember sourceChars) run
            then Some (c :: run) else None
        | [] => None
        end
      else None
  | [] => None
  end.

(** [sourceFrom]:
<<
  const via = /via\s+([A-Z][A-Za-z0-9 .'-]+)/i.exec(text);
  if (via) return via[1].trim();
  const dash = /[...]\s*([A-Z][A-Za-z0-9 .'-]+)\s*$/i.exec(text.trim());
  if (dash) return dash[1].trim();
  return "HoopsHype";
>> *)
Definition sourceFrom {E : Engine} (text : jsstring) : jsstring :=
  match firstMatch viaHere text with
  | Some g => trim g
  | None =>
      match firstMatch dashHere (trim text) with
      | Some g => trim g
      | None => js "HoopsHype"
      end
  end.

(** The links [readTagPage] keeps:
<<
  for (const a of doc.querySelectorAll("article a")) {
    const href = a.getAttribute("href");
    if (!href) continue;
    if (/\/rumors\//.test(href) && !/\/rumors\/tag\//.test(href)) links.push(href);
  }
>> *)
Definition isPostLink (href : jsstring) : bool :=
  negb (falsy href) && includes href (js "/rumors/")
  && negb (includes href (js "/rumors/tag/")).

Definition pageLinks (doc : Node) : list jsstring :=
  filter isPostLink
    (map (fun a => orEmptyOpt (getAttribute (js "href") (attrsOf a)))
         (docQuerySelectorAll [[SelTag (js "article"); SelTag (js "a")]] doc)).

Definition tagUrl (enc : jsstring) (pageNo : N) : jsstring :=
  PREVIEW_ORIGIN ++ js "/rumors/tag/" ++ enc ++ js "/"
  ++ (if 1 <? pageNo then js "page/" ++ decimal pageNo ++ js "/" else []).

(** [readTagPage(slug, pageNo, dbg)]:
<<
  const url = PREVIEW_ORIGIN + `/rumors/tag/${encodeURIComponent(slug)}/`
              + (pageNo > 1 ? `page/${pageNo}/` : "");
  const html = await fetchText(url);
  const doc = new JSDOM(html).window.document;
  (the links)
  dbg[`page${pageNo}Links`] = links.length;
  return links;
>> *)
Definition readTagPage {E : Engine} (slug : jsstring) (pageNo : N)
  : M (list jsstring) :=
  enc <- FourStrategies.encodeM slug ;;
  html <- fetchText (tagUrl enc pageNo) ;;
  let links := pageLinks (parseHTML html) in
  modifyDbg (dbgSet (js "page" ++ decimal pageNo ++ js "Links")
                    (DNum (N.of_nat (List.length links)))) ;;;
  ret links.

(** [hydrateArticle(url)]:
<<
  const html = await fetchText(url);
  const doc = new JSDOM(html).window.document;
  const timeEl = doc.querySelector("time[datetime]");
  const dateIso = toISO(timeEl?.getAttribute("datetime") || "");
  const title = clean(doc.querySelector("h1, h2")?.textContent || "") || "HoopsHype Rumor";
  const p = doc.querySelector("article p");
  const snippet = clean(p ? p.textContent : title);
  const src = sourceFrom(html) || sourceFrom(title);
  return { title, url, date: dateIso, source: src, snippet };
>> *)
Definition hydrateArticle {E : Engine} (u : jsstring) : M Rumor :=
  html <- fetchText u ;;
  let doc := parseHTML html in
  let title := orElse (clean (headingText doc)) (js "HoopsHype Rumor") in
  ret {| r_title := title;
         r_url := u;
         r_date := toISO (orEmptyOpt (datetimeAttr doc));
         r_source := orElse (sourceFrom html) (sourceFrom title);
         r_snippet := FourStrategies.snippetOr doc title |}.

(** [for (const u of pageLinks) if (!seen.has(u)) { seen.add(u); urls.push(u); }] *)
Fixpoint addUnseen (links urls seen : list jsstring)
  : list jsstring * list jsstring :=
  match links with
  | [] => (urls, seen)
  | u :: rest =>
      if existsb (jsstring_eqb u) seen then addUnseen rest urls seen
      else addUnseen rest (urls ++ [u]) (u :: seen)
  end.

(** The page loop of [getTopFiveFromPreviewTag]:
<<
  for (let page = 1; page <= 3; page++) {
    try {
      const pageLinks = await readTagPage(slug, page, dbg);
      for (const u of pageLinks) { ... }
      if (urls.length >= 30) break;
    } catch { break; }
  }
>> *)
Fixpoint collectLinks {E : Engine} (slug : jsstring) (pages : list N)
         (urls seen : list jsstring) : M (list jsstring) :=
  match pages with
  | [] => ret urls
  | page :: more =>
      got <- tryCatch (links <- readTagPage slug page ;; ret (Some links))
                      (fun _ => ret None) ;;
      match got with
      | None => ret urls
      | Some links =>
          let (urls', seen') := addUnseen links urls seen in
          if (30 <=? List.length urls')%nat then ret urls'
          else collectLinks slug more urls' seen'
      end
  end.

(** The [try] body of the hydration loop:
<<
  const art = await hydrateArticle(url);
  if (!art.date) continue;
  items.push(art);
>> *)
Definition datedArticle {E : Engine} (u : jsstring) : M (option Rumor) :=
  art <- hydrateArticle u ;;
  if falsy (r_date art) then ret None else ret (Some art).

(** [getTopFiveFromPreviewTag(q, dbg)]; its hydration loop is the loop of
    the four strategies ([try], push, [break] at five, empty [catch]). *)
Definition getTopFiveFromPreviewTag {E : Engine} (qv : jsstring)
  : M (list Rumor) :=
  let slug := slugifyTag qv in
  modifyDbg (dbgSet (js "slug") (DStr slug)) ;;;
  urls <- collectLinks slug [1; 2; 3] [] [] ;;
  modifyDbg (dbgSet (js "collectedLinks") (DNum (N.of_nat (List.length urls)))) ;;;
  items <- FourStrategies.hydrateLoop datedArticle urls [] ;;
  ret (slice 0 5 (sortBy (cmpByDate r_date) items)).

(** [handler]:
<<
  const q = (event.queryStringParameters?.q || "").trim();
  const debug = event.queryStringParameters?.debug === "1";
  if (!q) return json(400, { error: "Missing q" });
  const dbg = {};
  try {
    const items = await getTopFiveFromPreviewTag(q, dbg);
    return json(200, debug ? { subject: q, items, debug: dbg } : { subject: q, items });
  } catch (e) {
    return json(500, { error: e.message || "Unknown error", debug: dbg });
  }
>> *)
Definition handler {E : Engine} (event : Event) : M (HttpResponse Rumor) :=
  let qv := trim (orEmptyOpt (q event)) in
  let debug := debugFlag event in
  if falsy qv then ret (json 400 (ErrorBody (js "Missing q") None))
  else
    modifyDbg (fun _ => []) ;;;
    tryCatch
      (items <- getTopFiveFromPreviewTag qv ;;
       d <- getDbg ;;
       ret (json 200 (ItemsBody qv items (if debug then Some d else None))))
      (fun e =>
         d <- getDbg ;;
         ret (json 500 (ErrorBody (messageOr e) (Some d)))).

End TagLinks.

(* ================================================================== *)
(** * The tag crawl that reads dates from headings *)
(* ================================================================== *)

(** The generation in which only an [h2] or [h3] sets the date and only
    a [p] is an item. *)
Module TagHeadings.

(** The local table of [toISOFromHeading]:
<<
  const months = {
    january:1,february:2,march:3,april:4,may:5,june:6,
    july:7,august:8,september:9,october:10,november:11,december:12
  };
>> *)
Definition months : list (jsstring * N) :=
  [ (js "january", 1); (js "february", 2); (js "march", 3); (js "april", 4);
    (js "may", 5); (js "june", 6); (js "july", 7); (js "august", 8);
    (js "september", 9); (js "october", 10); (js "november", 11);
    (js "december", 12) ].

(** [toISOFromHeading]:
<<
  const m = /([A-Za-z]+)\s+(\d{1,2}),\s+(\d{4})/i.exec(h || "");
  if (!m) return "";
  const months = { ... };
  const mm = months[m[1].toLowerCase()];
  const dd = String(parseInt(m[2],10)).padStart(2,"0");
  const yy = m[3];
  return mm ? `${yy}-${String(mm).padStart(2,"0")}-${dd}` : "";
>>
    The [i] flag adds nothing to this expression.  Its letter class
    holds both cases of each letter, and the case folding of a regular
    expression without the [u] flag never takes a code unit from 128 on
    for one below 128; white space, digits and the comma have one case
    only.  So the expression is the one [dateExec] runs. *)
Definition toISOFromHeading {E : Engine} (h : jsstring) : jsstring :=
  match dateExec (orEmpty h) with
  | None => []
  | Some (m1, m2, m3) =>
      let dd := padStart2 (decimal (parseDigits m2)) in
      match objGet months (toLowerCase m1) with
      | Undefined => []
      | Own mm =>
          if mm =? 0 then []
          else m3 ++ js "-" ++ padStart2 (decimal mm) ++ js "-" ++ dd
      | Inherited name =>
          m3 ++ js "-" ++ padStart2 (inheritedToString name) ++ js "-" ++ dd
      end
  end.

(** [doc.querySelector("main") || doc.querySelector("#content") ||
    doc.querySelector(".content") || doc.body] *)
Definition container (doc : Node) : option Node :=
  match docQuerySelector (tag1 "main") doc with
  | Some c => Some c
  | None =>
  match docQuerySelector [[SelId (js "content")]] doc with
  | Some c => Some c
  | None =>
  match docQuerySelector [[SelClass (js "content")]] doc with
  | Some c => Some c
  | None => docBody doc
  end end end.

(** ["h1, h2, h3, p, div, article, section, ul, ol"] *)
Definition blockSelector : Selector :=
  map (fun t => [SelTag (js t)])
      ["h1"; "h2"; "h3"; "p"; "div"; "article"; "section"; "ul"; "ol"]%string.

(** The loop of [parseTagPage] over the blocks:
<<
  for (const el of blocks) {
    const tag = el.tagName.toLowerCase();
    if (tag === "h2" || tag === "h3") {
      const iso = toISOFromHeading(el.textContent || "");
      if (iso) { currentDateISO = iso; continue; }
    }
    if (tag === "p" && currentDateISO) {
      const text = clean(el.textContent || "");
      if (!text || text.length < 15) continue;
      ...
      out.push({ title: text, url, date: currentDateISO, source, snippet: text });
      if (out.length >= 60) break;
    }
  }
>>
    The object pushed is that of the plain crawl. *)
Fixpoint scanBlocks {E : Engine} (blocks : list Node)
         (currentDateISO : jsstring) (out : list Rumor) : list Rumor :=
  match blocks with
  | [] => out
  | el :: rest =>
      let tag := toLowerCase (tagName el) in
      let iso := toISOFromHeading (orEmpty (textContent el)) in
      if (jsstring_eqb tag (js "h2") || jsstring_eqb tag (js "h3"))
         && negb (falsy iso)
      then scanBlocks rest iso out
      else if jsstring_eqb tag (js "p") && negb (falsy currentDateISO)
      then
        let text := clean (orEmpty (textContent el)) in
        if falsy text || (List.length text <? 15)%nat
        then scanBlocks rest currentDateISO out
        else
          let out' := out ++ [TagPlain.blockRumor el text currentDateISO] in
          if (60 <=? List.length out')%nat then out'
          else scanBlocks rest currentDateISO out'
      else scanBlocks rest currentDateISO out
  end.

(** [parseTagPage(html, dbg)]:
<<
  const blocks = [...container.querySelectorAll("h1, h2, h3, p, div, article, section, ul, ol")];
  for (const el of blocks) { ... }
  dbg.parsedItemsOnPage = (dbg.parsedItemsOnPage || 0) + out.length;
  return out;
>> *)
Definition parseTagPage {E : Engine} (html : jsstring) : M (list Rumor) :=
  let doc := parseHTML html in
  match container doc with
  | None => throw (nullRead "querySelectorAll")
  | Some c =>
      let out := scanBlocks (querySelectorAll blockSelector c) [] [] in
      modifyDbg (fun d => dbgSet (js "parsedItemsOnPage")
        (DNum (dbgNum (js "parsedItemsOnPage") d + N.of_nat (List.length out))) d) ;;;
      ret out
  end.

(** The page loop of [collectFromTag]:
<<
  for (let page = 1; page <= 10; page++) {
    const url = PREVIEW_ORIGIN + `/rumors/tag/${encodeURIComponent(slug)}/`
                + (page > 1 ? `page/${page}/` : "");
    let html = "";
    try { html = await fetchText(url); }
    catch (e) { dbg[`page${page}Error`] = String(e.message || e); break; }
    const items = parseTagPage(html, dbg);
    for (const it of items) {
      const key = `${it.date}::${it.title.slice(0,80)}::${it.url}`;
      if (seen.has(key)) continue;
      seen.add(key);
      collected.push(it);
    }
    if (collected.length >= 120) break;
  }
>> *)
Fixpoint collectPages {E : Engine} (slug : jsstring) (pages : list N)
         (collected : list Rumor) (seen : list jsstring) : M (list Rumor) :=
  match pages with
  | [] => ret collected
  | page :: more =>
      match encodeURIComponent slug with
      | None => throw (js "URI malformed")
      | Some enc =>
          got <- tryCatch
                   (html <- fetchText (pageUrl enc page) ;; ret (Some html))
                   (fun e =>
                      modifyDbg (dbgSet (js "page" ++ decimal page ++ js "Error")
                                        (DStr (errorText e))) ;;;
                      ret None) ;;
          match got with
          | None => ret collected
          | Some html =>
              items <- parseTagPage html ;;
              let (collected', seen') :=
                addNew TagPlain.rumorKey items collected seen in
              if (120 <=? List.length collected')%nat then ret collected'
              else collectPages slug more collected' seen'
          end
      end
  end.

(** [collectFromTag(slug, dbg)]:
<<
  (the page loop)
  collected.sort((a,b) => (b.date||"") > (a.date||"") ? 1 : -1);
  const top5 = collected.filter(x => x.url).slice(0,5);
  dbg.totalCollected = collected.length;
  dbg.returning = top5.length;
  return top5;
>> *)
Definition collectFromTag {E : Engine} (slug : jsstring) : M (list Rumor) :=
  collected <- collectPages slug [1; 2; 3; 4; 5; 6; 7; 8; 9; 10] [] [] ;;
  let sorted := sortBy (cmpByDate r_date) collected in
  let top5 := slice 0 5 (filter (fun x => negb (falsy (r_url x))) sorted) in
  modifyDbg (dbgSet (js "totalCollected") (DNum (N.of_nat (List.length sorted)))) ;;;
  modifyDbg (dbgSet (js "returning") (DNum (N.of_nat (List.length top5)))) ;;;
  ret top5.

(** [handler]:
<<
  const q = (event.queryStringParameters?.q || "").trim();
  const debug = event.queryStringParameters?.debug === "1";
  if (!q) return json(400, { error: "Missing q" });
  const slug = slugify(q);
  const dbg = { slug };
  try {
    const items = await collectFromTag(slug, dbg);
    return json(200, debug ? { subject: q, items, debug: dbg } : { subject: q, items });
  } catch (e) {
    return json(500, { error: e.message || "Unknown error", debug: dbg });
  }
>> *)
Definition handler {E : Engine} (event : Event) : M (HttpResponse Rumor) :=
  let qv := trim (orEmptyOpt (q event)) in
  let debug := debugFlag event in
  if falsy qv then ret (json 400 (ErrorBody (js "Missing q") None))
  else
    let slug := slugify qv in
    modifyDbg (fun _ => [(js "slug", DStr slug)]) ;;;
    tryCatch
      (items <- collectFromTag slug ;;
       d <- getDbg ;;
       ret (json 200 (ItemsBody qv items (if debug then Some d else None))))
      (fun e =>
         d <- getDbg ;;
         ret (json 500 (ErrorBody (messageOr e) (Some d)))).

End TagHeadings.

(* ================================================================== *)
(** * The generation that asks the REST interface *)
(* ================================================================== *)

(** The request helper of the generation that reads the posts of a tag
    from the WordPress REST interface. *)
Module RestApi.

Definition PREVIEW_API_HTTP : jsstring :=
  js "http://preview.hoopshype.com/wp-json/wp/v2".
Definition PREVIEW_API_HTTPS : jsstring :=
  js "https://preview.hoopshype.com/wp-json/wp/v2".

(** [s.replace(pat, rep)] for a string [pat] and a replacement without
    [$]: the first occurrence of [pat] becomes [rep]. *)
Fixpoint replaceFirst (pat rep s : jsstring) : jsstring :=
  if isPrefixOf pat s then rep ++ skipn (List.length pat) s
  else
    match s with
    | [] => []
    | c :: r => c :: replaceFirst pat rep r
    end.

Section FetchJSON.

(** The values of parsed JSON, and [res.json()]: the parsed body, or the
    error of the parser. *)
Variable J : Type.
Variable parseJSON : jsstring -> Result J.

(** The [try] body of [fetchJSON]:
<<
  const res = await fetch(u, { headers: BASE_HEADERS });
  if (!res.ok) throw new Error(`HTTP ${res.status}`);
  return await res.json();
>> *)
Definition attempt (u : jsstring) : M J :=
  res <- fetch u ;;
  if negb (ok res) then throw (js "HTTP " ++ decimal (status res))
  else lift (parseJSON (body res)).

(** The loop of [fetchJSON]:
<<
  for (const base of [PREVIEW_API_HTTP, PREVIEW_API_HTTPS]) {
    const u = url.replace("__BASE__", base);
    try { ... } catch { }
  }
  throw new Error("All preview API fetch attempts failed");
>> *)
Fixpoint tryBases (url : jsstring) (bases : list jsstring) : M J :=
  match bases with
  | [] => throw (js "All preview API fetch attempts failed")
  | base :: more =>
      got <- tryCatch
               (v <- attempt (replaceFirst (js "__BASE__") base url) ;;
                ret (Some v))
               (fun _ => ret None) ;;
      match got with
      | Some v => ret v
      | None => tryBases url more
      end
  end.

Definition fetchJSON (url : jsstring) : M J :=
  tryBases url [PREVIEW_API_HTTP; PREVIEW_API_HTTPS].

End FetchJSON.

End RestApi.


(* ****************************************************************** *)
(** * Properties *)
(* ****************************************************************** *)

(** ** A reference engine

    Case mapping and normalisation that act on ASCII only, a [Date] that
    parses nothing, a parser that returns an empty document.  It shows
    that the facts [Engine] asks for can be met together, and gives the
    closed examples something to run on. *)
Definition asciiEngine : Engine.
Proof.
  refine {| normalizeNFD := fun s => s;
            toLowerCase := map asciiLower;
            canonicalize := fun c => if isLower c then c - 32 else c;
            dateParse := fun _ => None;
            toISOString := fun _ => [];
            encodeURIComponent := fun s => Some s;
            parseHTML := fun _ => Element (js "html") [] [];
            parseXML := fun _ => None;
            hrefProperty := fun h => h |}.
  - reflexivity.
  - reflexivity.
  - intros u w v _. exists (map asciiLower u), (map asciiLower v).
    now rewrite !map_app.
Defined.

(* ================================================================== *)
(** ** Strings *)
(* ================================================================== *)

#[local] Arguments N.eqb : simpl never.
#[local] Arguments N.leb : simpl never.
#[local] Arguments N.ltb : simpl never.
#[local] Arguments N.add : simpl never.
#[local] Arguments N.sub : simpl never.
#[local] Arguments N.mul : simpl never.

(** Case analysis on the comparisons of code units in sight. *)
Ltac code_units :=
  repeat match goal with
  | H : context [N.leb ?a ?b] |- _ => destruct (N.leb_spec a b)
  | H : context [N.eqb ?a ?b] |- _ => destruct (N.eqb_spec a b)
  | H : context [N.ltb ?a ?b] |- _ => destruct (N.ltb_spec a b)
  | |- context [N.leb ?a ?b] => destruct (N.leb_spec a b)
  | |- context [N.eqb ?a ?b] => destruct (N.eqb_spec a b)
  | |- context [N.ltb ?a ?b] => destruct (N.ltb_spec a b)
  end;
  simpl in *; try (discriminate || reflexivity || lia).

(** Settles each comparison in the goal that the bounds in the context
    decide. *)
Ltac settle_cmp :=
  repeat match goal with
  | |- context [N.leb ?a ?b] =>
      first [ rewrite (proj2 (N.leb_le a b)) by lia
            | rewrite (proj2 (N.leb_gt a b)) by lia ]
  | |- context [N.eqb ?a ?b] =>
      first [ rewrite (proj2 (N.eqb_eq a b)) by lia
            | rewrite (proj2 (N.eqb_neq a b)) by lia ]
  | |- context [N.ltb ?a ?b] =>
      first [ rewrite (proj2 (N.ltb_lt a b)) by lia
            | rewrite (proj2 (N.ltb_ge a b)) by lia ]
  end.

Lemma jsstring_eqb_eq a b : jsstring_eqb a b = true <-> a = b.
Proof.
  unfold jsstring_eqb. destruct (list_eq_dec N.eq_dec a b); split; congruence.
Qed.

Lemma jsstring_eqb_refl a : jsstring_eqb a a = true.
Proof. now apply jsstring_eqb_eq. Qed.

Lemma jsstring_eqb_neq a b : jsstring_eqb a b = false <-> a <> b.
Proof.
  unfold jsstring_eqb. destruct (list_eq_dec N.eq_dec a b); split; congruence.
Qed.

Lemma replaceRuns_none p rep b s :
  forallb (fun c => negb (p c)) s = true -> replaceRuns p rep b s = s.
Proof.
  revert b. induction s as [|c r IH]; intros b H; simpl in *; [reflexivity|].
  apply andb_true_iff in H as [Hc Hr].
  destruct (p c); [discriminate|]. now rewrite IH.
Qed.

Lemma replaceEach_none p rep s :
  forallb (fun c => negb (p c)) s = true -> replaceEach p rep s = s.
Proof.
  unfold replaceEach.
  induction s as [|c r IH]; intros H; simpl in *; [reflexivity|].
  apply andb_true_iff in H as [Hc Hr].
  destruct (p c); [discriminate|]. simpl. now rewrite IH.
Qed.

Lemma dropWhile_head p c r : p c = false -> dropWhile p (c :: r) = c :: r.
Proof. intros H. simpl. now rewrite H. Qed.

Lemma dropWhileEnd_none p s :
  forallb (fun c => negb (p c)) s = true -> dropWhileEnd p s = s.
Proof.
  induction s as [|c r IH]; intros H; simpl in *; [reflexivity|].
  apply andb_true_iff in H as [Hc Hr]. rewrite (IH Hr).
  destruct r; [|reflexivity]. now destruct (p c).
Qed.

Lemma dropWhile_none p s :
  forallb (fun c => negb (p c)) s = true -> dropWhile p s = s.
Proof.
  destruct s as [|c r]; intros H; simpl in *; [reflexivity|].
  apply andb_true_iff in H as [Hc _]. now destruct (p c).
Qed.

Lemma forallb_impl {A : Type} (f g : A -> bool) l :
  (forall x, f x = true -> g x = true) ->
  forallb f l = true -> forallb g l = true.
Proof.
  intros H. induction l as [|x l IH]; simpl; [reflexivity|].
  intros Hl. apply andb_true_iff in Hl as [Hx Hl].
  now rewrite (H _ Hx), IH.
Qed.

(** What [dropWhileEnd] returns starts like its argument. *)
Lemma dropWhileEnd_head p s c r :
  dropWhileEnd p s = c :: r -> exists r0, s = c :: r0.
Proof.
  destruct s as [|c0 r0]; simpl; [discriminate|].
  destruct (dropWhileEnd p r0); [destruct (p c0)|]; intros H;
    inversion H; subst; eauto.
Qed.

(* ================================================================== *)
(** ** [slugify] *)
(* ================================================================== *)

(** The code units a slug is made of: [[a-z0-9_]]. *)
Definition isSlugChar (c : N) : bool := isSlugAlnum c || (c =? 95).

(** What may follow an alphanumeric code unit of a slug: more of them,
    or one underscore with an alphanumeric code unit behind it. *)
Fixpoint slugTail (s : jsstring) : bool :=
  match s with
  | [] => true
  | c :: r =>
      if isSlugAlnum c then slugTail r
      else (c =? 95)
           && match r with d :: _ => isSlugAlnum d | [] => false end
           && slugTail r
  end.

(** A slug: empty, or runs of [[a-z0-9]] joined by single underscores. *)
Definition isSlug (s : jsstring) : bool :=
  match s with
  | [] => true
  | c :: r => isSlugAlnum c && slugTail r
  end.

Fixpoint noDoubleUnderscore (s : jsstring) : bool :=
  match s with
  | c :: r =>
      match r with
      | d :: _ => negb ((c =? 95) && (d =? 95)) && noDoubleUnderscore r
      | [] => true
      end
  | [] => true
  end.

Definition notUnderscoreFirst (s : jsstring) : bool :=
  match s with c :: _ => negb (c =? 95) | [] => true end.

Definition nonAlnum (c : N) : bool := negb (isSlugAlnum c).

Lemma isSlugAlnum_not95 c : isSlugAlnum c = true -> (c =? 95) = false.
Proof.
  unfold isSlugAlnum, isLower, isDigit. intros H. code_units.
Qed.

Lemma underscoreRuns_shape s b :
  forallb isSlugChar (replaceRuns nonAlnum (js "_") b s) = true
  /\ noDoubleUnderscore (replaceRuns nonAlnum (js "_") b s) = true
  /\ (b = true -> notUnderscoreFirst (replaceRuns nonAlnum (js "_") b s) = true).
Proof.
  revert b. induction s as [|c r IH]; intros b.
  - now repeat split.
  - cbn [replaceRuns].
    destruct (isSlugAlnum c) eqn:Hc.
    + assert (Hn : nonAlnum c = false) by (unfold nonAlnum; now rewrite Hc).
      rewrite Hn.
      destruct (IH false) as (H1 & H2 & _).
      pose proof (isSlugAlnum_not95 _ Hc) as H95.
      repeat split.
      * cbn [forallb]. unfold isSlugChar at 1. now rewrite Hc, H1.
      * cbn [noDoubleUnderscore].
        destruct (replaceRuns nonAlnum (js "_") false r); [reflexivity|].
        rewrite H95. exact H2.
      * intros _. unfold notUnderscoreFirst. now rewrite H95.
    + assert (Hn : nonAlnum c = true) by (unfold nonAlnum; now rewrite Hc).
      rewrite Hn.
      destruct (IH true) as (H1 & H2 & H3). specialize (H3 eq_refl).
      destruct b; [now repeat split|].
      change (js "_" ++ replaceRuns nonAlnum (js "_") true r)
        with (95 :: replaceRuns nonAlnum (js "_") true r).
      repeat split; try discriminate.
      * cbn [forallb]. now rewrite H1.
      * cbn [noDoubleUnderscore].
        destruct (replaceRuns nonAlnum (js "_") true r) eqn:Hr; [reflexivity|].
        unfold notUnderscoreFirst in H3. apply negb_true_iff in H3.
        rewrite H3, andb_false_r. exact H2.
Qed.
Lemma dropWhile_shape s :
  forallb isSlugChar s = true -> noDoubleUnderscore s = true ->
  forallb isSlugChar (dropWhile (N.eqb 95) s) = true
  /\ noDoubleUnderscore (dropWhile (N.eqb 95) s) = true
  /\ notUnderscoreFirst (dropWhile (N.eqb 95) s) = true.
Proof.
  induction s as [|c r IH]; intros H1 H2; [now repeat split|].
  simpl. destruct (95 =? c) eqn:Hc.
  - simpl in H1. apply andb_true_iff in H1 as [_ H1].
    apply IH; [exact H1|]. simpl in H2. destruct r; [reflexivity|].
    now apply andb_true_iff in H2 as [_ H2].
  - repeat split; try assumption. simpl. now rewrite N.eqb_sym, Hc.
Qed.

Lemma dropWhileEnd_slugTail s :
  forallb isSlugChar s = true -> noDoubleUnderscore s = true ->
  slugTail (dropWhileEnd (N.eqb 95) s) = true.
Proof.
  induction s as [|c r IH]; intros H1 H2; [reflexivity|].
  simpl in H1. apply andb_true_iff in H1 as [Hc H1].
  assert (Hr : noDoubleUnderscore r = true).
  { simpl in H2. destruct r; [reflexivity|].
    now apply andb_true_iff in H2 as [_ H2]. }
  specialize (IH H1 Hr). simpl.
  destruct (dropWhileEnd (N.eqb 95) r) as [|d r'] eqn:Hd.
  - destruct (95 =? c) eqn:E95; [reflexivity|]. simpl.
    unfold isSlugChar in Hc. rewrite N.eqb_sym, E95, orb_false_r in Hc.
    now rewrite Hc.
  - change (slugTail (c :: d :: r'))
      with (if isSlugAlnum c then slugTail (d :: r')
            else (c =? 95) && isSlugAlnum d && slugTail (d :: r')).
    destruct (isSlugAlnum c) eqn:Ha; [exact IH|].
    unfold isSlugChar in Hc. rewrite Ha in Hc. simpl in Hc. rewrite Hc, IH.
    destruct (dropWhileEnd_head _ _ Hd) as [r0 ->].
    cbn [noDoubleUnderscore] in H2. rewrite Hc in H2.
    apply andb_true_iff in H2 as [H2 _]. apply negb_true_iff in H2.
    cbn [forallb] in H1. apply andb_true_iff in H1 as [H1 _].
    unfold isSlugChar in H1. simpl in H2. rewrite H2, orb_false_r in H1.
    now rewrite H1.
Qed.

Lemma dropWhileEnd_keeps_first p c r :
  p c = false -> exists r', dropWhileEnd p (c :: r) = c :: r'.
Proof.
  intros H. simpl. destruct (dropWhileEnd p r); rewrite ?H; eauto.
Qed.

Lemma dropWhileEnd_cons p c r :
  dropWhileEnd p (c :: r)
  = match dropWhileEnd p r with
    | [] => if p c then [] else [c]
    | r' => c :: r'
    end.
Proof. reflexivity. Qed.

Lemma dropWhileEnd_cons_keep p c r :
  p c = false -> dropWhileEnd p (c :: r) = c :: dropWhileEnd p r.
Proof. intros H. simpl. destruct (dropWhileEnd p r); now rewrite ?H. Qed.

Lemma noDoubleUnderscore_tail c r :
  noDoubleUnderscore (c :: r) = true -> noDoubleUnderscore r = true.
Proof.
  cbn [noDoubleUnderscore]. destruct r; [reflexivity|].
  intros H. now apply andb_true_iff in H as [_ H].
Qed.

(** The last two steps of [slugify] always leave a slug. *)
Lemma underscores_isSlug s :
  isSlug (dropWhileEnd (N.eqb 95) (dropWhile (N.eqb 95)
            (replaceRuns nonAlnum (js "_") false s))) = true.
Proof.
  destruct (underscoreRuns_shape s false) as (H1 & H2 & _).
  destruct (dropWhile_shape _ H1 H2) as (D1 & D2 & D3).
  destruct (dropWhile (N.eqb 95) (replaceRuns nonAlnum (js "_") false s))
    as [|c r]; [reflexivity|].
  unfold notUnderscoreFirst in D3. apply negb_true_iff in D3.
  cbn [forallb] in D1. apply andb_true_iff in D1 as [Dc D1].
  unfold isSlugChar in Dc. rewrite D3, orb_false_r in Dc.
  rewrite dropWhileEnd_cons_keep by now rewrite N.eqb_sym.
  cbn [isSlug]. rewrite Dc. simpl.
  apply dropWhileEnd_slugTail; [exact D1|].
  now apply noDoubleUnderscore_tail in D2.
Qed.

Lemma slugify_isSlug {E : Engine} x : isSlug (slugify x) = true.
Proof. unfold slugify. apply underscores_isSlug. Qed.

Lemma slugTail_chars r : slugTail r = true -> forallb isSlugChar r = true.
Proof.
  induction r as [|c r IH]; [reflexivity|].
  cbn [slugTail forallb]. unfold isSlugChar at 1.
  destruct (isSlugAlnum c); simpl.
  - exact IH.
  - intros H. apply andb_true_iff in H as [H Hr].
    apply andb_true_iff in H as [H _]. now rewrite H, IH.
Qed.

Lemma isSlug_chars s : isSlug s = true -> forallb isSlugChar s = true.
Proof.
  destruct s as [|c r]; [reflexivity|]. cbn [isSlug forallb].
  intros H. apply andb_true_iff in H as [Hc Hr].
  unfold isSlugChar at 1. now rewrite Hc, (slugTail_chars _ Hr).
Qed.

Lemma runs_head_keep p rep b c r :
  p c = false -> replaceRuns p rep b (c :: r) = c :: replaceRuns p rep false r.
Proof. intros H. cbn [replaceRuns]. now rewrite H. Qed.

Lemma runs_head_start p rep c r :
  p c = true ->
  replaceRuns p rep false (c :: r) = rep ++ replaceRuns p rep true r.
Proof. intros H. cbn [replaceRuns]. now rewrite H. Qed.

Lemma slugTail_runs r :
  slugTail r = true -> replaceRuns nonAlnum (js "_") false r = r.
Proof.
  induction r as [|c r IH]; [reflexivity|].
  cbn [slugTail]. destruct (isSlugAlnum c) eqn:Hc.
  - intros H. rewrite runs_head_keep by (unfold nonAlnum; now rewrite Hc).
    now rewrite IH.
  - intros H. apply andb_true_iff in H as [H Hr].
    apply andb_true_iff in H as [H95 Hd]. apply N.eqb_eq in H95. subst c.
    destruct r as [|d r']; [discriminate|].
    rewrite runs_head_start by (unfold nonAlnum; now rewrite Hc).
    specialize (IH Hr).
    rewrite runs_head_keep in IH |- * by (unfold nonAlnum; now rewrite Hd).
    exact (f_equal (cons 95) IH).
Qed.

Lemma slugTail_dropWhileEnd r :
  slugTail r = true -> dropWhileEnd (N.eqb 95) r = r.
Proof.
  induction r as [|c r IH]; [reflexivity|].
  cbn [slugTail]. destruct (isSlugAlnum c) eqn:Hc.
  - intros H. rewrite dropWhileEnd_cons_keep, IH; auto.
    rewrite N.eqb_sym. now apply isSlugAlnum_not95.
  - intros H. apply andb_true_iff in H as [H Hr].
    apply andb_true_iff in H as [_ Hd].
    destruct r as [|d r']; [discriminate|].
    now rewrite dropWhileEnd_cons, (IH Hr).
Qed.

Lemma slug_char_facts c :
  isSlugChar c = true ->
  isWhiteSpace c = false /\ isAscii c = true /\ isCombiningMark c = false
  /\ asciiLower c = c /\ (38 =? c) = false.
Proof.
  intros H.
  assert (R : (97 <= c <= 122) \/ (48 <= c <= 57) \/ c = 95).
  { revert H. unfold isSlugChar, isSlugAlnum, isLower, isDigit. intros H.
    code_units. }
  unfold isWhiteSpace, isAscii, isCombiningMark, asciiLower, isUpper.
  destruct R as [R|[R|R]]; repeat split; settle_cmp; reflexivity.
Qed.

(** [slugify] leaves a slug as it is. *)
Lemma slugify_fixes_slug {E : Engine} s : isSlug s = true -> slugify s = s.
Proof.
  intros Hs. pose proof (isSlug_chars _ Hs) as Hc.
  assert (F : forall (f : N -> bool),
             (forall c, isSlugChar c = true -> f c = true) ->
             forallb f s = true).
  { intros f Hf. now apply (forallb_impl isSlugChar). }
  assert (Hclean : clean s = s).
  { unfold clean, trim. replace (orEmpty s) with s by now destruct s.
    assert (W : forallb (fun c => negb (isWhiteSpace c)) s = true).
    { apply F. intros c H. now destruct (slug_char_facts _ H) as (-> & _). }
    now rewrite (replaceRuns_none _ _ _ _ W), (dropWhile_none _ _ W),
      (dropWhileEnd_none _ _ W). }
  unfold slugify. rewrite Hclean.
  rewrite normalizeNFD_ascii
    by (apply F; intros c H; now destruct (slug_char_facts _ H) as (_ & -> & _)).
  rewrite (replaceEach_none isCombiningMark)
    by (apply F; intros c H; now destruct (slug_char_facts _ H) as (_ & _ & -> & _)).
  rewrite toLowerCase_ascii
    by (apply F; intros c H; now destruct (slug_char_facts _ H) as (_ & -> & _)).
  replace (map asciiLower s) with s.
  2:{ clear - Hc. induction s as [|c r IH]; [reflexivity|].
      cbn [forallb] in Hc. apply andb_true_iff in Hc as [H1 H2].
      cbn [map]. destruct (slug_char_facts _ H1) as (_ & _ & _ & -> & _).
      now rewrite <- IH. }
  rewrite replaceEach_none
    by (apply F; intros c H; now destruct (slug_char_facts _ H) as (_ & _ & _ & _ & ->)).
  change (fun c => negb (isSlugAlnum c)) with nonAlnum.
  destruct s as [|c r]; [reflexivity|].
  cbn [isSlug] in Hs. apply andb_true_iff in Hs as [Ha Hr].
  rewrite runs_head_keep by (unfold nonAlnum; now rewrite Ha).
  rewrite (slugTail_runs _ Hr).
  pose proof (isSlugAlnum_not95 _ Ha) as H95. rewrite N.eqb_sym in H95.
  rewrite dropWhile_head by exact H95.
  rewrite dropWhileEnd_cons_keep by exact H95.
  now rewrite (slugTail_dropWhileEnd _ Hr).
Qed.

(** [slugify] on a subject whose cleaned text is ASCII, the engine's part
    spelled out. *)
Definition slugifyAscii (x : jsstring) : jsstring :=
  dropWhileEnd (N.eqb 95) (dropWhile (N.eqb 95)
    (replaceRuns nonAlnum (js "_") false
       (replaceEach (N.eqb 38) (js " and ") (map asciiLower (clean x))))).

Lemma slugify_on_ascii {E : Engine} x :
  forallb isAscii (clean x) = true -> slugify x = slugifyAscii x.
Proof.
  intros H. unfold slugify, slugifyAscii.
  rewrite normalizeNFD_ascii by exact H.
  rewrite (replaceEach_none isCombiningMark).
  - now rewrite toLowerCase_ascii by exact H.
  - revert H. apply forallb_impl. intros c.
    unfold isAscii, isCombiningMark. intros Hc. code_units.
Qed.

(** C6.  [slugify] is idempotent: applying it to a slug it produced gives
    the same slug; and ["New York Knicks"] becomes ["new_york_knicks"],
    ["76ers"] stays ["76ers"]. *)
Theorem slugify_idempotent (E : Engine) :
  (forall x, slugify (slugify x) = slugify x)
  /\ slugify (js "New York Knicks") = js "new_york_knicks"
  /\ slugify (js "76ers") = js "76ers".
Proof.
  split; [|split].
  - intros x. apply slugify_fixes_slug, slugify_isSlug.
  - now rewrite slugify_on_ascii by now vm_compute.
  - now rewrite slugify_on_ascii by now vm_compute.
Qed.

(* ================================================================== *)
(** ** Dates *)
(* ================================================================== *)

Lemma span_spec p s a b :
  span p s = (a, b) -> s = a ++ b /\ forallb p a = true.
Proof.
  revert a b. induction s as [|c r IH]; intros a b; cbn [span].
  - intros H. inversion H. now split.
  - destruct (p c) eqn:Hc.
    + destruct (span p r) as [a' b'] eqn:Hs. intros H. inversion H; subst.
      destruct (IH _ _ eq_refl) as [-> Ha]. split; [reflexivity|].
      cbn [forallb]. now rewrite Hc.
    + intros H. inversion H. now split.
Qed.

Lemma firstMatch_some {A : Type} (here : jsstring -> option A) s m :
  firstMatch here s = Some m -> exists u v, s = u ++ v /\ here v = Some m.
Proof.
  induction s as [|c r IH]; cbn [firstMatch].
  - destruct (here []) eqn:H; [|discriminate]. intros [= <-]. now exists [], [].
  - destruct (here (c :: r)) eqn:H.
    + intros [= <-]. now exists [], (c :: r).
    + intros Hr. destruct (IH Hr) as (u & v & -> & Hv). now exists (c :: u), v.
Qed.

(** What the three groups of a match look like: letters; one or two
    digits; four digits. *)
Definition dateGroupsOk (m : jsstring * jsstring * jsstring) : Prop :=
  let '(m1, m2, m3) := m in
  (m1 <> [] /\ forallb isLetter m1 = true)
  /\ (forallb isDigit m2 = true /\ (List.length m2 = 1 \/ List.length m2 = 2)%nat)
  /\ (forallb isDigit m3 = true /\ List.length m3 = 4%nat).

Lemma dateAfterDay_groups m1 m2 rest m :
  dateAfterDay m1 m2 rest = Some m -> exists m3,
    m = (m1, m2, m3) /\ forallb isDigit m3 = true /\ List.length m3 = 4%nat.
Proof.
  unfold dateAfterDay. destruct (span isWhiteSpace rest) as [[|w ws] r].
  - discriminate.
  - destruct r as [|y1 [|y2 [|y3 [|y4 r]]]]; try discriminate.
    destruct (forallb isDigit [y1; y2; y3; y4]) eqn:Hd; [|discriminate].
    intros [= <-]. eauto.
Qed.

Lemma dateHere_groups s m : dateHere s = Some m -> dateGroupsOk m.
Proof.
  unfold dateHere. destruct (span isLetter s) as [[|l ls] r1] eqn:Hs;
    [discriminate|].
  apply span_spec in Hs as [_ Hl].
  destruct (span isWhiteSpace r1) as [[|w ws] r2]; [discriminate|].
  destruct r2 as [|d1 r2]; [discriminate|].
  destruct r2 as [|d2 r2]; [discriminate|].
  destruct (N.eq_dec d2 44) as [->|Hne].
  - destruct (isDigit d1) eqn:H1; [|discriminate]. intros H.
    apply dateAfterDay_groups in H as (m3 & -> & H3 & L3).
    repeat split; try assumption; try discriminate.
    + cbn [forallb]. now rewrite H1.
    + now left.
  - assert (Hcase :
      match r2 with
      | 44 :: r3 => if isDigit d1 && isDigit d2 then dateAfterDay (l :: ls) [d1; d2] r3 else None
      | _ => None
      end = Some m -> dateGroupsOk m).
    { destruct r2 as [|c r3]; [discriminate|].
      destruct (N.eq_dec c 44) as [->|Hc].
      - destruct (isDigit d1 && isDigit d2) eqn:H12; [|discriminate].
        intros H. apply dateAfterDay_groups in H as (m3 & -> & H3 & L3).
        repeat split; try assumption; try discriminate.
        + cbn [forallb]. now rewrite andb_true_r.
        + now right.
      - destruct c as [|p]; try discriminate.
        do 6 (destruct p as [p|p|]; try discriminate); congruence. }
    intros H. apply Hcase. rewrite <- H. clear - Hne.
    destruct d2 as [|p]; [reflexivity|].
    do 6 (destruct p as [p|p|]; try reflexivity). congruence.
Qed.

Lemma dateExec_groups s m : dateExec s = Some m -> dateGroupsOk m.
Proof.
  intros H. apply firstMatch_some in H as (u & v & _ & H).
  now apply dateHere_groups in H.
Qed.

Lemma letters_ascii m : forallb isLetter m = true -> forallb isAscii m = true.
Proof.
  apply forallb_impl. intros c. unfold isLetter, isLower, isUpper, isAscii.
  intros H. code_units.
Qed.

Lemma letters_lowered m :
  forallb isLetter m = true -> forallb isLower (map asciiLower m) = true.
Proof.
  induction m as [|c r IH]; [reflexivity|]. cbn [forallb map].
  intros H. apply andb_true_iff in H as [Hc Hr]. rewrite (IH Hr), andb_true_r.
  assert (R : (97 <= c <= 122) \/ (65 <= c <= 90)).
  { revert Hc. unfold isLetter, isLower, isUpper. intros Hc. code_units. }
  unfold isLower, asciiLower, isUpper.
  destruct R as [R|R]; settle_cmp; cbn [andb]; settle_cmp; reflexivity.
Qed.

Lemma assoc_In {V : Type} k (l : list (jsstring * V)) v :
  assoc k l = Some v -> In v (map snd l).
Proof.
  induction l as [|[k' v'] l IH]; cbn [assoc map snd]; [discriminate|].
  destruct (jsstring_eqb k' k).
  - intros [= ->]. now left.
  - intros H. right. now apply IH.
Qed.

(** [extractISODate] with the engine's lower-casing spelled out: the
    month word is made of ASCII letters. *)
Definition isoFromMatch (m : jsstring * jsstring * jsstring) : jsstring :=
  let '(m1, m2, m3) := m in
  let dd := padStart2 (decimal (parseDigits m2)) in
  match objGet MONTHS (map asciiLower m1) with
  | Undefined => []
  | Own mm =>
      if mm =? 0 then []
      else m3 ++ js "-" ++ padStart2 (decimal mm) ++ js "-" ++ dd
  | Inherited name =>
      m3 ++ js "-" ++ padStart2 (inheritedToString name) ++ js "-" ++ dd
  end.

Lemma extractISODate_unfold {E : Engine} txt :
  extractISODate txt
  = match dateExec (orEmpty txt) with
    | None => []
    | Some m => isoFromMatch m
    end.
Proof.
  unfold extractISODate. destruct (dateExec (orEmpty txt)) as [[[m1 m2] m3]|] eqn:H;
    [|reflexivity].
  apply dateExec_groups in H as ((_ & H1) & _).
  unfold isoFromMatch. now rewrite toLowerCase_ascii by now apply letters_ascii.
Qed.

(** The shape [YYYY-MM-DD] with a month from 01 to 12. *)
Definition isoShaped (s : jsstring) : bool :=
  match s with
  | [y1; y2; y3; y4; 45; m1; m2; 45; d1; d2] =>
      forallb isDigit [y1; y2; y3; y4; m1; m2; d1; d2]
      && (1 <=? parseDigits [m1; m2]) && (parseDigits [m1; m2] <=? 12)
  | _ => false
  end.

Definition digitUnits : list N := [48; 49; 50; 51; 52; 53; 54; 55; 56; 57].

Lemma isDigit_In d : isDigit d = true -> In d digitUnits.
Proof.
  unfold isDigit, digitUnits. intros H. cbn [In].
  assert (d = 48 \/ d = 49 \/ d = 50 \/ d = 51 \/ d = 52 \/ d = 53 \/ d = 54
          \/ d = 55 \/ d = 56 \/ d = 57) by code_units.
  intuition auto.
Qed.

Definition twoDigits (s : jsstring) : bool :=
  match s with [a; b] => isDigit a && isDigit b | _ => false end.

Lemma day_two_digits m2 :
  forallb isDigit m2 = true -> (List.length m2 = 1 \/ List.length m2 = 2)%nat ->
  twoDigits (padStart2 (decimal (parseDigits m2))) = true.
Proof.
  intros Hd [L|L].
  - destruct m2 as [|d1 [|? ?]]; try discriminate.
    cbn [forallb] in Hd. rewrite andb_true_r in Hd. apply isDigit_In in Hd.
    clear L. revert d1 Hd. apply Forall_forall.
    vm_compute. repeat constructor.
  - destruct m2 as [|d1 [|d2 [|? ?]]]; try discriminate.
    cbn [forallb] in Hd. rewrite andb_true_r in Hd.
    apply andb_true_iff in Hd as [H1 H2].
    apply isDigit_In in H1, H2. clear L. revert d2 H2. revert d1 H1.
    assert (G : forallb (fun d1 => forallb (fun d2 =>
                  twoDigits (padStart2 (decimal (parseDigits [d1; d2]))))
                  digitUnits) digitUnits = true) by now vm_compute.
    intros d1 H1 d2 H2.
    rewrite forallb_forall in G. specialize (G d1 H1).
    rewrite forallb_forall in G. exact (G d2 H2).
Qed.

Definition monthDigits (mm : N) : bool :=
  negb (mm =? 0)
  && match padStart2 (decimal mm) with
     | [a; b] => isDigit a && isDigit b && (1 <=? parseDigits [a; b])
                 && (parseDigits [a; b] <=? 12)
     | _ => false
     end.

Lemma month_two_digits k mm : assoc k MONTHS = Some mm -> monthDigits mm = true.
Proof.
  intros H. apply assoc_In in H. revert mm H. apply Forall_forall.
  vm_compute. repeat constructor.
Qed.

(** A key made of lower-case letters that [Object.prototype] knows is
    [constructor]. *)
Lemma inherited_lower_key k :
  existsb (jsstring_eqb k) objectPrototypeKeys = true ->
  forallb isLower k = true -> k = js "constructor".
Proof.
  intros H L. apply existsb_exists in H as (k' & Hin & Hk).
  apply jsstring_eqb_eq in Hk. subst k'.
  unfold objectPrototypeKeys in Hin. cbn [In] in Hin.
  repeat (destruct Hin as [<-|Hin]; [try reflexivity; now vm_compute in L|]).
  contradiction.
Qed.

(** The month word of a text: the first group of the match, lower-cased. *)
Definition monthWord (txt : jsstring) : option jsstring :=
  match dateExec (orEmpty txt) with
  | Some (m1, _, _) => Some (map asciiLower m1)
  | None => None
  end.

Lemma isoFromMatch_shape m1 m2 m3 :
  dateGroupsOk (m1, m2, m3) ->
  map asciiLower m1 <> js "constructor" ->
  isoFromMatch (m1, m2, m3) = [] \/ isoShaped (isoFromMatch (m1, m2, m3)) = true.
Proof.
  intros ((_ & H1) & (H2 & L2) & (H3 & L3)) Hk.
  unfold isoFromMatch, objGet.
  pose proof (day_two_digits _ H2 L2) as Hd.
  destruct (padStart2 (decimal (parseDigits m2))) as [|c [|d [|? ?]]];
    try discriminate.
  destruct (assoc (map asciiLower m1) MONTHS) as [mm|] eqn:Ha.
  - apply month_two_digits in Ha. unfold monthDigits in Ha.
    apply andb_true_iff in Ha as [H0 Ha]. apply negb_true_iff in H0.
    rewrite H0. right.
    destruct (padStart2 (decimal mm)) as [|a [|b [|? ?]]]; try discriminate.
    destruct m3 as [|y1 [|y2 [|y3 [|y4 [|? ?]]]]]; try discriminate.
    cbn [app js list_ascii_of_string map]. change (N_of_ascii "-") with 45.
    unfold isoShaped. unfold twoDigits in Hd.
    apply andb_true_iff in Hd as [Hc Hd'].
    apply andb_true_iff in Ha as [Ha Hle].
    apply andb_true_iff in Ha as [Ha Hge].
    apply andb_true_iff in Ha as [Hda Hdb].
    cbn [forallb] in H3 |- *.
    apply andb_true_iff in H3 as [Hy1 H3].
    apply andb_true_iff in H3 as [Hy2 H3].
    apply andb_true_iff in H3 as [Hy3 H3].
    apply andb_true_iff in H3 as [Hy4 _].
    now rewrite Hy1, Hy2, Hy3, Hy4, Hda, Hdb, Hc, Hd', Hge, Hle.
  - destruct (existsb (jsstring_eqb (map asciiLower m1)) objectPrototypeKeys)
      eqn:Hp; [|now left].
    exfalso. apply Hk. apply inherited_lower_key; [exact Hp|].
    now apply letters_lowered.
Qed.

(** X3.  Apart from the month word [constructor], [extractISODate]
    returns the empty string or a date of the shape [YYYY-MM-DD] with a
    month from 01 to 12. *)
Lemma extractISODate_shape {E : Engine} txt :
  monthWord txt <> Some (js "constructor") ->
  extractISODate txt = [] \/ isoShaped (extractISODate txt) = true.
Proof.
  intros Hk. rewrite extractISODate_unfold. unfold monthWord in Hk.
  destruct (dateExec (orEmpty txt)) as [[[m1 m2] m3]|] eqn:H; [|now left].
  apply isoFromMatch_shape.
  - now apply dateExec_groups in H.
  - intros Heq. apply Hk. now rewrite Heq.
Qed.

(** X2.  A text the pattern does not match, and a text whose month word
    is neither in [MONTHS] nor [constructor], give the empty string. *)
Lemma extractISODate_rejects {E : Engine} txt :
  dateExec (orEmpty txt) = None
  \/ (exists w, monthWord txt = Some w /\ assoc w MONTHS = None
                /\ w <> js "constructor") ->
  extractISODate txt = [].
Proof.
  rewrite extractISODate_unfold. intros [->|(w & Hw & Ha & Hk)]; [reflexivity|].
  unfold monthWord in Hw.
  destruct (dateExec (orEmpty txt)) as [[[m1 m2] m3]|] eqn:H; [|discriminate].
  injection Hw as <-. unfold isoFromMatch, objGet. rewrite Ha.
  destruct (existsb (jsstring_eqb (map asciiLower m1)) objectPrototypeKeys)
    eqn:Hp; [|reflexivity].
  exfalso. apply Hk. apply inherited_lower_key; [exact Hp|].
  apply letters_lowered. now apply dateExec_groups in H as ((_ & H1) & _).
Qed.

(** [toISO] gives the empty string for what [Date] cannot parse. *)
Lemma toISO_invalid {E : Engine} s : dateParse s = None -> toISO s = [].
Proof. unfold toISO. now intros ->. Qed.

(** ["October 15, 2025"] is read as ["2025-10-15"]. *)
Lemma extractISODate_october_15 {E : Engine} :
  extractISODate (js "October 15, 2025") = js "2025-10-15".
Proof. rewrite extractISODate_unfold. now vm_compute. Qed.

(** The day is not checked against the calendar: ["October 99, 2025"]
    is read as ["2025-10-99"]. *)
Lemma extractISODate_no_day_check {E : Engine} :
  extractISODate (js "October 99, 2025") = js "2025-10-99".
Proof. rewrite extractISODate_unfold. now vm_compute. Qed.

Lemma extractISODate_shape_witness :
  monthWord (js "October 99, 2025") <> Some (js "constructor")
  /\ (@extractISODate asciiEngine (js "October 99, 2025") = []
      \/ isoShaped (@extractISODate asciiEngine (js "October 99, 2025")) = true).
Proof.
  assert (H : monthWord (js "October 99, 2025") <> Some (js "constructor"))
    by (vm_compute; discriminate).
  split; [exact H|]. exact (@extractISODate_shape asciiEngine _ H).
Defined.

Lemma extractISODate_rejects_witness :
  monthWord (js "Octember 15, 2025") = Some (js "octember")
  /\ @extractISODate asciiEngine (js "Octember 15, 2025") = [].
Proof.
  split; [reflexivity|].
  apply (@extractISODate_rejects asciiEngine). right.
  exists (js "octember"). split; [reflexivity|].
  split; [reflexivity|discriminate].
Defined.

(** C7.  The month word [constructor] is not in the month-name table, so
    the pattern path cannot parse ["constructor 15, 2025"]; all the same
    [extractISODate] does not return the empty string for it.  The table
    read [MONTHS[...]] finds [Object.prototype.constructor], which is
    truthy and passes [if (!mm) return ""]. *)
Theorem extractISODate_unparsed_not_empty (E : Engine) :
  monthWord (js "constructor 15, 2025") = Some (js "constructor")
  /\ assoc (js "constructor") MONTHS = None
  /\ extractISODate (js "constructor 15, 2025")
     = js "2025-function Object() { [native code] }-15".
Proof.
  rewrite extractISODate_unfold. now vm_compute.
Qed.

(** C10.  On ["constructor 1, 2025"] [extractISODate] returns a string
    that is neither empty nor of the shape [YYYY-MM-DD]: the month part
    is the text of [Object.prototype.constructor]. *)
Theorem extractISODate_inherited_month (E : Engine) :
  extractISODate (js "constructor 1, 2025")
  = js "2025-function Object() { [native code] }-01"
  /\ isoShaped (extractISODate (js "constructor 1, 2025")) = false.
Proof.
  rewrite extractISODate_unfold. now vm_compute.
Qed.

(* ================================================================== *)
(** ** The team matcher *)
(* ================================================================== *)

Lemma isPrefixOf_app n v : isPrefixOf n (n ++ v) = true.
Proof.
  induction n as [|c n IH]; [now destruct v|].
  cbn [isPrefixOf app]. now rewrite N.eqb_refl, IH.
Qed.

Lemma includes_infix u n v : includes (u ++ n ++ v) n = true.
Proof.
  induction u as [|c u IH].
  - cbn [app]. destruct (n ++ v) eqn:H; cbn [includes]; rewrite <- H;
      now rewrite isPrefixOf_app.
  - cbn [app includes]. now rewrite IH, orb_true_r.
Qed.

Lemma isPrefixOf_spec n h : isPrefixOf n h = true -> exists v, h = n ++ v.
Proof.
  revert h. induction n as [|c n IH]; intros h; [now exists h|].
  destruct h as [|d h]; cbn [isPrefixOf]; [discriminate|].
  intros H. apply andb_true_iff in H as [Hc Hn]. apply N.eqb_eq in Hc. subst d.
  destruct (IH _ Hn) as [v ->]. now exists v.
Qed.

Lemma includes_spec h n : includes h n = true -> exists u v, h = u ++ n ++ v.
Proof.
  induction h as [|c h IH]; cbn [includes]; intros H;
    apply orb_true_iff in H as [H|H]; try discriminate.
  - apply isPrefixOf_spec in H as [v ->]. now exists [], v.
  - apply isPrefixOf_spec in H as [v ->]. now exists [], v.
  - destruct (IH H) as (u & v & ->). now exists (c :: u), v.
Qed.

(** [txt] contains [needle] when letter case is ignored: a stretch of
    [txt] lower-cases, ASCII letter by ASCII letter, to [needle]. *)
Definition containsIgnoringCase (txt needle : jsstring) : Prop :=
  exists u w v, txt = u ++ w ++ v /\ map asciiLower w = needle.

Lemma asciiLower_ascii w :
  forallb isAscii (map asciiLower w) = true -> forallb isAscii w = true.
Proof.
  induction w as [|c w IH]; [reflexivity|]. cbn [map forallb].
  intros H. apply andb_true_iff in H as [Hc Hw]. rewrite (IH Hw), andb_true_r.
  revert Hc. unfold asciiLower, isUpper, isAscii.
  destruct (N.leb_spec 65 c), (N.leb_spec c 90); cbn [andb]; intros Hc;
    code_units.
Qed.

Lemma lowered_includes {E : Engine} txt needle :
  forallb isAscii needle = true -> containsIgnoringCase txt needle ->
  includes (toLowerCase txt) needle = true.
Proof.
  intros Ha (u & w & v & -> & Hw). subst needle.
  destruct (toLowerCase_ascii_infix u w v (asciiLower_ascii _ Ha))
    as (u' & v' & ->).
  apply includes_infix.
Qed.

(** The matcher of team mode, by what the alias table yields. *)
Lemma matchMode_team {E : Engine} subject txt :
  matchMode subject (js "team") txt
  = let s := trim (toLowerCase subject) in
    match objGet TEAM_ALIASES (filter isLower s) with
    | Own aliases => Ok (existsb (includes (toLowerCase txt)) aliases)
    | Undefined => Ok (includes (toLowerCase txt) s)
    | Inherited _ => Throw (js "aliases.some is not a function")
    end.
Proof.
  unfold matchMode. rewrite jsstring_eqb_refl. cbv zeta.
  destruct (objGet TEAM_ALIASES (filter isLower (trim (toLowerCase subject))));
    try reflexivity.
  cbn [existsb]. now rewrite orb_false_r.
Qed.

(** The matcher built for ["Lakers"] accepts every text that contains
    ["Los Angeles Lakers"] or ["LAL"], whatever the letter case. *)
Lemma matchMode_lakers {E : Engine} txt :
  containsIgnoringCase txt (js "los angeles lakers")
  \/ containsIgnoringCase txt (js "lal") ->
  matchMode (js "Lakers") (js "team") txt = Ok true.
Proof.
  intros H. rewrite matchMode_team.
  rewrite toLowerCase_ascii by reflexivity.
  change (Ok (existsb (includes (toLowerCase txt))
                [js "los angeles lakers"; js "lal"; js "lakers"]) = Ok true).
  f_equal. cbn [existsb].
  destruct H as [H|H].
  - now rewrite (@lowered_includes E txt (js "los angeles lakers") eq_refl H).
  - now rewrite (@lowered_includes E txt (js "lal") eq_refl H), orb_true_r.
Qed.

(** The compact alphabetic key of a subject:
    [subject.toLowerCase().trim().replace(/[^a-z]/g,'')] *)
Definition teamKey {E : Engine} (subject : jsstring) : jsstring :=
  filter isLower (trim (toLowerCase subject)).

(** X6.  For a key that is neither in the alias table nor [constructor],
    the matcher is containment of the lower-cased, trimmed subject in the
    lower-cased text. *)
Lemma matchMode_unknown_team {E : Engine} subject txt :
  assoc (teamKey subject) TEAM_ALIASES = None ->
  teamKey subject <> js "constructor" ->
  matchMode subject (js "team") txt
  = Ok (includes (toLowerCase txt) (trim (toLowerCase subject))).
Proof.
  intros Ha Hk. rewrite matchMode_team. cbv zeta. fold (teamKey subject).
  unfold objGet. rewrite Ha.
  destruct (existsb (jsstring_eqb (teamKey subject)) objectPrototypeKeys) eqn:Hp;
    [|reflexivity].
  exfalso. apply Hk. apply inherited_lower_key; [exact Hp|].
  unfold teamKey. apply forallb_forall. intros c Hc.
  now apply filter_In in Hc.
Qed.

Lemma matchMode_lakers_witness :
  containsIgnoringCase (js "Trade talks with LAL go on") (js "lal")
  /\ @matchMode asciiEngine (js "Lakers") (js "team")
       (js "Trade talks with LAL go on") = Ok true.
Proof.
  assert (H : containsIgnoringCase (js "Trade talks with LAL go on") (js "lal")).
  { exists (js "Trade talks with "), (js "LAL"), (js " go on").
    split; reflexivity. }
  split; [exact H|].
  exact (@matchMode_lakers asciiEngine _ (or_intror H)).
Defined.

Lemma matchMode_unknown_team_witness :
  @matchMode asciiEngine (js " Raptors ") (js "team") (js "The RAPTORS won")
  = Ok true.
Proof.
  rewrite (@matchMode_unknown_team asciiEngine (js " Raptors ")
             (js "The RAPTORS won")).
  - reflexivity.
  - reflexivity.
  - discriminate.
Defined.

(** C8.  The key [constructor] is not in the alias table, yet the
    matcher built for the subject ["constructor"] is not containment of
    the subject: [TEAM_ALIASES[key]] finds
    [Object.prototype.constructor], [|| [s]] is not reached, and calling
    the matcher throws on [aliases.some]. *)
Theorem matchMode_inherited_key_throws (E : Engine) :
  teamKey (js "constructor") = js "constructor"
  /\ assoc (js "constructor") TEAM_ALIASES = None
  /\ forall txt,
       matchMode (js "constructor") (js "team") txt
       = Throw (js "aliases.some is not a function").
Proof.
  assert (K : teamKey (js "constructor") = js "constructor").
  { unfold teamKey. now rewrite toLowerCase_ascii by reflexivity. }
  split; [exact K|]. split; [reflexivity|].
  intros txt. rewrite matchMode_team. cbv zeta. fold (teamKey (js "constructor")).
  now rewrite K.
Qed.

(* ================================================================== *)
(** ** The window *)
(* ================================================================== *)

Lemma slice_nth_error {A : Type} (from to i : nat) (l : list A) :
  (i < to - from)%nat ->
  nth_error (slice from to l) i = nth_error l (from + i).
Proof.
  intros H. unfold slice.
  rewrite nth_error_firstn. destruct (Nat.ltb_spec i (to - from)); [|lia].
  now rewrite nth_error_skipn.
Qed.

Lemma slice_length {A : Type} (from to : nat) (l : list A) :
  (to <= List.length l)%nat -> List.length (slice from to l) = (to - from)%nat.
Proof.
  intros H. unfold slice. rewrite length_firstn, length_skipn. lia.
Qed.

(** Out of a list of at least [n + 1] items, [slice 1 (n + 1)] is the
    items at positions 1 to [n] and nothing else, position 0 left out. *)
Lemma slice_from_second (A : Type) (n : nat) (dedup : list A) :
  (n + 1 <= List.length dedup)%nat ->
  List.length (slice 1 (n + 1) dedup) = n
  /\ (forall i, (i < n)%nat ->
        nth_error (slice 1 (n + 1) dedup) i = nth_error dedup (i + 1))
  /\ slice 1 (n + 1) dedup = firstn n (tl dedup).
Proof.
  intros H. split; [|split].
  - rewrite slice_length by exact H. lia.
  - intros i Hi. rewrite slice_nth_error by lia. f_equal. lia.
  - unfold slice. replace (n + 1 - 1)%nat with n by lia. now destruct dedup.
Qed.

(* ================================================================== *)
(** ** Running the handlers *)
(* ================================================================== *)

(** The items of an answer, when it has any. *)
Definition itemsOf {I : Type} (r : HttpResponse I) : option (list I) :=
  match payload r with
  | ItemsBody _ items _ => Some items
  | ErrorBody _ _ => None
  end.

(** The debug object of a success envelope, when it has one. *)
Definition successDebug {I : Type} (r : HttpResponse I) : option Dbg :=
  match payload r with
  | ItemsBody _ _ d => d
  | ErrorBody _ _ => None
  end.

(** An answer without the debug object of its success envelope. *)
Definition stripDebug {I : Type} (r : HttpResponse I) : HttpResponse I :=
  match payload r with
  | ItemsBody s items _ =>
      {| statusCode := statusCode r; payload := ItemsBody s items None |}
  | ErrorBody _ _ => r
  end.

(** Two runs that made the same requests, left the same state and
    returned answers that differ at most in the debug object of the
    success envelope. *)
Definition agreeButDebug {I : Type}
           (a b : Result (HttpResponse I) * State) : Prop :=
  snd a = snd b
  /\ exists ra rb,
       fst a = Ok ra /\ fst b = Ok rb
       /\ statusCode ra = statusCode rb
       /\ itemsOf ra = itemsOf rb
       /\ stripDebug ra = stripDebug rb.

(** The debug object is in the success envelope exactly when asked for. *)
Definition debugAsAsked {I : Type} (flag : bool)
           (a : Result (HttpResponse I) * State) : Prop :=
  forall r, fst a = Ok r -> statusCode r = 200 ->
    (flag = true -> exists d, successDebug r = Some d)
    /\ (flag = false -> successDebug r = None).

Lemma handlerWith_missing {E : Engine} windowTo toPayload event net st :
  falsy (trim (orEmptyOpt (q event))) = true ->
  TagCrawl.handlerWith windowTo toPayload event net st
  = (Ok (json 400 (ErrorBody (js "Missing q") None)), st).
Proof. intros H. unfold TagCrawl.handlerWith. now rewrite H. Qed.

Lemma handlerWith_run {E : Engine} windowTo toPayload event net st :
  falsy (trim (orEmptyOpt (q event))) = false ->
  TagCrawl.handlerWith windowTo toPayload event net st
  = let qRaw := trim (orEmptyOpt (q event)) in
    let subjects := TagCrawl.subjectsOf qRaw in
    let slugs := map slugify subjects in
    let st0 := {| requests := requests st;
                  dbg := [(js "subjects", DList subjects);
                          (js "slugs", DList slugs)] |} in
    match TagCrawl.collectAll slugs [] net st0 with
    | (Ok merged, st1) =>
        let dedup := TagCrawl.dedupOf merged in
        let items := map toPayload (slice 1 windowTo dedup) in
        (Ok (json 200 (ItemsBody qRaw items
               (if debugFlag event
                then Some
                  (dbgSet (js "returning") (DNum (N.of_nat (List.length items)))
                  (dbgSet (js "totalAfterDedup") (DNum (N.of_nat (List.length dedup)))
                  (dbgSet (js "totalMerged") (DNum (N.of_nat (List.length merged)))
                     (dbg st1))))
                else None))), st1)
    | (Throw e, st1) =>
        (Ok (json 500 (ErrorBody (messageOr e) (Some (dbg st1)))), st1)
    end.
Proof.
  intros H. unfold TagCrawl.handlerWith. rewrite H. cbv zeta.
  unfold bind, tryCatch, modifyDbg, getDbg, ret. cbn [requests dbg].
  now destruct (TagCrawl.collectAll _ _ _ _) as [[merged|e] st1].
Qed.

Lemma handlerWith_agree {E : Engine} windowTo toPayload qv md d1 d2 net st :
  agreeButDebug
    (TagCrawl.handlerWith windowTo toPayload {| q := qv; mode := md; debug := d1 |} net st)
    (TagCrawl.handlerWith windowTo toPayload {| q := qv; mode := md; debug := d2 |} net st).
Proof.
  destruct (falsy (trim (orEmptyOpt qv))) eqn:Hq.
  - rewrite !handlerWith_missing by exact Hq. split; [reflexivity|].
    now do 2 eexists.
  - rewrite !handlerWith_run by exact Hq. cbv zeta. cbn [q].
    destruct (TagCrawl.collectAll _ _ _ _) as [[merged|e] st1];
      (split; [reflexivity|]); do 2 eexists; repeat split.
Qed.

Lemma handlerWith_debugAsAsked {E : Engine} windowTo toPayload event net st :
  debugAsAsked (debugFlag event)
    (TagCrawl.handlerWith windowTo toPayload event net st).
Proof.
  intros r Hr H200.
  destruct (falsy (trim (orEmptyOpt (q event)))) eqn:Hq.
  - rewrite handlerWith_missing in Hr by exact Hq. injection Hr as <-. discriminate.
  - rewrite handlerWith_run in Hr by exact Hq. cbv zeta in Hr.
    destruct (TagCrawl.collectAll _ _ _ _) as [[merged|e] st1];
      injection Hr as <-; [|discriminate].
    unfold successDebug. cbn [payload json].
    destruct (debugFlag event); split; intros; try discriminate; eauto.
Qed.

Lemma plain_handler_cases {E : Engine} event net st :
  TagPlain.handler event net st
  = let qv := trim (orEmptyOpt (q event)) in
    if falsy qv then (Ok (json 400 (ErrorBody (js "Missing q") None)), st)
    else
      let st0 := {| requests := requests st;
                    dbg := [(js "slug", DStr (slugify qv))] |} in
      match TagPlain.collectFromTag (slugify qv) net st0 with
      | (Ok items, st1) =>
          (Ok (json 200 (ItemsBody qv items
                 (if debugFlag event then Some (dbg st1) else None))), st1)
      | (Throw e, st1) =>
          (Ok (json 500 (ErrorBody (messageOr e) (Some (dbg st1)))), st1)
      end.
Proof.
  unfold TagPlain.handler. cbv zeta.
  destruct (falsy (trim (orEmptyOpt (q event)))); [reflexivity|].
  unfold bind, tryCatch, modifyDbg, getDbg, ret. cbn [requests dbg].
  now destruct (TagPlain.collectFromTag _ _ _) as [[items|e] st1].
Qed.

Lemma plain_handler_agree {E : Engine} qv md d1 d2 net st :
  agreeButDebug
    (TagPlain.handler {| q := qv; mode := md; debug := d1 |} net st)
    (TagPlain.handler {| q := qv; mode := md; debug := d2 |} net st).
Proof.
  rewrite !plain_handler_cases. cbv zeta. cbn [q].
  destruct (falsy (trim (orEmptyOpt qv))).
  - split; [reflexivity|]. now do 2 eexists.
  - destruct (TagPlain.collectFromTag _ _ _) as [[items|e] st1];
      (split; [reflexivity|]); do 2 eexists; repeat split.
Qed.

Lemma plain_handler_debugAsAsked {E : Engine} event net st :
  debugAsAsked (debugFlag event) (TagPlain.handler event net st).
Proof.
  intros r Hr H200. rewrite plain_handler_cases in Hr. cbv zeta in Hr.
  destruct (falsy (trim (orEmptyOpt (q event)))).
  - injection Hr as <-. discriminate.
  - destruct (TagPlain.collectFromTag _ _ _) as [[items|e] st1];
      injection Hr as <-; [|discriminate].
    unfold successDebug. cbn [payload json].
    destruct (debugFlag event); split; intros; try discriminate; eauto.
Qed.

(** C9.  The debug flag does not take part in the selection.  Two
    invocations on the same network that differ only in the [debug]
    parameter make the same requests and return answers with the same
    status and the same items; the answers differ at most in the debug
    object of the success envelope, which is there exactly when the flag
    is ["1"].  This holds for the eight-item and five-item tag crawls and
    for the plain tag crawl. *)
Theorem debug_flag_only_adds_debug (E : Engine)
        (anchorEndExec : jsstring -> option (jsstring * jsstring))
        (net : Network) (qv md d1 d2 : option jsstring) :
  let ev1 := {| q := qv; mode := md; debug := d1 |} in
  let ev2 := {| q := qv; mode := md; debug := d2 |} in
  (agreeButDebug (invoke (TagCrawl.handler8 anchorEndExec ev1) net)
                 (invoke (TagCrawl.handler8 anchorEndExec ev2) net)
   /\ debugAsAsked (debugFlag ev1) (invoke (TagCrawl.handler8 anchorEndExec ev1) net))
  /\ (agreeButDebug (invoke (TagCrawl.handler5 ev1) net)
                    (invoke (TagCrawl.handler5 ev2) net)
      /\ debugAsAsked (debugFlag ev1) (invoke (TagCrawl.handler5 ev1) net))
  /\ (agreeButDebug (invoke (TagPlain.handler ev1) net)
                    (invoke (TagPlain.handler ev2) net)
      /\ debugAsAsked (debugFlag ev1) (invoke (TagPlain.handler ev1) net)).
Proof.
  cbv zeta. unfold invoke, TagCrawl.handler8, TagCrawl.handler5.
  split; [split|split; split].
  - apply handlerWith_agree.
  - apply handlerWith_debugAsAsked.
  - apply handlerWith_agree.
  - apply handlerWith_debugAsAsked.
  - apply plain_handler_agree.
  - apply plain_handler_debugAsAsked.
Qed.

(* ================================================================== *)
(** ** A missing subject *)
(* ================================================================== *)

(** The subject parameter is absent or trims to the empty string. *)
Definition missingSubject (event : Event) : Prop :=
  q event = None \/ exists s, q event = Some s /\ trim s = [].

Lemma orEmpty_id s : orEmpty s = s.
Proof. now destruct s. Qed.

Lemma missingSubject_falsy event :
  missingSubject event -> falsy (trim (orEmptyOpt (q event))) = true.
Proof.
  intros [H|(s & H & Hs)]; rewrite H; [reflexivity|].
  cbn [orEmptyOpt]. now rewrite orEmpty_id, Hs.
Qed.

(** The answer to a request without a subject. *)
Definition missingQ {I : Type} : HttpResponse I :=
  json 400 (ErrorBody (js "Missing q") None).

(** C5.  When the subject parameter is absent or trims to the empty
    string, the handler answers 400 with [{ error: "Missing q" }] and
    leaves the state as it found it: no request has been added to the
    ones made, so nothing was fetched.  This holds for the handler of
    every generation embedded here. *)
Theorem missing_subject_rejected (E : Engine)
        (anchorEndExec : jsstring -> option (jsstring * jsstring))
        (event : Event) (net : Network) (st : State) :
  missingSubject event ->
  FeedIndex.handler event net st = (Ok missingQ, st)
  /\ TagCrawl.handler8 anchorEndExec event net st = (Ok missingQ, st)
  /\ TagCrawl.handler5 event net st = (Ok missingQ, st)
  /\ TagPlain.handler event net st = (Ok missingQ, st)
  /\ FourStrategies.handler event net st = (Ok missingQ, st).
Proof.
  intros H. apply missingSubject_falsy in H.
  unfold FeedIndex.handler, TagCrawl.handler8, TagCrawl.handler5,
    TagCrawl.handlerWith, TagPlain.handler, FourStrategies.handler.
  cbv zeta. rewrite H. now repeat split.
Qed.

(** A network on which every request fails. *)
Definition unreachable : Network := fun _ _ => Rejected (js "fetch failed").

Lemma missing_subject_rejected_witness :
  missingSubject {| q := Some (js "   "); mode := None; debug := None |}
  /\ @FeedIndex.handler asciiEngine
       {| q := Some (js "   "); mode := None; debug := None |}
       unreachable {| requests := []; dbg := [] |}
     = (Ok missingQ, {| requests := []; dbg := [] |}).
Proof.
  assert (H : missingSubject {| q := Some (js "   "); mode := None; debug := None |}).
  { right. exists (js "   "). split; reflexivity. }
  split; [exact H|].
  exact (proj1 (missing_subject_rejected asciiEngine (fun _ => None)
                  unreachable {| requests := []; dbg := [] |} H)).
Defined.

(* ================================================================== *)
(** ** Strategies that fail *)
(* ================================================================== *)


(** A computation that returns, whatever the network and the state. *)
Definition neverThrows {A : Type} (m : M A) : Prop :=
  forall net st, exists a st', m net st = (Ok a, st').

Lemma catch_all_neverThrows {A : Type} (m : M A) (x : A) :
  neverThrows (tryCatch m (fun _ => ret x)).
Proof.
  intros net st. unfold tryCatch, ret.
  destruct (m net st) as [[a|e] st']; eauto.
Qed.






Section FourStrategiesFail.
Context {E : Engine}.
Variables (qv : jsstring) (matcher : Matcher).





End FourStrategiesFail.

(** A computation that returns a value satisfying [P], whatever the
    network and the state. *)
Definition returnsWith {A : Type} (P : A -> Prop) (m : M A) : Prop :=
  forall net st, exists a st', m net st = (Ok a, st') /\ P a.

Lemma returnsWith_ret {A : Type} (P : A -> Prop) a : P a -> returnsWith P (ret a).
Proof. intros H net st. now exists a, st. Qed.

Lemma returnsWith_bind {A B : Type} (P : A -> Prop) (Q : B -> Prop)
      (m : M A) (k : A -> M B) :
  returnsWith P m -> (forall a, P a -> returnsWith Q (k a)) ->
  returnsWith Q (bind m k).
Proof.
  intros Hm Hk net st. destruct (Hm net st) as (a & st' & H & Pa).
  unfold bind. rewrite H. apply (Hk a Pa).
Qed.

Lemma returnsWith_neverThrows {A : Type} (m : M A) :
  neverThrows m -> returnsWith (fun _ => True) m.
Proof. intros H net st. destruct (H net st) as (a & st' & ->). eauto. Qed.

Lemma returnsWith_modifyDbg f : returnsWith (fun _ => True) (modifyDbg f).
Proof. intros net st. unfold modifyDbg. eauto. Qed.

Lemma returnsWith_getDbg : returnsWith (fun _ => True) getDbg.
Proof. intros net st. unfold getDbg. eauto. Qed.

Lemma returnsWith_orTry items next :
  neverThrows next -> returnsWith (fun _ => True) (FourStrategies.orTry items next).
Proof.
  intros H. destruct items; [now apply returnsWith_neverThrows|].
  now apply returnsWith_ret.
Qed.

(** The four-strategy handler always answers, with 400 or 200. *)
Lemma four_handler_answers {E : Engine} event :
  returnsWith (fun r => statusCode r = 400 \/ statusCode r = 200)
              (FourStrategies.handler event).
Proof.
  unfold FourStrategies.handler. cbv zeta.
  destruct (falsy (trim (orEmptyOpt (q event)))).
  - apply returnsWith_ret. now left.
  - eapply returnsWith_bind; [apply returnsWith_modifyDbg|]. intros _ _.
    eapply returnsWith_bind;
      [apply returnsWith_neverThrows, catch_all_neverThrows|]. intros i1 _.
    eapply returnsWith_bind;
      [apply returnsWith_orTry, catch_all_neverThrows|]. intros i2 _.
    eapply returnsWith_bind;
      [apply returnsWith_orTry, catch_all_neverThrows|]. intros i3 _.
    eapply returnsWith_bind;
      [apply returnsWith_orTry, catch_all_neverThrows|]. intros i4 _.
    eapply returnsWith_bind; [apply returnsWith_getDbg|]. intros d _.
    apply returnsWith_ret. now right.
Qed.











(* ================================================================== *)
(** ** The order on dates *)
(* ================================================================== *)

Lemma str_ltb_irrefl a : str_ltb a a = false.
Proof.
  induction a as [|x a IH]; [reflexivity|]. cbn [str_ltb].
  now rewrite N.ltb_irrefl.
Qed.

Lemma str_ltb_asym a b : str_ltb a b = true -> str_ltb b a = false.
Proof.
  revert b. induction a as [|x a IH]; intros [|y b]; cbn [str_ltb];
    try easy.
  destruct (N.ltb_spec x y), (N.ltb_spec y x); try easy; try lia.
  apply IH.
Qed.

(** [a >= b] and [b >= c] give [a >= c]. *)
Lemma str_geb_trans a b c :
  str_ltb a b = false -> str_ltb b c = false -> str_ltb a c = false.
Proof.
  revert b c. induction a as [|x a IH]; intros [|y b] [|z c]; cbn [str_ltb];
    try easy.
  destruct (N.ltb_spec x y), (N.ltb_spec y x), (N.ltb_spec y z),
    (N.ltb_spec z y), (N.ltb_spec x z), (N.ltb_spec z x);
    try easy; try lia.
  apply IH.
Qed.

(** The empty date is the oldest. *)
Lemma str_ltb_empty b : str_ltb [] b = false -> b = [].
Proof. now destruct b. Qed.

(* ================================================================== *)
(** ** Sorting *)
(* ================================================================== *)

Section Sorting.
Context {A : Type}.
Variable dateOf : A -> jsstring.

(** [a] is not older than [b]. *)
Definition notOlder (a b : A) : Prop :=
  str_ltb (orEmpty (dateOf a)) (orEmpty (dateOf b)) = false.

Lemma cmpByDate_neg a b :
  (cmpByDate dateOf a b <? 0)%Z = true <-> notOlder a b.
Proof.
  unfold cmpByDate, notOlder.
  destruct (str_ltb (orEmpty (dateOf a)) (orEmpty (dateOf b))); now split.
Qed.

Lemma notOlder_trans a b c : notOlder a b -> notOlder b c -> notOlder a c.
Proof. apply str_geb_trans. Qed.

Lemma insertBy_perm x l :
  Permutation (insertBy (cmpByDate dateOf) x l) (x :: l).
Proof.
  induction l as [|y r IH]; cbn [insertBy]; [reflexivity|].
  destruct (cmpByDate dateOf x y <? 0)%Z; [reflexivity|].
  rewrite IH. apply perm_swap.
Qed.

Lemma insertBy_sorted x l :
  StronglySorted notOlder l ->
  StronglySorted notOlder (insertBy (cmpByDate dateOf) x l).
Proof.
  induction 1 as [|y r Hr IH Hy]; cbn [insertBy].
  - repeat constructor.
  - destruct (cmpByDate dateOf x y <? 0)%Z eqn:Hc.
    + apply cmpByDate_neg in Hc. constructor; [now constructor|].
      constructor; [exact Hc|].
      eapply Forall_impl; [|exact Hy]. intros z Hz.
      now apply notOlder_trans with y.
    + constructor; [exact IH|].
      eapply Permutation_Forall.
      * symmetry. apply insertBy_perm.
      * constructor; [|exact Hy].
        unfold notOlder. apply str_ltb_asym.
        unfold cmpByDate in Hc.
        now destruct (str_ltb (orEmpty (dateOf x)) (orEmpty (dateOf y))).
Qed.

Lemma sortBy_fold acc l :
  Permutation (fold_left (fun a x => insertBy (cmpByDate dateOf) x a) l acc)
              (acc ++ l)
  /\ (StronglySorted notOlder acc ->
      StronglySorted notOlder
        (fold_left (fun a x => insertBy (cmpByDate dateOf) x a) l acc)).
Proof.
  revert acc. induction l as [|x l IH]; intros acc; cbn [fold_left].
  - now rewrite app_nil_r.
  - destruct (IH (insertBy (cmpByDate dateOf) x acc)) as [P S]. split.
    + rewrite P, insertBy_perm. cbn [app]. apply Permutation_middle.
    + intros H. apply S. now apply insertBy_sorted.
Qed.

(** The sort returns its input rearranged, newest first. *)
Lemma sortBy_date l :
  Permutation (sortBy (cmpByDate dateOf) l) l
  /\ StronglySorted notOlder (sortBy (cmpByDate dateOf) l).
Proof.
  unfold sortBy. destruct (sortBy_fold [] l) as [P S]. split.
  - exact P.
  - apply S. constructor.
Qed.

End Sorting.

(* ================================================================== *)
(** ** De-duplication *)
(* ================================================================== *)

Section Dedup.
Context {A : Type}.
Variable keyOf : A -> jsstring.

(** What the loop adds to [items]: the elements whose key is neither in
    [seen] nor carried by an earlier element. *)
Fixpoint keepNew (l : list A) (seen : list jsstring) : list A :=
  match l with
  | [] => []
  | it :: rest =>
      if existsb (jsstring_eqb (keyOf it)) seen then keepNew rest seen
      else it :: keepNew rest (keyOf it :: seen)
  end.

Lemma addNew_keepNew l items seen :
  fst (addNew keyOf l items seen) = items ++ keepNew l seen.
Proof.
  revert items seen. induction l as [|it rest IH]; intros items seen;
    cbn [addNew keepNew].
  - now rewrite app_nil_r.
  - destruct (existsb (jsstring_eqb (keyOf it)) seen); [apply IH|].
    rewrite IH, <- app_assoc. reflexivity.
Qed.

Lemma seen_spec k seen :
  existsb (jsstring_eqb k) seen = true <-> In k seen.
Proof.
  rewrite existsb_exists. split.
  - intros (x & Hx & Hk). apply jsstring_eqb_eq in Hk. now subst.
  - intros H. exists k. split; [exact H|apply jsstring_eqb_refl].
Qed.

Lemma seen_spec_false k seen :
  existsb (jsstring_eqb k) seen = false <-> ~ In k seen.
Proof.
  rewrite <- seen_spec. now destruct (existsb (jsstring_eqb k) seen).
Qed.

Lemma keepNew_In l seen it : In it (keepNew l seen) -> In it l.
Proof.
  revert seen. induction l as [|x rest IH]; intros seen; cbn [keepNew];
    [easy|].
  destruct (existsb (jsstring_eqb (keyOf x)) seen).
  - intros H. right. now apply IH in H.
  - intros [<-|H]; [now left|]. right. now apply IH in H.
Qed.

Lemma keepNew_fresh l seen it :
  In it (keepNew l seen) -> ~ In (keyOf it) seen.
Proof.
  revert seen. induction l as [|x rest IH]; intros seen; cbn [keepNew];
    [easy|].
  destruct (existsb (jsstring_eqb (keyOf x)) seen) eqn:Hx.
  - apply IH.
  - intros [<-|H]; [now apply seen_spec_false|].
    apply IH in H. intros Hin. apply H. now right.
Qed.

Lemma keepNew_NoDup l seen : NoDup (map keyOf (keepNew l seen)).
Proof.
  revert seen. induction l as [|x rest IH]; intros seen; cbn [keepNew];
    [constructor|].
  destruct (existsb (jsstring_eqb (keyOf x)) seen); [apply IH|].
  cbn [map]. constructor; [|apply IH].
  intros H. apply in_map_iff in H as (y & Hy & Hin).
  apply keepNew_fresh in Hin. apply Hin. rewrite Hy. now left.
Qed.

Lemma keepNew_covers l seen it :
  In it l -> In (keyOf it) seen \/ In (keyOf it) (map keyOf (keepNew l seen)).
Proof.
  revert seen. induction l as [|x rest IH]; intros seen; [easy|].
  cbn [keepNew]. intros [->|H].
  - destruct (existsb (jsstring_eqb (keyOf it)) seen) eqn:Hx.
    + left. now apply seen_spec.
    + right. now left.
  - destruct (existsb (jsstring_eqb (keyOf x)) seen) eqn:Hx.
    + now apply IH.
    + destruct (IH (keyOf x :: seen) H) as [[Hk|Hs]|Hk].
      * right. left. exact Hk.
      * now left.
      * right. right. exact Hk.
Qed.

(** The first element of [l] that carries the key of [it]. *)
Definition firstWithKey (l : list A) (it : A) : option A :=
  find (fun x => jsstring_eqb (keyOf x) (keyOf it)) l.

Lemma keepNew_first l seen it :
  In it (keepNew l seen) -> firstWithKey l it = Some it.
Proof.
  unfold firstWithKey. revert seen.
  induction l as [|x rest IH]; intros seen; cbn [keepNew find]; [easy|].
  destruct (existsb (jsstring_eqb (keyOf x)) seen) eqn:Hx.
  - intros H. destruct (jsstring_eqb (keyOf x) (keyOf it)) eqn:Hk.
    + exfalso. apply jsstring_eqb_eq in Hk. apply keepNew_fresh in H.
      apply H. rewrite <- Hk. now apply seen_spec.
    + now apply IH in H.
  - intros [<-|H]; [now rewrite jsstring_eqb_refl|].
    destruct (jsstring_eqb (keyOf x) (keyOf it)) eqn:Hk.
    + exfalso. apply jsstring_eqb_eq in Hk. apply keepNew_fresh in H.
      apply H. rewrite <- Hk. now left.
    + now apply IH in H.
Qed.

Variable dateOf : A -> jsstring.

Lemma keepNew_sorted l seen :
  StronglySorted (notOlder dateOf) l ->
  StronglySorted (notOlder dateOf) (keepNew l seen).
Proof.
  intros H. revert seen. induction H as [|x rest Hr IH Hx]; intros seen;
    cbn [keepNew]; [constructor|].
  destruct (existsb (jsstring_eqb (keyOf x)) seen); [apply IH|].
  constructor; [apply IH|].
  apply Forall_forall. intros y Hy. apply keepNew_In in Hy.
  rewrite Forall_forall in Hx. now apply Hx.
Qed.

End Dedup.

(* ================================================================== *)
(** ** Merge, sort, de-duplicate *)
(* ================================================================== *)

(** The three fields the key is built from. *)
Definition keyFields (it : TagCrawl.Item)
  : jsstring * jsstring * jsstring :=
  (TagCrawl.date it, slicePrefix 120 (TagCrawl.title it), TagCrawl.url it).

Lemma StronglySorted_suffix {A : Type} (R : A -> A -> Prop) pre l :
  StronglySorted R (pre ++ l) -> StronglySorted R l.
Proof.
  induction pre as [|x pre IH]; cbn [app]; [easy|].
  intros H. apply StronglySorted_inv in H as [H _]. now apply IH.
Qed.

Lemma dedupOf_keepNew merged :
  TagCrawl.dedupOf merged
  = keepNew TagCrawl.itemKey (TagCrawl.sortMerged merged) [].
Proof. unfold TagCrawl.dedupOf. now rewrite addNew_keepNew. Qed.

(** What the de-duplication does keep.  For every list of candidate
    items the de-duplicated list holds one item per distinct key string
    [date::title.slice(0,120)::url]: no key string twice, every key
    string of the input once, and the item kept is the first one with
    that key string in the merged list as sorted.  The list is sorted
    non-increasing by date, and an item with an empty date has only
    items with an empty date behind it. *)
Theorem dedup_one_per_key_sorted (merged : list TagCrawl.Item) :
  let sorted := TagCrawl.sortMerged merged in
  let out := TagCrawl.dedupOf merged in
  Permutation sorted merged
  /\ NoDup (map TagCrawl.itemKey out)
  /\ (forall it, In it merged ->
        In (TagCrawl.itemKey it) (map TagCrawl.itemKey out))
  /\ (forall it, In it out ->
        In it merged /\ firstWithKey TagCrawl.itemKey sorted it = Some it)
  /\ StronglySorted (notOlder TagCrawl.date) out
  /\ (forall pre it post, out = pre ++ it :: post ->
        orEmpty (TagCrawl.date it) = [] ->
        Forall (fun later => orEmpty (TagCrawl.date later) = []) post).
Proof.
  cbv zeta. rewrite dedupOf_keepNew.
  destruct (sortBy_date TagCrawl.date merged) as [P S].
  fold (TagCrawl.sortMerged merged) in P, S.
  assert (So : StronglySorted (notOlder TagCrawl.date)
                 (keepNew TagCrawl.itemKey (TagCrawl.sortMerged merged) []))
    by now apply keepNew_sorted.
  repeat split.
  - exact P.
  - apply keepNew_NoDup.
  - intros it Hin.
    destruct (keepNew_covers TagCrawl.itemKey (TagCrawl.sortMerged merged) [] it)
      as [[]|H]; [|exact H].
    now apply (Permutation_in _ (Permutation_sym P)).
  - apply (Permutation_in _ P). now apply keepNew_In in H.
  - now apply keepNew_first in H.
  - exact So.
  - intros pre it post Heq Hd. rewrite Heq in So.
    apply StronglySorted_suffix in So.
    apply StronglySorted_inv in So as [_ So].
    eapply Forall_impl; [|exact So]. intros later H.
    unfold notOlder in H. rewrite Hd in H. now apply str_ltb_empty in H.
Qed.

Lemma dedup_pair_same_key (a b : TagCrawl.Item) :
  TagCrawl.itemKey a = TagCrawl.itemKey b ->
  orEmpty (TagCrawl.date a) = orEmpty (TagCrawl.date b) ->
  TagCrawl.dedupOf [a; b] = [b].
Proof.
  intros Hk Hd. unfold TagCrawl.dedupOf, TagCrawl.sortMerged, sortBy.
  cbn [fold_left insertBy]. unfold cmpByDate at 1.
  rewrite Hd, str_ltb_irrefl. cbn [Z.ltb Z.compare].
  cbn [addNew existsb]. rewrite Hk, jsstring_eqb_refl. reflexivity.
Qed.

(** C1.  The de-duplication does not keep one item per composite key,
    and the first occurrence does not win.  The key is the string
    [date::title.slice(0,120)::url]; two items whose title and link
    differ have one key string when the title of the one ends in what
    the link of the other starts with, and only one of them is kept.
    And of two items of one date and one key string, merged in the
    order [a], [b], the sort puts [b] first and [b] is the one kept,
    whatever else the two differ in. *)
Theorem dedup_merges_distinct_fields :
  (exists a b,
     keyFields a <> keyFields b
     /\ TagCrawl.itemKey a = TagCrawl.itemKey b
     /\ TagCrawl.dedupOf [a; b] = [b])
  /\ (forall a b,
        TagCrawl.itemKey a = TagCrawl.itemKey b ->
        orEmpty (TagCrawl.date a) = orEmpty (TagCrawl.date b) ->
        TagCrawl.dedupOf [a; b] = [b])
  /\ (exists a b,
        keyFields a = keyFields b /\ a <> b
        /\ TagCrawl.dedupOf [a; b] = [b]).
Proof.
  split; [|split].
  - exists {| TagCrawl.title := js "Sources: trade talks::ESPN";
              TagCrawl.snippet_html := js "Sources: trade talks::ESPN";
              TagCrawl.url := js "https://e.com/1";
              TagCrawl.sourceName := js "HoopsHype";
              TagCrawl.date := js "2025-10-15";
              TagCrawl.lastAnchorText := [] |},
           {| TagCrawl.title := js "Sources: trade talks";
              TagCrawl.snippet_html := js "Sources: trade talks";
              TagCrawl.url := js "ESPN::https://e.com/1";
              TagCrawl.sourceName := js "HoopsHype";
              TagCrawl.date := js "2025-10-15";
              TagCrawl.lastAnchorText := [] |}.
    split; [|split]; [discriminate | reflexivity | reflexivity].
  - exact dedup_pair_same_key.
  - exists {| TagCrawl.title := js "Sources: trade talks";
              TagCrawl.snippet_html := js "<b>Sources</b>: trade talks";
              TagCrawl.url := js "https://e.com/1";
              TagCrawl.sourceName := js "HoopsHype";
              TagCrawl.date := js "2025-10-15";
              TagCrawl.lastAnchorText := [] |},
           {| TagCrawl.title := js "Sources: trade talks";
              TagCrawl.snippet_html := js "Sources: trade talks";
              TagCrawl.url := js "https://e.com/1";
              TagCrawl.sourceName := js "HoopsHype";
              TagCrawl.date := js "2025-10-15";
              TagCrawl.lastAnchorText := [] |}.
    split; [|split]; [reflexivity | discriminate | reflexivity].
Qed.

(* ================================================================== *)
(** ** The clone [paragraphHTML] arrives at *)
(* ================================================================== *)

(** Induction on a document tree, the children taken together. *)
Fixpoint Node_forall_ind (P : Node -> Prop)
         (HT : forall d, P (Text d)) (HC : forall d, P (Comment d))
         (HE : forall t a kids, Forall P kids -> P (Element t a kids))
         (n : Node) : P n :=
  match n with
  | Text d => HT d
  | Comment d => HC d
  | Element t a kids =>
      HE t a kids
         ((fix go (l : list Node) : Forall P l :=
             match l with
             | [] => Forall_nil P
             | c :: r => Forall_cons c (Node_forall_ind HT HC HE c) (go r)
             end) kids)
  end.

(** The positions of the element [c], child number [i], and of the
    elements below it. *)
Definition headPaths (i : nat) (c : Node) : list Path :=
  match c with
  | Element _ _ _ => [i] :: map (cons i) (elementPaths c)
  | _ => []
  end.

(** The positions of the elements below the children [l], the first of
    them being child number [i]. *)
Fixpoint kidPaths (i : nat) (l : list Node) : list Path :=
  match l with
  | [] => []
  | c :: r => headPaths i c ++ kidPaths (S i) r
  end.

Lemma elementPaths_kids t a kids :
  elementPaths (Element t a kids) = kidPaths 0 kids.
Proof. reflexivity. Qed.

Lemma kidPaths_nonempty i l : Forall (fun p => p <> []) (kidPaths i l).
Proof.
  revert i. induction l as [|c r IH]; intros i; cbn [kidPaths]; [constructor|].
  apply Forall_app. split; [|apply IH].
  destruct c; cbn [headPaths]; try constructor; try discriminate.
  apply Forall_forall. intros p Hp. apply in_map_iff in Hp as (p' & <- & _).
  discriminate.
Qed.

Lemma nth_error_middle {A : Type} (done : list A) x r :
  nth_error (done ++ x :: r) (List.length done) = Some x.
Proof. induction done as [|y done IH]; [reflexivity|exact IH]. Qed.

Lemma updateNth_middle {A : Type} (f : A -> A) (done : list A) x r :
  updateNth (List.length done) f (done ++ x :: r) = done ++ f x :: r.
Proof.
  induction done as [|y done IH]; [reflexivity|].
  cbn [List.length app updateNth]. now rewrite IH.
Qed.

Section Sanitize.
Context {E : Engine}.

(** A step below child number [length done] is a step on that child. *)
Lemma sanitizeStep_child t a done n r p :
  sanitizeStep (Element t a (done ++ n :: r)) (List.length done :: p)
  = Element t a (done ++ sanitizeStep n p :: r).
Proof.
  unfold sanitizeStep. cbn [getAt]. rewrite nth_error_middle.
  destruct (getAt n p) as [[d|d|t' a' kids']|]; try reflexivity.
  destruct (isAnchorTag t'); cbn [setAt]; now rewrite updateNth_middle.
Qed.

Lemma sanitize_fold_child t a done r ps n :
  fold_left sanitizeStep (map (cons (List.length done)) ps)
            (Element t a (done ++ n :: r))
  = Element t a (done ++ fold_left sanitizeStep ps n :: r).
Proof.
  revert n. induction ps as [|p ps IH]; intros n; [reflexivity|].
  cbn [map fold_left]. now rewrite sanitizeStep_child, IH.
Qed.

(** Steps at positions below a text node find nothing there. *)
Lemma sanitize_fold_text d ps :
  Forall (fun p => p <> []) ps -> fold_left sanitizeStep ps (Text d) = Text d.
Proof.
  induction 1 as [|p ps Hp _ IH]; [reflexivity|].
  cbn [fold_left]. destruct p as [|i p]; [contradiction|]. exact IH.
Qed.

(** The loop on the children [kids] of an element leaves it with the
    children sanitised. *)
Definition kidsDone (kids : list Node) : Prop :=
  forall t a,
    fold_left sanitizeStep (kidPaths 0 kids) (Element t a kids)
    = Element t a (map sanitize kids).

Definition nodeDone (n : Node) : Prop :=
  match n with
  | Element _ _ kids => kidsDone kids
  | _ => True
  end.

(** The step at an element followed by the steps below it. *)
Lemma sanitize_whole n :
  nodeDone n ->
  fold_left sanitizeStep
    (match n with Element _ _ _ => [] :: elementPaths n | _ => [] end) n
  = sanitize n.
Proof.
  destruct n as [d|d|t a kids]; try reflexivity.
  intros H. cbn [fold_left]. unfold sanitizeStep at 2. cbn [getAt sanitize].
  destruct (isAnchorTag t); cbn [setAt].
  - rewrite elementPaths_kids. apply H.
  - rewrite orEmpty_id. apply sanitize_fold_text.
    rewrite elementPaths_kids. apply kidPaths_nonempty.
Qed.

Lemma sanitize_kids_from t a done kids :
  Forall nodeDone kids ->
  fold_left sanitizeStep (kidPaths (List.length done) kids)
            (Element t a (done ++ kids))
  = Element t a (done ++ map sanitize kids).
Proof.
  intros H. revert done. induction H as [|c r Hc Hr IH]; intros done;
    [reflexivity|].
  cbn [kidPaths map]. rewrite fold_left_app.
  assert (Hhead :
    fold_left sanitizeStep (headPaths (List.length done) c)
              (Element t a (done ++ c :: r))
    = Element t a (done ++ sanitize c :: r)).
  { rewrite <- (sanitize_whole c Hc).
    destruct c as [d|d|tc ac kc]; try reflexivity.
    change (headPaths (List.length done) (Element tc ac kc))
      with (map (cons (List.length done))
              ([] :: elementPaths (Element tc ac kc))).
    apply sanitize_fold_child. }
  rewrite Hhead.
  replace (S (List.length done)) with (List.length (done ++ [sanitize c]))
    by (rewrite length_app; cbn; lia).
  replace (done ++ sanitize c :: r) with ((done ++ [sanitize c]) ++ r)
    by now rewrite <- app_assoc.
  rewrite IH. now rewrite <- app_assoc.
Qed.

Lemma every_node_done n : nodeDone n.
Proof.
  induction n as [d|d|t a kids IH] using Node_forall_ind; try exact I.
  intros t' a'. apply (sanitize_kids_from t' a' [] IH).
Qed.

(** The loop of [paragraphHTML] arrives at [sanitizedClone]. *)
Lemma sanitize_loop p :
  fold_left sanitizeStep (elementPaths p) p = sanitizedClone p.
Proof.
  destruct p as [d|d|t a kids]; try reflexivity.
  rewrite elementPaths_kids. apply (every_node_done (Element t a kids)).
Qed.

End Sanitize.

(** ** What the clone is made of *)

(** The [href] attributes of an element. *)
Definition hrefOnly (a : Attrs) : Attrs :=
  filter (fun na => jsstring_eqb (fst na) (js "href")) a.

(** [target="_blank"], for an element whose [href] is not empty. *)
Definition targetBlank (a : Attrs) : Attrs :=
  match getAttribute (js "href") a with
  | Some (_ :: _) => [(js "target", js "_blank")]
  | _ => []
  end.

Lemma setAttribute_absent name value a :
  Forall (fun na => jsstring_eqb (fst na) name = false) a ->
  setAttribute name value a = a ++ [(name, value)].
Proof.
  induction 1 as [|[n v] a Hn _ IH]; [reflexivity|].
  cbn [setAttribute app]. cbn [fst] in Hn. now rewrite Hn, IH.
Qed.

Lemma removeAttribute_absent name a :
  Forall (fun na => jsstring_eqb (fst na) name = false) a ->
  removeAttribute name a = a.
Proof.
  unfold removeAttribute. induction 1 as [|na a Hn _ IH]; [reflexivity|].
  cbn [filter]. now rewrite Hn, IH.
Qed.

Lemma hrefOnly_names a (other : jsstring) :
  other <> js "href" ->
  Forall (fun na => jsstring_eqb (fst na) other = false) (hrefOnly a).
Proof.
  intros Ho. apply Forall_forall. intros na Hin.
  apply filter_In in Hin as [_ Hn]. apply jsstring_eqb_eq in Hn.
  apply jsstring_eqb_neq. congruence.
Qed.

(** What the loop leaves of the attributes of an anchor: its [href], and
    [target="_blank"] behind it when the [href] is not empty. *)
Lemma anchorAttrs_eq a : anchorAttrs a = hrefOnly a ++ targetBlank a.
Proof.
  unfold anchorAttrs, targetBlank. fold (hrefOnly a).
  assert (R : Forall (fun na => jsstring_eqb (fst na) (js "rel") = false)
                     (hrefOnly a)) by now apply hrefOnly_names.
  destruct (getAttribute (js "href") a) as [[|c h]|].
  - rewrite app_nil_r. now apply removeAttribute_absent.
  - rewrite setAttribute_absent by now apply hrefOnly_names.
    apply removeAttribute_absent. apply Forall_app. split; [exact R|].
    now repeat constructor.
  - rewrite app_nil_r. now apply removeAttribute_absent.
Qed.

(** A node of the clone: text, a comment, or an anchor whose children
    are such nodes again. *)
Inductive Sanitized {E : Engine} : Node -> Prop :=
| SanText d : Sanitized (Text d)
| SanComment d : Sanitized (Comment d)
| SanAnchor t a kids :
    isAnchorTag t = true -> Forall Sanitized kids ->
    Sanitized (Element t (hrefOnly a ++ targetBlank a) kids).

Lemma sanitize_Sanitized {E : Engine} n : Sanitized (sanitize n).
Proof.
  induction n as [d|d|t a kids IH] using Node_forall_ind;
    try (cbn [sanitize]; constructor).
  cbn [sanitize]. destruct (isAnchorTag t) eqn:Ht; [|constructor].
  rewrite anchorAttrs_eq. constructor; [exact Ht|].
  induction IH; cbn [map]; constructor; assumption.
Qed.

(** The children of the clone. *)
Definition cloneChildren {E : Engine} (p : Node) : list Node :=
  match sanitizedClone p with
  | Element _ _ kids => kids
  | _ => []
  end.

Lemma isAnchorTag_a {E : Engine} : isAnchorTag (js "a") = true.
Proof. unfold isAnchorTag. now rewrite toLowerCase_ascii. Qed.

Lemma isAnchorTag_b {E : Engine} : isAnchorTag (js "b") = false.
Proof. unfold isAnchorTag. now rewrite toLowerCase_ascii. Qed.

(** C4, as the code has it.  The snippet is the serialisation of the
    clone with runs of whitespace collapsed and the ends trimmed.  In the
    clone every child element of the block that is not an anchor, with
    all that is below it, has become the text below it; an anchor keeps
    its children, treated the same way, and of its attributes its
    [href], to which [target="_blank"] is added when the [href] is not
    empty. *)
Theorem paragraphHTML_clone (E : Engine) (p : Node) :
  paragraphHTML p
  = trim (replaceRuns isWhiteSpace (js " ") false (innerHTML (sanitizedClone p)))
  /\ (forall t a kids,
        sanitizedClone (Element t a kids) = Element t a (map sanitize kids))
  /\ (forall t a kids,
        sanitize (Element t a kids)
        = if isAnchorTag t
          then Element t (hrefOnly a ++ targetBlank a) (map sanitize kids)
          else Text (textOf (Element t a kids)))
  /\ (forall d, sanitize (Text d) = Text d /\ sanitize (Comment d) = Comment d)
  /\ Forall Sanitized (cloneChildren p).
Proof.
  repeat split.
  - unfold paragraphHTML. now rewrite sanitize_loop.
  - intros t a kids. cbn [sanitize]. now rewrite anchorAttrs_eq.
  - unfold cloneChildren. destruct p as [d|d|t a kids]; try constructor.
    cbn [sanitizedClone]. apply Forall_forall. intros n Hn.
    apply in_map_iff in Hn as (m & <- & _). apply sanitize_Sanitized.
Qed.

(** A paragraph with one link:
    [<p>See <a class="c" href="https://x.com/a">ESPN</a></p>]. *)
Definition linkedParagraph : Node :=
  Element (js "p") []
    [ Text (js "See ");
      Element (js "a") [(js "class", js "c"); (js "href", js "https://x.com/a")]
              [Text (js "ESPN")] ].

(** With words only [href] would be left on the anchor; the code leaves
    [href] and [target]. *)
Lemma paragraphHTML_adds_target :
  exists p, forall E : Engine,
    paragraphHTML p
    = js "See <a href=" ++ [34] ++ js "https://x.com/a" ++ [34]
      ++ js " target=" ++ [34] ++ js "_blank" ++ [34] ++ js ">ESPN</a>"
    /\ paragraphHTML_spec p
       = js "See <a href=" ++ [34] ++ js "https://x.com/a" ++ [34]
         ++ js ">ESPN</a>"
    /\ paragraphHTML p <> paragraphHTML_spec p.
Proof.
  exists linkedParagraph. intros E.
  assert (H1 : paragraphHTML linkedParagraph
    = js "See <a href=" ++ [34] ++ js "https://x.com/a" ++ [34]
      ++ js " target=" ++ [34] ++ js "_blank" ++ [34] ++ js ">ESPN</a>").
  { rewrite (proj1 (paragraphHTML_clone E linkedParagraph)).
    unfold linkedParagraph. cbn [sanitizedClone map sanitize].
    rewrite isAnchorTag_a. now vm_compute. }
  assert (H2 : paragraphHTML_spec linkedParagraph
    = js "See <a href=" ++ [34] ++ js "https://x.com/a" ++ [34]
      ++ js ">ESPN</a>").
  { unfold paragraphHTML_spec, linkedParagraph. cbn [map specSanitize].
    rewrite isAnchorTag_a. now vm_compute. }
  split; [exact H1|]. split; [exact H2|].
  rewrite H1, H2. now vm_compute.
Qed.


(* ================================================================== *)
(** ** Runs of a class replaced by one separator *)
(* ================================================================== *)

Section Separated.
Variable p : N -> bool.
Variable sep : N.
Hypothesis p_sep : p sep = true.

(** Every code unit of the class is the separator and follows a code
    unit outside the class; [prev] tells that the code unit before [s]
    was of the class, or that [s] is where the text begins. *)
Fixpoint separated (prev : bool) (s : jsstring) : bool :=
  match s with
  | [] => true
  | c :: r =>
      if p c then negb prev && (c =? sep) && separated true r
      else separated false r
  end.

(** The last code unit is outside the class. *)
Fixpoint endsOutside (s : jsstring) : bool :=
  match s with
  | [] => true
  | c :: r => match r with [] => negb (p c) | _ :: _ => endsOutside r end
  end.

Lemma runs_separated b s : separated b (replaceRuns p [sep] b s) = true.
Proof.
  revert b. induction s as [|c r IH]; intros b; [reflexivity|].
  cbn [replaceRuns]. destruct (p c) eqn:Hc.
  - destruct b; [apply IH|].
    cbn [app separated]. now rewrite p_sep, N.eqb_refl, IH.
  - cbn [separated]. rewrite Hc. apply IH.
Qed.

Lemma dropWhile_separated b s :
  separated b s = true -> separated true (dropWhile p s) = true.
Proof.
  revert b. induction s as [|c r IH]; intros b; [reflexivity|].
  cbn [separated dropWhile]. destruct (p c) eqn:Hc.
  - intros H. apply andb_true_iff in H as [_ H]. now apply IH in H.
  - intros H. cbn [separated]. now rewrite Hc.
Qed.

Lemma dropWhileEnd_separated b s :
  separated b s = true -> separated b (dropWhileEnd p s) = true.
Proof.
  revert b. induction s as [|c r IH]; intros b; [reflexivity|].
  rewrite dropWhileEnd_cons. cbn [separated]. destruct (p c) eqn:Hc.
  - intros H. apply andb_true_iff in H as [H Hr]. apply IH in Hr.
    destruct (dropWhileEnd p r) as [|d r'] eqn:Hd; [reflexivity|].
    cbn [separated] in Hr |- *. now rewrite Hc, H.
  - intros Hr. apply IH in Hr.
    destruct (dropWhileEnd p r) as [|d r'] eqn:Hd.
    + cbn [separated]. now rewrite Hc.
    + cbn [separated] in Hr |- *. now rewrite Hc.
Qed.

Lemma dropWhileEnd_endsOutside s : endsOutside (dropWhileEnd p s) = true.
Proof.
  induction s as [|c r IH]; [reflexivity|].
  rewrite dropWhileEnd_cons.
  destruct (dropWhileEnd p r) as [|d r'] eqn:Hd.
  - destruct (p c) eqn:Hc; [reflexivity|]. cbn [endsOutside]. now rewrite Hc.
  - exact IH.
Qed.

Lemma separated_runs b b' s :
  separated b s = true -> (b' = true -> b = true) ->
  replaceRuns p [sep] b' s = s.
Proof.
  revert b b'. induction s as [|c r IH]; intros b b' H Hb; [reflexivity|].
  cbn [separated] in H. cbn [replaceRuns]. destruct (p c) eqn:Hc.
  - apply andb_true_iff in H as [H Hr]. apply andb_true_iff in H as [Hp Hs].
    apply negb_true_iff in Hp. apply N.eqb_eq in Hs. subst c b.
    destruct b'; [now discriminate Hb|].
    cbn [app]. f_equal. now apply (IH true true).
  - f_equal. now apply (IH false false).
Qed.

Lemma separated_dropWhile s : separated true s = true -> dropWhile p s = s.
Proof.
  destruct s as [|c r]; [reflexivity|]. cbn [separated dropWhile].
  destruct (p c); [discriminate|reflexivity].
Qed.

Lemma endsOutside_dropWhileEnd s : endsOutside s = true -> dropWhileEnd p s = s.
Proof.
  induction s as [|c r IH]; [reflexivity|].
  rewrite dropWhileEnd_cons. cbn [endsOutside]. destruct r as [|d r'].
  - intros H. apply negb_true_iff in H. cbn [dropWhileEnd]. now rewrite H.
  - intros H. now rewrite (IH H).
Qed.

End Separated.

(* ================================================================== *)
(** ** [clean] *)
(* ================================================================== *)

(** A text as [clean] leaves it: no white space at its ends, and no
    white space inside it other than single spaces. *)
Definition isClean (s : jsstring) : bool :=
  separated isWhiteSpace 32 true s && endsOutside isWhiteSpace s.

Lemma clean_isClean s : isClean (clean s) = true.
Proof.
  unfold isClean, clean, trim. rewrite orEmpty_id.
  apply andb_true_iff. split.
  - apply dropWhileEnd_separated.
    apply (@dropWhile_separated isWhiteSpace 32 false).
    change (js " ") with [32].
    now apply (@runs_separated isWhiteSpace 32 eq_refl false).
  - apply dropWhileEnd_endsOutside.
Qed.

Lemma clean_fixes_clean s : isClean s = true -> clean s = s.
Proof.
  unfold isClean, clean, trim. intros H. apply andb_true_iff in H as [H1 H2].
  rewrite orEmpty_id.
  change (js " ") with [32].
  rewrite (@separated_runs isWhiteSpace 32 true false s H1) by discriminate.
  rewrite (@separated_dropWhile isWhiteSpace 32 s H1).
  now apply endsOutside_dropWhileEnd.
Qed.

(** X7.  [clean] returns a text without white space at either end in
    which every white-space code unit is a single space between two
    other code units; it leaves such a text as it is, and so applying
    it twice is applying it once. *)
Theorem clean_normal_form (s : jsstring) :
  isClean (clean s) = true
  /\ clean (clean s) = clean s
  /\ (forall t, isClean t = true -> clean t = t).
Proof.
  split; [apply clean_isClean|]. split.
  - apply clean_fixes_clean, clean_isClean.
  - apply clean_fixes_clean.
Qed.

Lemma slugTail_facts r :
  slugTail r = true ->
  noDoubleUnderscore r = true /\ endsOutside (N.eqb 95) r = true.
Proof.
  induction r as [|c r IH]; [now split|].
  cbn [slugTail]. destruct (isSlugAlnum c) eqn:Hc.
  - intros Hr. destruct (IH Hr) as [N1 N2].
    pose proof (isSlugAlnum_not95 _ Hc) as H95.
    cbn [noDoubleUnderscore endsOutside]. rewrite H95.
    destruct r; [|now split]. split; [reflexivity|].
    now rewrite N.eqb_sym, H95.
  - intros H. apply andb_true_iff in H as [H Hr].
    apply andb_true_iff in H as [_ Hd].
    destruct r as [|d r']; [discriminate|].
    destruct (IH Hr) as [N1 N2].
    pose proof (isSlugAlnum_not95 _ Hd) as H95.
    split; [|exact N2].
    change (noDoubleUnderscore (c :: d :: r'))
      with (negb ((c =? 95) && (d =? 95)) && noDoubleUnderscore (d :: r')).
    now rewrite H95, andb_false_r.
Qed.

(** X8.  Whatever the subject, [slugify] returns a slug: code units of
    [[a-z0-9_]] only, no underscore at either end and no two underscores
    in a row. *)
Theorem slugify_returns_slug (E : Engine) (x : jsstring) :
  forallb isSlugChar (slugify x) = true
  /\ notUnderscoreFirst (slugify x) = true
  /\ endsOutside (N.eqb 95) (slugify x) = true
  /\ noDoubleUnderscore (slugify x) = true.
Proof.
  pose proof (slugify_isSlug x) as H.
  split; [now apply isSlug_chars|].
  destruct (slugify x) as [|c r]; [now repeat split|].
  cbn [isSlug] in H. apply andb_true_iff in H as [Hc Hr].
  pose proof (isSlugAlnum_not95 _ Hc) as H95.
  destruct (slugTail_facts _ Hr) as [N1 N2].
  split; [|split].
  - unfold notUnderscoreFirst. now rewrite H95.
  - cbn [endsOutside]. destruct r; [|exact N2]. now rewrite N.eqb_sym, H95.
  - cbn [noDoubleUnderscore]. destruct r; [reflexivity|]. now rewrite H95.
Qed.

(* ================================================================== *)
(** ** Where the date pattern matches *)
(* ================================================================== *)

Lemma span_app p a b :
  forallb p a = true -> hd_error (map p b) <> Some true ->
  span p (a ++ b) = (a, b).
Proof.
  intros Ha Hb. induction a as [|x a IH]; cbn [app].
  - destruct b as [|c r]; [reflexivity|]. cbn [span].
    cbn [map hd_error] in Hb. destruct (p c); [now elim Hb|reflexivity].
  - cbn [forallb] in Ha. apply andb_true_iff in Ha as [Hx Ha].
    cbn [span]. now rewrite Hx, (IH Ha).
Qed.

Lemma span_app_left p s t a b :
  span p s = (a, b) -> b <> [] -> span p (s ++ t) = (a, b ++ t).
Proof.
  revert a b. induction s as [|c r IH]; intros a b; cbn [span app].
  - intros [= <- <-] H. now elim H.
  - destruct (p c) eqn:Hc.
    + destruct (span p r) as [a' b'] eqn:Hs. intros [= <- <-] Hb.
      now rewrite (IH _ _ eq_refl Hb).
    + intros [= <- <-] _. reflexivity.
Qed.

Lemma span_rest p s a c r : span p s = (a, c :: r) -> p c = false.
Proof.
  revert a. induction s as [|x s IH]; intros a; cbn [span]; [discriminate|].
  destruct (p x) eqn:Hx.
  - destruct (span p s) as [a' b'] eqn:Hs. intros [= <- ->]. now apply (IH a').
  - now intros [= <- <- <-].
Qed.

Lemma span_endsOutside p s :
  endsOutside p s = true -> s <> [] -> snd (span p s) <> [].
Proof.
  induction s as [|c r IH]; [easy|]. intros H _. cbn [span].
  destruct (p c) eqn:Hc; [|discriminate].
  destruct r as [|d r'].
  - cbn [endsOutside] in H. now rewrite Hc in H.
  - assert (Hr : snd (span p (d :: r')) <> []) by now apply IH.
    now destruct (span p (d :: r')).
Qed.

(** The pattern behind the first white space, its comma found by
    comparison. *)
Definition dayPart (m1 r2 : jsstring)
  : option (jsstring * jsstring * jsstring) :=
  match r2 with
  | d1 :: c2 :: r3 =>
      if c2 =? 44
      then (if isDigit d1 then dateAfterDay m1 [d1] r3 else None)
      else match r3 with
           | c3 :: r4 =>
               if c3 =? 44
               then (if isDigit d1 && isDigit c2
                     then dateAfterDay m1 [d1; c2] r4 else None)
               else None
           | [] => None
           end
  | _ => None
  end.

Lemma comma_third (X : jsstring -> option (jsstring * jsstring * jsstring))
      c3 r4 :
  match c3 :: r4 with
  | 44 :: r3 => X r3
  | _ => None
  end = if c3 =? 44 then X r4 else None.
Proof.
  destruct (N.eqb_spec c3 44) as [->|Hne]; [reflexivity|].
  destruct c3 as [|q]; [reflexivity|].
  do 6 (destruct q as [q|q|]; try reflexivity). congruence.
Qed.

Lemma dateHere_dayPart s :
  dateHere s
  = match span isLetter s with
    | ([], _) => None
    | (m1, r1) =>
        match span isWhiteSpace r1 with
        | ([], _) => None
        | (_, r2) => dayPart m1 r2
        end
    end.
Proof.
  unfold dateHere. destruct (span isLetter s) as [[|l ls] r1]; [reflexivity|].
  destruct (span isWhiteSpace r1) as [[|w ws] r2]; [reflexivity|].
  unfold dayPart. destruct r2 as [|d1 [|c2 r3]]; try reflexivity.
  destruct (N.eqb_spec c2 44) as [->|Hne]; [reflexivity|].
  destruct r3 as [|c3 r4].
  - destruct c2 as [|q]; [reflexivity|].
    do 6 (destruct q as [q|q|]; try reflexivity). congruence.
  - rewrite <- (comma_third
                  (fun r3 => if isDigit d1 && isDigit c2
                             then dateAfterDay (l :: ls) [d1; c2] r3 else None)).
    destruct c2 as [|q]; [reflexivity|].
    do 6 (destruct q as [q|q|]; try reflexivity). congruence.
Qed.

Lemma dayPart_nondigit m1 c l : isDigit c = false -> dayPart m1 (c :: l) = None.
Proof.
  intros Hc. unfold dayPart. destruct l as [|c2 r3]; [reflexivity|].
  rewrite Hc. destruct (c2 =? 44); [reflexivity|].
  destruct r3 as [|c3 r4]; [reflexivity|]. now destruct (c3 =? 44).
Qed.

Lemma digit_facts c :
  isDigit c = true ->
  isWhiteSpace c = false /\ isLetter c = false /\ (c =? 44) = false.
Proof.
  intros H. assert (R : 48 <= c <= 57).
  { revert H. unfold isDigit. intros H. code_units. }
  unfold isWhiteSpace, isLetter, isLower, isUpper.
  repeat split; settle_cmp; reflexivity.
Qed.

Lemma letter_facts c :
  isLetter c = true -> isWhiteSpace c = false /\ isDigit c = false.
Proof.
  intros H. assert (R : (97 <= c <= 122) \/ (65 <= c <= 90)).
  { revert H. unfold isLetter, isLower, isUpper. intros H. code_units. }
  unfold isWhiteSpace, isDigit.
  destruct R as [R|R]; split; settle_cmp; reflexivity.
Qed.

Lemma space_not_letter c : isWhiteSpace c = true -> isLetter c = false.
Proof.
  intros H. destruct (isLetter c) eqn:Hl; [|reflexivity].
  apply letter_facts in Hl as [Hl _]. congruence.
Qed.

Lemma dayPart_day m1 day tail :
  forallb isDigit day = true ->
  (List.length day = 1 \/ List.length day = 2)%nat ->
  dayPart m1 (day ++ 44 :: tail) = dateAfterDay m1 day tail.
Proof.
  intros Hd [L|L].
  - destruct day as [|d1 [|? ?]]; try discriminate.
    cbn [forallb] in Hd. rewrite andb_true_r in Hd.
    cbn [app dayPart]. now rewrite N.eqb_refl, Hd.
  - destruct day as [|d1 [|d2 [|? ?]]]; try discriminate.
    cbn [forallb] in Hd. rewrite andb_true_r in Hd.
    apply andb_true_iff in Hd as [H1 H2].
    cbn [app dayPart]. destruct (digit_facts _ H2) as (_ & _ & ->).
    now rewrite N.eqb_refl, H1, H2.
Qed.

Lemma dateAfterDay_year m1 m2 ws2 year rest :
  ws2 <> [] -> forallb isWhiteSpace ws2 = true ->
  List.length year = 4%nat -> forallb isDigit year = true ->
  dateAfterDay m1 m2 (ws2 ++ year ++ rest) = Some (m1, m2, year).
Proof.
  intros Hn Hw L Hy.
  destruct year as [|y1 [|y2 [|y3 [|y4 [|? ?]]]]]; try discriminate.
  unfold dateAfterDay. rewrite span_app; [|exact Hw|].
  - destruct ws2; [now elim Hn|]. cbn [app]. now rewrite Hy.
  - cbn [app map hd_error]. cbn [forallb] in Hy.
    apply andb_true_iff in Hy as [Hy _].
    destruct (digit_facts _ Hy) as (-> & _). discriminate.
Qed.

(** The pattern matches where a word, white space, one or two digits, a
    comma, white space and four digits begin. *)
Lemma dateHere_at word ws1 day ws2 year rest :
  word <> [] -> forallb isLetter word = true ->
  ws1 <> [] -> forallb isWhiteSpace ws1 = true ->
  (List.length day = 1 \/ List.length day = 2)%nat ->
  forallb isDigit day = true ->
  ws2 <> [] -> forallb isWhiteSpace ws2 = true ->
  List.length year = 4%nat -> forallb isDigit year = true ->
  dateHere (word ++ ws1 ++ day ++ js "," ++ ws2 ++ year ++ rest)
  = Some (word, day, year).
Proof.
  intros Hw Lw Hs1 Ls1 Ld Dd Hs2 Ls2 Ly Dy.
  rewrite dateHere_dayPart. rewrite span_app; [|exact Lw|].
  2:{ destruct ws1 as [|w ws1]; [now elim Hs1|]. cbn [app map hd_error].
      cbn [forallb] in Ls1. apply andb_true_iff in Ls1 as [Ls1 _].
      rewrite (space_not_letter _ Ls1). discriminate. }
  destruct word as [|l ls]; [now elim Hw|].
  rewrite span_app; [|exact Ls1|].
  2:{ destruct day as [|d day]; [destruct Ld; discriminate|].
      cbn [app map hd_error]. cbn [forallb] in Dd.
      apply andb_true_iff in Dd as [Dd _].
      destruct (digit_facts _ Dd) as (-> & _). discriminate. }
  destruct ws1 as [|w ws1]; [now elim Hs1|].
  change (js "," ++ ws2 ++ year ++ rest) with (44 :: ws2 ++ year ++ rest).
  rewrite dayPart_day by assumption.
  now apply dateAfterDay_year.
Qed.

(** The pattern does not match where text without a digit begins that
    ends outside a word and has a word behind it. *)
Lemma dateHere_before pre l t :
  pre <> [] -> forallb (fun c => negb (isDigit c)) pre = true ->
  endsOutside isLetter pre = true -> isLetter l = true ->
  dateHere (pre ++ l :: t) = None.
Proof.
  intros Hn Hd He Hl. rewrite dateHere_dayPart.
  destruct (span isLetter pre) as [a b] eqn:Ha.
  pose proof (@span_endsOutside _ _ He Hn) as Hb. rewrite Ha in Hb. cbn [snd] in Hb.
  rewrite (@span_app_left _ _ (l :: t) _ _ Ha Hb).
  destruct a as [|a0 a]; [reflexivity|].
  apply span_spec in Ha as [-> _].
  rewrite forallb_app in Hd. apply andb_true_iff in Hd as [_ Hd].
  destruct (span isWhiteSpace b) as [w b'] eqn:Hw.
  destruct b' as [|c b''].
  - apply span_spec in Hw as [-> Hw]. rewrite app_nil_r in *.
    rewrite span_app; [|exact Hw|].
    + destruct w; [now elim Hb|].
      apply dayPart_nondigit. now apply letter_facts.
    + cbn [map hd_error]. destruct (letter_facts _ Hl) as [-> _]. discriminate.
  - rewrite (@span_app_left _ _ (l :: t) _ _ Hw) by discriminate.
    destruct w as [|w0 w]; [reflexivity|].
    cbn [app]. apply dayPart_nondigit.
    apply span_spec in Hw as [-> _].
    rewrite forallb_app in Hd. apply andb_true_iff in Hd as [_ Hd].
    cbn [forallb] in Hd. apply andb_true_iff in Hd as [Hd _].
    now apply negb_true_iff in Hd.
Qed.

Lemma endsOutside_tail p c r :
  r <> [] -> endsOutside p (c :: r) = true -> endsOutside p r = true.
Proof. destruct r; [easy|]. now cbn [endsOutside]. Qed.

Lemma dateExec_skips pre l t :
  forallb (fun c => negb (isDigit c)) pre = true ->
  endsOutside isLetter pre = true -> isLetter l = true ->
  dateExec (pre ++ l :: t) = dateExec (l :: t).
Proof.
  intros Hd He Hl. unfold dateExec.
  induction pre as [|c pre IH]; [reflexivity|].
  change ((c :: pre) ++ l :: t) with (c :: (pre ++ l :: t)).
  cbn [firstMatch].
  change (c :: (pre ++ l :: t)) with ((c :: pre) ++ l :: t).
  rewrite dateHere_before by (assumption || discriminate).
  cbn [forallb] in Hd. apply andb_true_iff in Hd as [_ Hd].
  apply IH; [exact Hd|].
  destruct pre; [reflexivity|]. now apply endsOutside_tail in He.
Qed.

Lemma assoc_key {V : Type} k (l : list (jsstring * V)) v :
  assoc k l = Some v -> In k (map fst l).
Proof.
  induction l as [|[k' v'] l IH]; cbn [assoc map fst]; [discriminate|].
  destruct (jsstring_eqb k' k) eqn:Hk.
  - intros _. left. now apply jsstring_eqb_eq.
  - intros H. right. now apply IH.
Qed.

Lemma lowered_letters m :
  forallb isLower (map asciiLower m) = true -> forallb isLetter m = true.
Proof.
  induction m as [|c r IH]; [reflexivity|]. cbn [map forallb].
  intros H. apply andb_true_iff in H as [Hc Hr]. rewrite (IH Hr), andb_true_r.
  revert Hc. unfold asciiLower, isLetter. destruct (isUpper c) eqn:Hu.
  - intros _. apply orb_true_r.
  - intros ->. reflexivity.
Qed.

Lemma month_word_letters word mm :
  assoc (map asciiLower word) MONTHS = Some mm ->
  word <> [] /\ forallb isLetter word = true.
Proof.
  intros H. apply assoc_key in H.
  assert (K : Forall (fun k => k <> [] /\ forallb isLower k = true)
                     (map fst MONTHS)).
  { repeat constructor; discriminate. }
  rewrite Forall_forall in K. destruct (K _ H) as [Kn Kl]. split.
  - intros ->. now apply Kn.
  - now apply lowered_letters.
Qed.

(** X1.  The first date of a text is read.  When a text holds a month
    name in any letter case, white space, a day of one or two digits, a
    comma, white space and a year of four digits, and what comes before
    holds no digit and does not end in a letter, [extractISODate] returns
    the year, the month number in two digits and the day in two digits,
    joined by hyphens, whatever follows the year.  The day is not
    checked against the month. *)
Theorem extractISODate_reads (E : Engine)
        (pre word ws1 day ws2 year rest : jsstring) (mm : N) :
  forallb (fun c => negb (isDigit c)) pre = true ->
  endsOutside isLetter pre = true ->
  assoc (map asciiLower word) MONTHS = Some mm ->
  ws1 <> [] -> forallb isWhiteSpace ws1 = true ->
  (List.length day = 1 \/ List.length day = 2)%nat ->
  forallb isDigit day = true ->
  ws2 <> [] -> forallb isWhiteSpace ws2 = true ->
  List.length year = 4%nat -> forallb isDigit year = true ->
  extractISODate (pre ++ word ++ ws1 ++ day ++ js "," ++ ws2 ++ year ++ rest)
  = year ++ js "-" ++ padStart2 (decimal mm) ++ js "-"
    ++ padStart2 (decimal (parseDigits day)).
Proof.
  intros Hd He Hm Hs1 Ls1 Ld Dd Hs2 Ls2 Ly Dy.
  destruct (month_word_letters _ Hm) as [Hw Lw].
  rewrite extractISODate_unfold, orEmpty_id.
  destruct word as [|l ls]; [now elim Hw|].
  change ((l :: ls) ++ ws1 ++ day ++ js "," ++ ws2 ++ year ++ rest)
    with (l :: (ls ++ ws1 ++ day ++ js "," ++ ws2 ++ year ++ rest)).
  rewrite dateExec_skips; try assumption.
  2:{ cbn [forallb] in Lw. now apply andb_true_iff in Lw as [Lw _]. }
  unfold dateExec.
  change (l :: (ls ++ ws1 ++ day ++ js "," ++ ws2 ++ year ++ rest))
    with ((l :: ls) ++ ws1 ++ day ++ js "," ++ ws2 ++ year ++ rest).
  assert (Hh : dateHere ((l :: ls) ++ ws1 ++ day ++ js "," ++ ws2 ++ year ++ rest)
               = Some (l :: ls, day, year)) by now apply dateHere_at.
  destruct ((l :: ls) ++ ws1 ++ day ++ js "," ++ ws2 ++ year ++ rest);
    cbn [firstMatch]; rewrite Hh.
  - unfold isoFromMatch, objGet. rewrite Hm.
    apply month_two_digits in Hm. unfold monthDigits in Hm.
    apply andb_true_iff in Hm as [Hm _]. apply negb_true_iff in Hm.
    now rewrite Hm.
  - unfold isoFromMatch, objGet. rewrite Hm.
    apply month_two_digits in Hm. unfold monthDigits in Hm.
    apply andb_true_iff in Hm as [Hm _]. apply negb_true_iff in Hm.
    now rewrite Hm.
Qed.

Lemma extractISODate_reads_witness :
  @extractISODate asciiEngine (js "Updated: OCTOBER  5, 2025 at noon")
  = js "2025-10-05".
Proof.
  apply (@extractISODate_reads asciiEngine (js "Updated: ") (js "OCTOBER")
           (js "  ") (js "5") (js " ") (js "2025") (js " at noon") 10);
    try reflexivity; try discriminate.
  now left.
Defined.

(* ================================================================== *)
(** ** The date as it is shown *)
(* ================================================================== *)

Lemma isoShaped_inv s :
  isoShaped s = true ->
  exists y1 y2 y3 y4 m1 m2 d1 d2,
    s = [y1; y2; y3; y4; 45; m1; m2; 45; d1; d2]
    /\ forallb isDigit [y1; y2; y3; y4; m1; m2; d1; d2] = true
    /\ 1 <= parseDigits [m1; m2] <= 12.
Proof.
  destruct s as [|y1 [|y2 [|y3 [|y4 [|c5 r5]]]]]; try discriminate.
  destruct (N.eq_dec c5 45) as [->|Hne].
  2:{ intros H. exfalso. destruct c5 as [|q]; [discriminate H|].
      do 6 (destruct q as [q|q|]; try discriminate H). congruence. }
  destruct r5 as [|m1 [|m2 [|c8 r8]]]; try discriminate.
  destruct (N.eq_dec c8 45) as [->|Hne].
  2:{ intros H. exfalso. destruct c8 as [|q]; [discriminate H|].
      do 6 (destruct q as [q|q|]; try discriminate H). congruence. }
  destruct r8 as [|d1 [|d2 [|? ?]]]; try discriminate.
  unfold isoShaped. intros H.
  apply andb_true_iff in H as [H H12]. apply andb_true_iff in H as [H H1].
  exists y1, y2, y3, y4, m1, m2, d1, d2.
  split; [reflexivity|]. split; [exact H|].
  apply N.leb_le in H1, H12. now split.
Qed.

Lemma monthNames_nth n :
  (n < 12)%nat -> In (nth n TagCrawl.monthNames (js "undefined")) TagCrawl.monthNames.
Proof.
  intros H. apply nth_In. exact H.
Qed.

(** A date of the shape [YYYY-MM-DD] with a month from 01 to 12 is shown
    with the name of that month. *)
Lemma fmtMonthAbbrev_iso s :
  isoShaped s = true ->
  exists name,
    In name TagCrawl.monthNames
    /\ TagCrawl.fmtMonthAbbrev s
       = name ++ js " " ++ decimal (parseDigits (skipn 8 s)) ++ js ", "
         ++ firstn 4 s.
Proof.
  intros H. apply isoShaped_inv in H
    as (y1 & y2 & y3 & y4 & m1 & m2 & d1 & d2 & -> & Hd & H1 & H12).
  exists (nth (N.to_nat (parseDigits [m1; m2] - 1)) TagCrawl.monthNames (js "undefined")).
  split.
  - apply monthNames_nth. lia.
  - unfold TagCrawl.fmtMonthAbbrev. cbn [orEmpty]. rewrite Hd.
    destruct (N.eqb_spec (parseDigits [m1; m2]) 0) as [H0|_]; [lia|].
    reflexivity.
Qed.

(** X9.  What [extractISODate] reads, [fmtMonthAbbrev] can show.  For a
    text whose month word is not [constructor], the date read is empty
    and shown as the empty string, or it is shown as one of the twelve
    month abbreviations, the day without its leading zero, a comma and
    the year: never with [undefined] for the month. *)
Theorem fmtMonthAbbrev_of_extracted (E : Engine) (txt : jsstring) :
  monthWord txt <> Some (js "constructor") ->
  (extractISODate txt = []
   /\ TagCrawl.fmtMonthAbbrev (extractISODate txt) = [])
  \/ (exists name,
        In name TagCrawl.monthNames
        /\ TagCrawl.fmtMonthAbbrev (extractISODate txt)
           = name ++ js " "
             ++ decimal (parseDigits (skipn 8 (extractISODate txt)))
             ++ js ", " ++ firstn 4 (extractISODate txt)).
Proof.
  intros Hk. rewrite extractISODate_unfold. unfold monthWord in Hk.
  destruct (dateExec (orEmpty txt)) as [[[m1 m2] m3]|] eqn:H;
    [|left; now split].
  destruct (@isoFromMatch_shape m1 m2 m3) as [He|Hs].
  - now apply dateExec_groups in H.
  - intros Heq. apply Hk. now rewrite Heq.
  - left. rewrite He. now split.
  - right. now apply fmtMonthAbbrev_iso.
Qed.

Lemma fmtMonthAbbrev_of_extracted_witness :
  TagCrawl.fmtMonthAbbrev (@extractISODate asciiEngine (js "October 5, 2025"))
  = js "Oct. 5, 2025"
  /\ (exists name,
        In name TagCrawl.monthNames
        /\ TagCrawl.fmtMonthAbbrev
             (@extractISODate asciiEngine (js "October 5, 2025"))
           = name ++ js " "
             ++ decimal (parseDigits
                  (skipn 8 (@extractISODate asciiEngine (js "October 5, 2025"))))
             ++ js ", "
             ++ firstn 4 (@extractISODate asciiEngine (js "October 5, 2025"))).
Proof.
  split; [reflexivity|].
  destruct (@fmtMonthAbbrev_of_extracted asciiEngine (js "October 5, 2025"))
    as [[He _]|H].
  - vm_compute. discriminate.
  - discriminate He.
  - exact H.
Defined.

(* ================================================================== *)
(** ** The items of a tag page *)
(* ================================================================== *)

(** An engine whose HTML parser answers with one given document: the
    reference engine reading a page that is known beforehand. *)
Definition pageEngine (doc : Node) : Engine.
Proof.
  refine {| normalizeNFD := fun s => s;
            toLowerCase := map asciiLower;
            canonicalize := fun c => if isLower c then c - 32 else c;
            dateParse := fun _ => None;
            toISOString := fun _ => [];
            encodeURIComponent := fun s => Some s;
            parseHTML := fun _ => doc;
            parseXML := fun _ => None;
            hrefProperty := fun h => h |}.
  - reflexivity.
  - reflexivity.
  - intros u w v _. exists (map asciiLower u), (map asciiLower v).
    now rewrite !map_app.
Defined.

Section PageItems.
Context {E : Engine} {Item : Type}.
Variable mkItem : Node -> jsstring -> jsstring -> Item.

(** [clean(el.textContent || "")] *)
Definition blockText (el : Node) : jsstring :=
  clean (orEmpty (textContent el)).

(** The text of the element holds a date that [extractISODate] reads. *)
Definition carriesDate (el : Node) : bool :=
  negb (falsy (extractISODate (blockText el))).

(** The element is a [p] or an [li]. *)
Definition isItemBlock (el : Node) : bool :=
  jsstring_eqb (orEmpty (toLowerCase (tagName el))) (js "p")
  || jsstring_eqb (orEmpty (toLowerCase (tagName el))) (js "li").

(** [it] was made from a block of [all] that carries no date itself, has
    a text of 15 code units or more, and stands behind an element that
    carries a date with no other such element in between; [it] has that
    date. *)
Definition datedBlock (all : list Node) (it : Item) : Prop :=
  exists pre dateEl mid el post,
    all = pre ++ dateEl :: mid ++ el :: post
    /\ carriesDate dateEl = true
    /\ Forall (fun n => carriesDate n = false) (mid ++ [el])
    /\ isItemBlock el = true
    /\ (15 <= List.length (blockText el))%nat
    /\ it = mkItem el (blockText el) (extractISODate (blockText dateEl)).

(** What the loop knows about the current date after the elements
    [seen]. *)
Definition dateOfLast (seen : list Node) (cur : jsstring) : Prop :=
  cur = []
  \/ exists pre dateEl mid,
       seen = pre ++ dateEl :: mid
       /\ carriesDate dateEl = true
       /\ Forall (fun n => carriesDate n = false) mid
       /\ cur = extractISODate (blockText dateEl).

Lemma dateOfLast_skip seen cur el :
  dateOfLast seen cur -> carriesDate el = false ->
  dateOfLast (seen ++ [el]) cur.
Proof.
  intros [->|(pre & dateEl & mid & -> & Hd & Hm & ->)] Hel; [now left|].
  right. exists pre, dateEl, (mid ++ [el]).
  rewrite <- app_assoc. repeat split; try assumption.
  apply Forall_app. split; [exact Hm|]. now constructor.
Qed.

Lemma scanNodes_inv nodes : forall seen cur out,
  dateOfLast seen cur ->
  Forall (datedBlock (seen ++ nodes)) out ->
  (List.length out < 80)%nat ->
  Forall (datedBlock (seen ++ nodes)) (scanNodes mkItem nodes cur out)
  /\ (List.length (scanNodes mkItem nodes cur out) <= 80)%nat.
Proof.
  induction nodes as [|el rest IH]; intros seen cur out Hc Ho Hl.
  - cbn [scanNodes]. split; [exact Ho|lia].
  - assert (Hall : seen ++ el :: rest = (seen ++ [el]) ++ rest)
      by now rewrite <- app_assoc.
    cbn [scanNodes]. fold (blockText el).
    destruct (negb (falsy (extractISODate (blockText el)))) eqn:Hd.
    + rewrite Hall in *. apply IH; try assumption.
      right. exists seen, el, []. repeat split; try assumption. constructor.
    + assert (Hn : carriesDate el = false) by exact Hd.
      fold (isItemBlock el).
      destruct (negb (isItemBlock el) || falsy cur) eqn:Hb.
      * rewrite Hall in *. apply IH; try assumption.
        now apply dateOfLast_skip.
      * apply orb_false_iff in Hb as [Hb Hf]. apply negb_false_iff in Hb.
        destruct (falsy (blockText el) || (List.length (blockText el) <? 15)%nat)
          eqn:Ht.
        -- rewrite Hall in *. apply IH; try assumption.
           now apply dateOfLast_skip.
        -- apply orb_false_iff in Ht as [_ Ht]. apply Nat.ltb_ge in Ht.
           assert (Hit : datedBlock (seen ++ el :: rest)
                           (mkItem el (blockText el) cur)).
           { destruct Hc as [->|(pre & dateEl & mid & -> & Hdd & Hm & ->)];
               [discriminate Hf|].
             exists pre, dateEl, mid, el, rest.
             rewrite <- app_assoc. repeat split; try assumption.
             apply Forall_app. split; [exact Hm|]. now constructor. }
           assert (Ho' : Forall (datedBlock (seen ++ el :: rest))
                           (out ++ [mkItem el (blockText el) cur])).
           { apply Forall_app. split; [exact Ho|]. now constructor. }
           destruct (80 <=? List.length (out ++ [mkItem el (blockText el) cur]))%nat
             eqn:Hcap.
           ++ split; [exact Ho'|]. rewrite length_app. cbn [List.length]. lia.
           ++ apply Nat.leb_gt in Hcap. rewrite Hall in *.
              apply IH; try assumption. now apply dateOfLast_skip.
Qed.


End PageItems.

(** A tag page: a date heading, two rumors, an older date, one rumor and
    a paragraph too short to count. *)
Definition samplePage : Node :=
  Element (js "html") []
    [ Element (js "head") [] [];
      Element (js "body") []
        [ Element (js "main") []
            [ Element (js "h2") [] [Text (js "October 15, 2025")];
              Element (js "p") []
                [ Text (js "The Knicks are weighing an extension, per ");
                  Element (js "a") [(js "href", js "https://espn.com/a")]
                    [Text (js "ESPN")] ];
              Element (js "li") []
                [ Text (js "Talks have not started yet. ");
                  Element (js "a")
                    [(js "href", js "https://theathletic.com/b");
                     (js "rel", js "nofollow")]
                    [Text (js "The Athletic")] ];
              Element (js "h2") [] [Text (js "October 9, 2025")];
              Element (js "p") []
                [ Element (js "b") [] [Text (js "Brunson")];
                  Text (js " was limited in practice. ");
                  Element (js "a") [(js "href", js "https://nypost.com/c")]
                    [Text (js "New York Post")] ];
              Element (js "p") [] [Text (js "More soon.")] ] ] ].

(** A network that answers every request with an empty page. *)
Definition oneBlankPage : Network :=
  fun _ _ => Responded {| ok := true; status := 200; body := [] |}.



(** The container on two pages.  A [class] attribute is split at ASCII
    white space only, so [a], a no-break space, [content] is one class
    name and not the class [content]: on the first page the container
    is the body, and the rumor outside the [div] is an item as well.
    In a frameset document [document.body] is the frameset: the page is
    read, and has no items. *)
Definition nbspClassPage : Node :=
  Element (js "html") []
    [ Element (js "head") [] [];
      Element (js "body") []
        [ Element (js "h2") [] [Text (js "October 15, 2025")];
          Element (js "p") [] [Text (js "A rumor outside the division.")];
          Element (js "div") [(js "class", js "a" ++ [160] ++ js "content")]
            [ Element (js "p") [] [Text (js "A rumor inside the division.")] ] ] ].

Definition framesetPage : Node :=
  Element (js "html") []
    [ Element (js "head") [] [];
      Element (js "frameset") [] [Element (js "frame") [] []] ].

Lemma container_examples :
  hasClass (js "content") [(js "class", js "a" ++ [160] ++ js "content")]
  = false
  /\ hasClass (js "content") [(js "class", js "a" ++ [11] ++ js "content")]
     = false
  /\ hasClass (js "content")
       [(js "class", [9] ++ js "a" ++ [10] ++ js "content" ++ [12])] = true
  /\ container nbspClassPage = docBody nbspClassPage
  /\ option_map (map r_title)
       (match fst (@parseTagPage (pageEngine nbspClassPage) Rumor
                     TagPlain.blockRumor [] oneBlankPage
                     {| requests := []; dbg := [] |}) with
        | Ok out => Some out
        | Throw _ => None
        end)
     = Some [js "A rumor outside the division.";
             js "A rumor inside the division."]
  /\ fst (@parseTagPage (pageEngine framesetPage) Rumor
            TagPlain.blockRumor [] oneBlankPage
            {| requests := []; dbg := [] |}) = Ok [].
Proof. repeat split; vm_compute; reflexivity. Qed.

(* ================================================================== *)
(** ** Crawling the pages of a tag *)
(* ================================================================== *)

Lemma parseTagPage_cases {E : Engine} {Item : Type}
      (mkItem : Node -> jsstring -> jsstring -> Item) html net st :
  (container (parseHTML html) = None
   /\ exists e, parseTagPage mkItem html net st = (Throw e, st))
  \/ (exists c d,
        container (parseHTML html) = Some c
        /\ parseTagPage mkItem html net st
           = (Ok (scanNodes mkItem (querySelectorAll [[SelAny]] c) [] []),
              {| requests := requests st; dbg := d |})).
Proof.
  unfold parseTagPage. destruct (container (parseHTML html)) as [c|].
  - right. exists c. unfold bind, modifyDbg, ret. cbn [requests dbg].
    eexists. split; reflexivity.
  - left. split; [reflexivity|]. now eexists.
Qed.

Lemma scanNodes_length {E : Engine} {Item : Type}
      (mkItem : Node -> jsstring -> jsstring -> Item) nodes :
  (List.length (scanNodes mkItem nodes [] []) <= 80)%nat.
Proof.
  apply (@scanNodes_inv E Item mkItem nodes [] [] []).
  - now left.
  - constructor.
  - cbn [List.length]. lia.
Qed.

(** One page is asked for, whatever comes of it: the attempt of the page
    loop always goes on, with the page or without. *)
Lemma page_attempt (u k : jsstring) net st :
  exists got d,
    tryCatch (html <- TagPage.fetchText u ;; ret (Some html))
             (fun e => modifyDbg (dbgSet k (DStr (errorText e))) ;;; ret None)
             net st
    = (Ok got, {| requests := requests st ++ [u]; dbg := d |}).
Proof.
  unfold tryCatch, bind, TagPage.fetchText, bind, fetch, throw, ret, modifyDbg.
  destruct (net (requests st) u) as [e|r]; cbn [requests dbg].
  - now do 2 eexists.
  - destruct (negb (ok r)); cbn [requests dbg]; now do 2 eexists.
Qed.

Section KeysSeen.
Context {A : Type}.
Variable keyOf : A -> jsstring.

(** The keys of the items kept so far are distinct and all in [seen]. *)
Definition keysSeen (items : list A) (seen : list jsstring) : Prop :=
  NoDup (map keyOf items) /\ incl (map keyOf items) seen.

Lemma addNew_keysSeen l : forall items seen,
  keysSeen items seen ->
  keysSeen (fst (addNew keyOf l items seen)) (snd (addNew keyOf l items seen)).
Proof.
  induction l as [|it rest IH]; intros items seen [Hn Hi]; cbn [addNew].
  - now split.
  - destruct (existsb (jsstring_eqb (keyOf it)) seen) eqn:Hs.
    + apply IH. now split.
    + apply IH. apply seen_spec_false in Hs. split.
      * rewrite map_app. cbn [map]. apply NoDup_app; [exact Hn| | ].
        -- repeat constructor. easy.
        -- intros k Hk [<-|[]]. apply Hs. now apply Hi.
      * rewrite map_app. cbn [map]. intros k Hk.
        apply in_app_or in Hk as [Hk|[<-|[]]]; [right; now apply Hi|now left].
Qed.

Lemma keepNew_length l seen :
  (List.length (keepNew keyOf l seen) <= List.length l)%nat.
Proof.
  revert seen. induction l as [|it rest IH]; intros seen; cbn [keepNew];
    [reflexivity|].
  destruct (existsb (jsstring_eqb (keyOf it)) seen); cbn [List.length].
  - specialize (IH seen). lia.
  - specialize (IH (keyOf it :: seen)). lia.
Qed.

Lemma addNew_length l items seen :
  (List.length (fst (addNew keyOf l items seen))
   <= List.length items + List.length l)%nat.
Proof.
  rewrite addNew_keepNew, length_app.
  pose proof (keepNew_length l seen). lia.
Qed.

End KeysSeen.

(** The page [u] is there: asked for after the requests [before], the
    network answers with [ok]. *)
Definition pageFetched (net : Network) (before : list jsstring)
           (u : jsstring) : bool :=
  match net before u with
  | Responded r => ok r
  | Rejected _ => false
  end.

(** The requests made once the first [i] of [pages] have been asked
    for. *)
Definition askedFor (enc : jsstring) (pages : list N) (st : State)
           (i : nat) : list jsstring :=
  requests st ++ map (pageUrl enc) (firstn i pages).

(** Page [i] of [pages], counted from 0, is there when its turn
    comes. *)
Definition pageThere (net : Network) (enc : jsstring) (pages : list N)
           (st : State) (i : nat) : bool :=
  pageFetched net (askedFor enc pages st i) (pageUrl enc (nth i pages 0)).

(** The attempt of the page loop goes on with the page when it is there
    and without it when it is not. *)
Lemma page_attempt_got (u k : jsstring) net st :
  exists d,
    tryCatch (html <- TagPage.fetchText u ;; ret (Some html))
             (fun e => modifyDbg (dbgSet k (DStr (errorText e))) ;;; ret None)
             net st
    = (Ok (match net (requests st) u with
           | Responded r => if ok r then Some (body r) else None
           | Rejected _ => None
           end),
       {| requests := requests st ++ [u]; dbg := d |}).
Proof.
  unfold tryCatch, bind, TagPage.fetchText, bind, fetch, throw, ret, modifyDbg.
  destruct (net (requests st) u) as [e|r]; cbn [requests dbg].
  - now eexists.
  - destruct (ok r); cbn [negb requests dbg]; now eexists.
Qed.

Lemma pageThere_first net enc page more st :
  pageThere net enc (page :: more) st 0
  = pageFetched net (requests st) (pageUrl enc page).
Proof.
  unfold pageThere, askedFor. cbn [firstn map nth]. now rewrite app_nil_r.
Qed.

Lemma pageThere_next net enc page more st st1 j :
  requests st1 = requests st ++ [pageUrl enc page] ->
  pageThere net enc (page :: more) st (S j) = pageThere net enc more st1 j.
Proof.
  intros H. unfold pageThere, askedFor. cbn [firstn map nth].
  now rewrite H, <- app_assoc.
Qed.

(** What a crawl of the pages of a tag leaves behind.  The requests made
    are those for the first [n] of the pages, in order.  Every page
    before the last one asked for was there.  When the crawl returns
    before the last page, the page it asked for last was not there, or
    150 items or more are returned; when it throws, that page was there.
    What is returned has distinct keys and fewer than 230 items. *)
Definition crawled (net : Network) (enc : jsstring) (pages : list N)
           (st : State) (run : Result (list TagCrawl.Item) * State) : Prop :=
  exists n,
    (n <= List.length pages)%nat
    /\ (pages <> [] -> 1 <= n)%nat
    /\ requests (snd run) = askedFor enc pages st n
    /\ (forall i, (S i < n)%nat -> pageThere net enc pages st i = true)
    /\ match fst run with
       | Ok out =>
           NoDup (map TagCrawl.itemKey out)
           /\ (List.length out <= 229)%nat
           /\ ((n < List.length pages)%nat ->
               pageThere net enc pages st (n - 1) = false
               \/ (150 <= List.length out)%nat)
       | Throw _ =>
           (1 <= n)%nat /\ pageThere net enc pages st (n - 1) = true
       end.

Lemma crawled_stop net enc page more st (r : Result (list TagCrawl.Item)) d :
  match r with
  | Ok out =>
      NoDup (map TagCrawl.itemKey out)
      /\ (List.length out <= 229)%nat
      /\ (pageFetched net (requests st) (pageUrl enc page) = false
          \/ (150 <= List.length out)%nat)
  | Throw _ => pageFetched net (requests st) (pageUrl enc page) = true
  end ->
  crawled net enc (page :: more) st
    (r, {| requests := requests st ++ [pageUrl enc page]; dbg := d |}).
Proof.
  intros Ho. exists 1%nat. cbn [fst snd requests List.length].
  split; [lia|]. split; [lia|]. split; [reflexivity|].
  split; [intros i Hi; lia|].
  change (1 - 1)%nat with 0%nat. rewrite pageThere_first.
  destruct r as [out|e].
  - destruct Ho as (Hn & Hl & Hs). now repeat split.
  - now split.
Qed.

Lemma crawled_next net enc page more st st1 run :
  requests st1 = requests st ++ [pageUrl enc page] ->
  pageFetched net (requests st) (pageUrl enc page) = true ->
  crawled net enc more st1 run ->
  crawled net enc (page :: more) st run.
Proof.
  intros H1 Hp (n & Hn & Hn1 & Hr & Hb & Ho). exists (S n).
  split; [cbn [List.length]; lia|]. split; [lia|]. split; [|split].
  - rewrite Hr. unfold askedFor. cbn [firstn map].
    now rewrite H1, <- app_assoc.
  - intros [|j] Hj; [now rewrite pageThere_first|].
    rewrite (pageThere_next net enc page more st st1 j H1).
    apply Hb. lia.
  - replace (S n - 1)%nat with n by lia.
    destruct (fst run) as [out|e].
    + destruct Ho as (Hd & Hl & Hs). split; [exact Hd|]. split; [exact Hl|].
      cbn [List.length]. intros Hlt.
      assert (Hm : more <> []) by (intros ->; cbn [List.length] in Hlt; lia).
      specialize (Hn1 Hm). destruct n as [|m]; [lia|].
      rewrite (pageThere_next net enc page more st st1 m H1).
      replace (S m - 1)%nat with m in Hs by lia. apply Hs. lia.
    + destruct Ho as (Hge & Ht). split; [lia|].
      destruct n as [|m]; [lia|].
      rewrite (pageThere_next net enc page more st st1 m H1).
      now replace (S m - 1)%nat with m in Ht by lia.
Qed.

Lemma TagCrawl_collectPages_crawled {E : Engine} slug enc :
  encodeURIComponent slug = Some enc ->
  forall pages items seen net st,
    keysSeen TagCrawl.itemKey items seen -> (List.length items < 150)%nat ->
    crawled net enc pages st
      (TagCrawl.collectPages slug pages items seen net st).
Proof.
  intros Henc. induction pages as [|page more IH]; intros items seen net st Hk Hl.
  - exists 0%nat. cbn [TagCrawl.collectPages]. unfold ret, askedFor.
    cbn [fst snd firstn map List.length]. rewrite app_nil_r.
    split; [lia|]. split; [easy|]. split; [reflexivity|].
    split; [intros i Hi; lia|]. split; [apply Hk|]. split; lia.
  - cbn [TagCrawl.collectPages]. rewrite Henc. unfold bind at 1.
    destruct (@page_attempt_got (pageUrl enc page)
                (js "page" ++ decimal page ++ js "Error_" ++ slug) net st)
      as (d & ->).
    assert (Hgot : match net (requests st) (pageUrl enc page) with
                   | Responded r => if ok r then Some (body r) else None
                   | Rejected _ => None
                   end = None
                   -> pageFetched net (requests st) (pageUrl enc page) = false).
    { unfold pageFetched. destruct (net _ _) as [e|r]; [reflexivity|].
      now destruct (ok r). }
    assert (Hgot' : forall html,
               match net (requests st) (pageUrl enc page) with
               | Responded r => if ok r then Some (body r) else None
               | Rejected _ => None
               end = Some html
               -> pageFetched net (requests st) (pageUrl enc page) = true).
    { unfold pageFetched. intros html. destruct (net _ _) as [e|r];
        [discriminate|]. now destruct (ok r). }
    destruct (match net (requests st) (pageUrl enc page) with
              | Responded r => if ok r then Some (body r) else None
              | Rejected _ => None
              end) as [html|].
    2:{ apply crawled_stop. split; [apply Hk|]. split; [lia|].
        left. now apply Hgot. }
    specialize (Hgot' html eq_refl). clear Hgot.
    unfold bind at 1.
    destruct (@parseTagPage_cases E _ TagCrawl.blockItem html net
                {| requests := requests st ++ [pageUrl enc page]; dbg := d |})
      as [(_ & e & ->)|(c & d' & _ & ->)].
    { now apply crawled_stop. }
    cbn [requests].
    set (parsed := scanNodes TagCrawl.blockItem (querySelectorAll [[SelAny]] c) [] []).
    pose proof (@addNew_keysSeen _ TagCrawl.itemKey parsed items seen Hk) as Hk'.
    pose proof (@addNew_length _ TagCrawl.itemKey parsed items seen) as Hl'.
    pose proof (@scanNodes_length E _ TagCrawl.blockItem (querySelectorAll [[SelAny]] c))
      as Hp. fold parsed in Hp.
    destruct (addNew TagCrawl.itemKey parsed items seen) as [items' seen'].
    cbn [fst snd] in Hk', Hl'.
    destruct (150 <=? List.length items')%nat eqn:Hcap.
    + apply Nat.leb_le in Hcap.
      apply crawled_stop. split; [apply Hk'|]. split; [lia|]. now right.
    + apply Nat.leb_gt in Hcap.
      eapply crawled_next; [|exact Hgot'|apply IH; assumption]. reflexivity.
Qed.

Lemma keysSeen_nil {A : Type} (keyOf : A -> jsstring) : keysSeen keyOf [] [].
Proof. split; [constructor|easy]. Qed.

(** The ten pages of a tag. *)
Definition tenPages : list N := [1; 2; 3; 4; 5; 6; 7; 8; 9; 10].

(** X11.  One tag is crawled with at least one and at most ten requests:
    the pages of the tag, [/rumors/tag/<slug>/], [.../page/2/] and so
    on, asked for in order with none left out.  The crawl goes on while
    the pages are there: every page before the last one asked for
    answered with [ok].  It returns before the tenth page only when the
    page it asked for last was not there or when 150 items or more are
    collected, and it throws only on a page that was there.  The items
    returned have pairwise distinct keys
    ([date::title.slice(0,120)::url]) and there are fewer than 230 of
    them.  When the slug cannot be encoded, nothing is requested. *)
Theorem collectFromOneTag_crawl (E : Engine) (slug : jsstring)
        (net : Network) (st : State) :
  match encodeURIComponent slug with
  | Some enc =>
      exists n,
        (1 <= n <= 10)%nat
        /\ requests (snd (TagCrawl.collectFromOneTag slug net st))
           = requests st ++ map (pageUrl enc) (firstn n tenPages)
        /\ (forall i, (S i < n)%nat ->
              pageThere net enc tenPages st i = true)
        /\ match fst (TagCrawl.collectFromOneTag slug net st) with
           | Ok out =>
               NoDup (map TagCrawl.itemKey out)
               /\ (List.length out <= 229)%nat
               /\ ((n < 10)%nat ->
                   pageThere net enc tenPages st (n - 1) = false
                   \/ (150 <= List.length out)%nat)
           | Throw _ => pageThere net enc tenPages st (n - 1) = true
           end
  | None =>
      exists e, TagCrawl.collectFromOneTag slug net st = (Throw e, st)
  end.
Proof.
  destruct (encodeURIComponent slug) as [enc|] eqn:Henc.
  - destruct (@TagCrawl_collectPages_crawled E slug enc Henc tenPages [] []
                net st (keysSeen_nil _)) as (n & Hn & Hn1 & Hr & Hb & Ho).
    { cbn [List.length]. lia. }
    exists n. split; [split; [now apply Hn1|exact Hn]|].
    split; [exact Hr|]. split; [exact Hb|].
    change (TagCrawl.collectFromOneTag slug net st)
      with (TagCrawl.collectPages slug tenPages [] [] net st).
    destruct (fst (TagCrawl.collectPages slug tenPages [] [] net st))
      as [out|e].
    + exact Ho.
    + apply Ho.
  - unfold TagCrawl.collectFromOneTag. cbn [TagCrawl.collectPages].
    rewrite Henc. now eexists.
Qed.

(* ================================================================== *)
(** ** Picking from a sorted list *)
(* ================================================================== *)

Section Picking.
Context {A : Type}.

Lemma Forall_firstn (P : A -> Prop) n l : Forall P l -> Forall P (firstn n l).
Proof.
  intros H. revert n. induction H as [|x l Hx Hl IH]; intros [|n];
    cbn [firstn]; constructor; auto.
Qed.

Lemma Forall_filter (P : A -> Prop) f l : Forall P l -> Forall P (filter f l).
Proof.
  induction 1 as [|x l Hx Hl IH]; cbn [filter]; [constructor|].
  destruct (f x); [constructor|]; assumption.
Qed.

Lemma StronglySorted_firstn (R : A -> A -> Prop) n l :
  StronglySorted R l -> StronglySorted R (firstn n l).
Proof.
  intros H. revert n. induction H as [|x l Hl IH Hx]; intros [|n];
    cbn [firstn]; constructor; auto using Forall_firstn.
Qed.

Lemma StronglySorted_filter (R : A -> A -> Prop) f l :
  StronglySorted R l -> StronglySorted R (filter f l).
Proof.
  induction 1 as [|x l Hl IH Hx]; cbn [filter]; [constructor|].
  destruct (f x); [constructor|]; auto using Forall_filter.
Qed.

Lemma StronglySorted_slice (R : A -> A -> Prop) from to l :
  StronglySorted R l -> StronglySorted R (slice from to l).
Proof.
  intros H. unfold slice. apply StronglySorted_firstn.
  rewrite <- (firstn_skipn from l) in H.
  now apply StronglySorted_suffix in H.
Qed.

Lemma slice_short from to (l : list A) :
  (List.length (slice from to l) <= to - from)%nat.
Proof. unfold slice. rewrite length_firstn. lia. Qed.

Lemma slice_incl from to (l : list A) : incl (slice from to l) l.
Proof.
  unfold slice. intros x Hx.
  rewrite <- (firstn_skipn from l). apply in_or_app. right.
  rewrite <- (firstn_skipn (to - from) (skipn from l)).
  apply in_or_app. now left.
Qed.

Lemma slice_skip_newest n (l : list A) : slice 1 (S n) l = firstn n (tl l).
Proof. unfold slice. replace (S n - 1)%nat with n by lia. now destruct l. Qed.

End Picking.

(* ================================================================== *)
(** ** What the handlers of the tag crawls answer *)
(* ================================================================== *)

(** An answer of a tag-crawl handler to [event] with at most [n] items,
    left in state [st]:
    - 400 with [Missing q] and no debug object, no request made, when the
      subject is missing;
    - 200 with the trimmed subject and at most [n] items, the debug
      object there exactly when asked for;
    - 500 with a message and the debug object, asked for or not. *)
Definition tagAnswer {I : Type} (n : nat) (event : Event)
           (r : HttpResponse I) (st : State) : Prop :=
  match payload r with
  | ErrorBody e d =>
      (statusCode r = 400 /\ e = js "Missing q" /\ d = None
       /\ requests st = [] /\ trim (orEmptyOpt (q event)) = [])
      \/ (statusCode r = 500 /\ e <> [] /\ d = Some (dbg st)
          /\ trim (orEmptyOpt (q event)) <> [])
  | ItemsBody s items d =>
      statusCode r = 200 /\ s = trim (orEmptyOpt (q event)) /\ s <> []
      /\ (List.length items <= n)%nat
      /\ (debugFlag event = true -> d <> None)
      /\ (debugFlag event = false -> d = None)
  end.

Lemma falsy_false s : falsy s = false -> s <> [].
Proof. now destruct s. Qed.

Lemma falsy_true s : falsy s = true -> s = [].
Proof. now destruct s. Qed.

Lemma messageOr_nonempty e : messageOr e <> [].
Proof. now destruct e. Qed.

Lemma handlerWith_answers {E : Engine} n toPayload event net :
  exists r st,
    invoke (TagCrawl.handlerWith (S n) toPayload event) net = (Ok r, st)
    /\ tagAnswer n event r st.
Proof.
  unfold invoke.
  destruct (falsy (trim (orEmptyOpt (q event)))) eqn:Hq.
  - rewrite handlerWith_missing by exact Hq. do 2 eexists.
    split; [reflexivity|]. left. cbn [json statusCode requests].
    repeat split. now apply falsy_true.
  - rewrite handlerWith_run by exact Hq. cbv zeta. apply falsy_false in Hq.
    destruct (TagCrawl.collectAll _ _ _ _) as [[merged|e] st1];
      do 2 eexists; (split; [reflexivity|]);
      unfold tagAnswer; cbn [payload json statusCode].
    + repeat split; try assumption.
      * rewrite length_map. pose proof (slice_short 1 (S n) (TagCrawl.dedupOf merged)).
        lia.
      * intros ->. discriminate.
      * now intros ->.
    + right. repeat split; try assumption. apply messageOr_nonempty.
Qed.

Lemma plain_handler_answers {E : Engine} event net :
  exists r st,
    invoke (TagPlain.handler event) net = (Ok r, st)
    /\ tagAnswer 5 event r st
    /\ match payload r with
       | ItemsBody _ items _ =>
           Forall (fun x => r_url x <> []) items
           /\ StronglySorted (notOlder r_date) items
       | ErrorBody _ _ => True
       end.
Proof.
  unfold invoke. rewrite plain_handler_cases. cbv zeta.
  destruct (falsy (trim (orEmptyOpt (q event)))) eqn:Hq.
  - do 2 eexists. split; [reflexivity|]. split; [|exact I].
    left. cbn [json statusCode requests]. repeat split. now apply falsy_true.
  - apply falsy_false in Hq.
    unfold TagPlain.collectFromTag, bind, modifyDbg, ret.
    destruct (TagPlain.collectPages _ _ _ _ net _) as [[collected|e] st1].
    + cbn [requests dbg]. do 2 eexists. split; [reflexivity|].
      unfold tagAnswer. cbn [payload json statusCode].
      set (sorted := sortBy (cmpByDate r_date) collected).
      set (top5 := slice 0 5 (filter (fun x => negb (falsy (r_url x))) sorted)).
      split; [|split].
      * repeat split; try assumption.
        -- pose proof (slice_short 0 5
                         (filter (fun x => negb (falsy (r_url x))) sorted)).
           fold top5 in H. lia.
        -- intros ->. discriminate.
        -- now intros ->.
      * apply Forall_forall. intros x Hx. apply slice_incl in Hx.
        apply filter_In in Hx as [_ Hx]. apply negb_true_iff in Hx.
        now apply falsy_false.
      * apply StronglySorted_slice, StronglySorted_filter.
        apply (sortBy_date r_date collected).
    + do 2 eexists. split; [reflexivity|]. split; [|exact I].
      right. cbn [json statusCode dbg]. repeat split; try assumption.
      apply messageOr_nonempty.
Qed.

(** X12.  The handlers of the three tag crawls always answer; none
    throws.  The answer is 400 with [Missing q] before any request when
    the subject is missing; otherwise 200 with the trimmed subject and
    at most eight items (five in the five-item and in the plain
    generation), or 500 with a message that is not empty.  The 500
    answer carries the debug object whether the [debug] parameter was
    given or not.  The items of the plain generation all have a link
    and are in order, newest first. *)
Theorem tag_handlers_answer (E : Engine)
        (anchorEndExec : jsstring -> option (jsstring * jsstring))
        (event : Event) (net : Network) :
  (exists r st,
     invoke (TagCrawl.handler8 anchorEndExec event) net = (Ok r, st)
     /\ tagAnswer 8 event r st)
  /\ (exists r st,
        invoke (TagCrawl.handler5 event) net = (Ok r, st)
        /\ tagAnswer 5 event r st)
  /\ (exists r st,
        invoke (TagPlain.handler event) net = (Ok r, st)
        /\ tagAnswer 5 event r st
        /\ match payload r with
           | ItemsBody _ items _ =>
               Forall (fun x => r_url x <> []) items
               /\ StronglySorted (notOlder r_date) items
           | ErrorBody _ _ => True
           end).
Proof.
  split; [|split].
  - exact (@handlerWith_answers E 8 (TagCrawl.withSuppress anchorEndExec)
             event net).
  - exact (@handlerWith_answers E 5 TagCrawl.basePayload event net).
  - exact (@plain_handler_answers E event net).
Qed.


(** The subjects of a request and the state in which the crawl of their
    tags starts: the debug object holds the subjects and their slugs. *)
Definition subjectSlugs {E : Engine} (event : Event) : list jsstring :=
  map slugify (TagCrawl.subjectsOf (trim (orEmptyOpt (q event)))).

Definition crawlStart {E : Engine} (event : Event) (st : State) : State :=
  {| requests := requests st;
     dbg := [(js "subjects",
              DList (TagCrawl.subjectsOf (trim (orEmptyOpt (q event)))));
             (js "slugs", DList (subjectSlugs event))] |}.

(** X13.  The newest item is left out however few items there are.  When
    the crawl of the tags of a subject returns [merged], the answer holds
    the items of the de-duplicated list from the second on, at most [n]
    of them ([n] is 8 or 5); with one distinct item or none the answer
    has no items. *)
Theorem handler_skips_newest (E : Engine) (n : nat)
        (toPayload : TagCrawl.Item -> TagCrawl.Payload)
        (event : Event) (net : Network) (st st1 : State)
        (merged : list TagCrawl.Item) :
  trim (orEmptyOpt (q event)) <> [] ->
  TagCrawl.collectAll (subjectSlugs event) [] net (crawlStart event st)
  = (Ok merged, st1) ->
  exists r,
    fst (TagCrawl.handlerWith (S n) toPayload event net st) = Ok r
    /\ statusCode r = 200
    /\ itemsOf r = Some (map toPayload (firstn n (tl (TagCrawl.dedupOf merged))))
    /\ ((List.length (TagCrawl.dedupOf merged) <= 1)%nat -> itemsOf r = Some []).
Proof.
  intros Hq Hc.
  assert (Hf : falsy (trim (orEmptyOpt (q event))) = false)
    by now destruct (trim (orEmptyOpt (q event))).
  rewrite handlerWith_run by exact Hf. cbv zeta.
  change (TagCrawl.collectAll _ _ _ _)
    with (TagCrawl.collectAll (subjectSlugs event) [] net (crawlStart event st)).
  rewrite Hc. eexists. split; [reflexivity|]. split; [reflexivity|].
  unfold itemsOf. cbn [payload json fst]. rewrite slice_skip_newest.
  split; [reflexivity|].
  intros Hl. destruct (TagCrawl.dedupOf merged) as [|x [|y l]];
    [now destruct n|now destruct n|cbn [List.length] in Hl; lia].
Qed.

(** A request for one subject, answered from [samplePage] on every page
    of the tag. *)
Definition sampleEvent : Event :=
  {| q := Some (js "Jalen Brunson"); mode := None; debug := None |}.

Definition sampleCrawl : Result (list TagCrawl.Item) * State := Eval vm_compute in
    @TagCrawl.collectAll (pageEngine samplePage)
      (@subjectSlugs (pageEngine samplePage) sampleEvent) [] oneBlankPage
      (@crawlStart (pageEngine samplePage) sampleEvent
         {| requests := []; dbg := [] |}).

Definition sampleMerged : list TagCrawl.Item :=
  match fst sampleCrawl with Ok merged => merged | Throw _ => [] end.

Lemma handler_skips_newest_witness :
  List.length sampleMerged = 3%nat
  /\ exists r,
       fst (@TagCrawl.handlerWith (pageEngine samplePage) 9
              (@TagCrawl.withSuppress (pageEngine samplePage) (fun _ => None)) sampleEvent oneBlankPage
              {| requests := []; dbg := [] |}) = Ok r
       /\ statusCode r = 200
       /\ option_map (map TagCrawl.p_date) (itemsOf r)
          = Some [js "2025-10-15"; js "2025-10-09"].
Proof.
  split; [reflexivity|].
  destruct (@handler_skips_newest (pageEngine samplePage) 8
              (@TagCrawl.withSuppress (pageEngine samplePage) (fun _ => None)) sampleEvent oneBlankPage
              {| requests := []; dbg := [] |} (snd sampleCrawl) sampleMerged)
    as (r & Hr & Hs & Hi & _).
  - discriminate.
  - vm_compute. reflexivity.
  - exists r. split; [exact Hr|]. split; [exact Hs|].
    rewrite Hi. vm_compute. reflexivity.
Defined.

(* ================================================================== *)
(** ** The window of the answer *)
(* ================================================================== *)

(** An answer with the window of [n] items behind the newest: 200, with
    exactly [n] items, the item at position [i] made from the item at
    position [i + 1] of [dedup]; the item at position 0 of [dedup] is
    left out. *)
Definition answersWindow (n : nat)
           (toPayload : TagCrawl.Item -> TagCrawl.Payload)
           (dedup : list TagCrawl.Item)
           (run : Result (HttpResponse TagCrawl.Payload) * State) : Prop :=
  exists r items,
    fst run = Ok r
    /\ statusCode r = 200
    /\ itemsOf r = Some items
    /\ List.length items = n
    /\ (forall i, (i < n)%nat ->
          nth_error items i = option_map toPayload (nth_error dedup (S i)))
    /\ items = map toPayload (firstn n (tl dedup)).

Lemma handlerWith_window {E : Engine} n toPayload event net st st1 merged :
  trim (orEmptyOpt (q event)) <> [] ->
  TagCrawl.collectAll (subjectSlugs event) [] net (crawlStart event st)
  = (Ok merged, st1) ->
  (n + 1 <= List.length (TagCrawl.dedupOf merged))%nat ->
  answersWindow n toPayload (TagCrawl.dedupOf merged)
    (TagCrawl.handlerWith (n + 1) toPayload event net st).
Proof.
  intros Hq Hc Hl.
  assert (Hf : falsy (trim (orEmptyOpt (q event))) = false)
    by now destruct (trim (orEmptyOpt (q event))).
  unfold answersWindow. rewrite handlerWith_run by exact Hf. cbv zeta.
  change (TagCrawl.collectAll _ _ _ _)
    with (TagCrawl.collectAll (subjectSlugs event) [] net (crawlStart event st)).
  rewrite Hc. do 2 eexists. split; [reflexivity|]. split; [reflexivity|].
  split; [reflexivity|].
  destruct (@slice_from_second _ n (TagCrawl.dedupOf merged) Hl)
    as (H1 & H2 & H3).
  split; [now rewrite length_map|]. split.
  - intros i Hi. rewrite nth_error_map, (H2 i Hi).
    now replace (i + 1)%nat with (S i) by lia.
  - now rewrite H3.
Qed.

(** C2.  Skip the newest, answer with the next [N].  When the crawl
    returns and the de-duplicated list has at least nine items, the
    handler of the eight-item generation answers with exactly eight
    items, those at positions 1 to 8 of that list ([dedup.slice(1, 9)]);
    with at least six, the handler of the five-item generation answers
    with exactly five, those at positions 1 to 5 ([dedup.slice(1, 6)]).
    The item at position 0, the newest, is in neither answer. *)
Theorem window_skips_newest (E : Engine)
        (anchorEndExec : jsstring -> option (jsstring * jsstring))
        (event : Event) (net : Network) (st st1 : State)
        (merged : list TagCrawl.Item) :
  trim (orEmptyOpt (q event)) <> [] ->
  TagCrawl.collectAll (subjectSlugs event) [] net (crawlStart event st)
  = (Ok merged, st1) ->
  ((8 + 1 <= List.length (TagCrawl.dedupOf merged))%nat ->
   answersWindow 8 (TagCrawl.withSuppress anchorEndExec)
     (TagCrawl.dedupOf merged)
     (TagCrawl.handler8 anchorEndExec event net st))
  /\ ((5 + 1 <= List.length (TagCrawl.dedupOf merged))%nat ->
      answersWindow 5 TagCrawl.basePayload (TagCrawl.dedupOf merged)
        (TagCrawl.handler5 event net st)).
Proof.
  intros Hq Hc. split; intros Hl.
  - exact (@handlerWith_window E 8 (TagCrawl.withSuppress anchorEndExec)
             event net st st1 merged Hq Hc Hl).
  - exact (@handlerWith_window E 5 TagCrawl.basePayload
             event net st st1 merged Hq Hc Hl).
Qed.

(** A tag page with ten rumors under one date. *)
Definition tenRumorPage : Node :=
  Element (js "html") []
    [ Element (js "head") [] [];
      Element (js "body") []
        [ Element (js "main") []
            (Element (js "h2") [] [Text (js "October 15, 2025")]
             :: map (fun k =>
                       Element (js "p") []
                         [Text (js "A rumor about the Knicks, number "
                                ++ decimal k)])
                    [0; 1; 2; 3; 4; 5; 6; 7; 8; 9]) ] ].

Definition tenCrawl : Result (list TagCrawl.Item) * State := Eval vm_compute in
    @TagCrawl.collectAll (pageEngine tenRumorPage)
      (@subjectSlugs (pageEngine tenRumorPage) sampleEvent) [] oneBlankPage
      (@crawlStart (pageEngine tenRumorPage) sampleEvent
         {| requests := []; dbg := [] |}).

Definition tenMerged : list TagCrawl.Item :=
  match fst tenCrawl with Ok merged => merged | Throw _ => [] end.

Lemma window_skips_newest_witness :
  List.length (TagCrawl.dedupOf tenMerged) = 10%nat
  /\ answersWindow 8
       (@TagCrawl.withSuppress (pageEngine tenRumorPage) (fun _ => None))
       (TagCrawl.dedupOf tenMerged)
       (@TagCrawl.handler8 (pageEngine tenRumorPage) (fun _ => None)
          sampleEvent oneBlankPage {| requests := []; dbg := [] |})
  /\ answersWindow 5 TagCrawl.basePayload
       (TagCrawl.dedupOf tenMerged)
       (@TagCrawl.handler5 (pageEngine tenRumorPage)
          sampleEvent oneBlankPage {| requests := []; dbg := [] |}).
Proof.
  assert (Hl : List.length (TagCrawl.dedupOf tenMerged) = 10%nat)
    by (vm_compute; reflexivity).
  split; [exact Hl|].
  destruct (@window_skips_newest (pageEngine tenRumorPage) (fun _ => None)
              sampleEvent oneBlankPage {| requests := []; dbg := [] |}
              (snd tenCrawl) tenMerged) as [H8 H5].
  - discriminate.
  - vm_compute. reflexivity.
  - split; [apply H8|apply H5]; rewrite Hl; lia.
Defined.

(* ================================================================== *)
(** ** The feed generation: what is requested and what comes back *)
(* ================================================================== *)

Section UniqueBy.
Context {A : Type}.
Variable keyOf : A -> jsstring.

Lemma uniqueBy_inv cap l : forall unique seen,
  keysSeen keyOf unique seen -> (List.length unique < cap)%nat ->
  NoDup (map keyOf (uniqueBy keyOf cap l unique seen))
  /\ (List.length (uniqueBy keyOf cap l unique seen) <= cap)%nat
  /\ incl (uniqueBy keyOf cap l unique seen) (unique ++ l).
Proof.
  induction l as [|m rest IH]; intros unique seen [Hn Hi] Hl;
    cbn [uniqueBy].
  - split; [exact Hn|]. split; [lia|]. now rewrite app_nil_r.
  - destruct (existsb (jsstring_eqb (keyOf m)) seen) eqn:Hs.
    + destruct (IH unique seen) as (I1 & I2 & I3); [now split|exact Hl|].
      split; [exact I1|]. split; [exact I2|].
      intros x Hx. apply I3 in Hx. apply in_app_or in Hx as [Hx|Hx];
        apply in_or_app; [now left|right; now right].
    + apply seen_spec_false in Hs.
      assert (Hk : keysSeen keyOf (unique ++ [m]) (keyOf m :: seen)).
      { split.
        - rewrite map_app. cbn [map]. apply NoDup_app; [exact Hn| |].
          + repeat constructor. easy.
          + intros k Hk [<-|[]]. apply Hs. now apply Hi.
        - rewrite map_app. cbn [map]. intros k Hk.
          apply in_app_or in Hk as [Hk|[<-|[]]];
            [right; now apply Hi|now left]. }
      destruct (cap <=? List.length (unique ++ [m]))%nat eqn:Hcap.
      * split; [apply Hk|]. rewrite length_app. cbn [List.length].
        split; [lia|].
        intros x Hx. apply in_app_or in Hx as [Hx|[<-|[]]];
          apply in_or_app; [now left|right; now left].
      * apply Nat.leb_gt in Hcap.
        destruct (IH (unique ++ [m]) (keyOf m :: seen) Hk Hcap)
          as (I1 & I2 & I3).
        split; [exact I1|]. split; [exact I2|].
        intros x Hx. apply I3 in Hx. rewrite <- app_assoc in Hx. exact Hx.
Qed.

End UniqueBy.

Lemma filterM_incl {A : Type} (p : A -> Result bool) l r :
  filterM p l = Ok r -> Forall (fun x => In x l /\ p x = Ok true) r.
Proof.
  revert r. induction l as [|x l IH]; intros r; cbn [filterM].
  - intros [= <-]. constructor.
  - destruct (p x) as [b|e] eqn:Hx; [|discriminate].
    destruct (filterM p l) as [r'|e]; [|discriminate].
    specialize (IH r' eq_refl).
    assert (IH' : Forall (fun y => In y (x :: l) /\ p y = Ok true) r').
    { eapply Forall_impl; [|exact IH]. intros y [Hy Hp]. split; [now right|exact Hp]. }
    intros [= <-]. destruct b; [|exact IH'].
    constructor; [|exact IH']. split; [now left|exact Hx].
Qed.

(** The hydration of one feed entry asks for its page and returns a
    rumor with the title and the link of the entry, whatever happens. *)
Lemma refineOne_run {E : Engine} it net st :
  exists r,
    FeedIndex.refineOne it net st
    = (Ok r, {| requests := requests st ++ [f_url it]; dbg := dbg st |})
    /\ r_title r = f_title it /\ r_url r = f_url it.
Proof.
  unfold FeedIndex.refineOne, tryCatch, bind, fetch, ret.
  destruct (net (requests st) (f_url it)); eexists; split; reflexivity || now split.
Qed.

Lemma refineAll_run {E : Engine} unique : forall refined net st,
  exists rs,
    FeedIndex.refineAll unique refined net st
    = (Ok (refined ++ rs),
       {| requests := requests st ++ map f_url unique; dbg := dbg st |})
    /\ map r_url rs = map f_url unique.
Proof.
  induction unique as [|it rest IH]; intros refined net st;
    cbn [FeedIndex.refineAll].
  - exists []. unfold ret. rewrite !app_nil_r. split; [now destruct st|reflexivity].
  - unfold bind. destruct (refineOne_run it net st) as (r & -> & _ & Hu).
    destruct (IH (refined ++ [r]) net
                {| requests := requests st ++ [f_url it]; dbg := dbg st |})
      as (rs & -> & Hrs).
    exists (r :: rs). cbn [requests dbg map]. rewrite <- !app_assoc.
    split; [reflexivity|]. now rewrite Hu, Hrs.
Qed.

(** How a run of [getFromRSS] ends: it throws with nothing but the feed
    asked for, or it has hydrated the entries [unique]. *)
Lemma getFromRSS_cases {E : Engine} query md net st :
  (exists e d,
     FeedIndex.getFromRSS query md net st
     = (Throw e, {| requests := requests st ++ [FeedIndex.RUMORS_FEED];
                    dbg := d |}))
  \/ (exists unique rs d,
        FeedIndex.getFromRSS query md net st
        = (Ok (slice 0 5 (sortBy (cmpByDate r_date) rs)),
           {| requests := (requests st ++ [FeedIndex.RUMORS_FEED])
                          ++ map f_url unique;
              dbg := d |})
        /\ map r_url rs = map f_url unique
        /\ NoDup (map f_url unique)
        /\ (List.length unique <= 12)%nat).
Proof.
  unfold FeedIndex.getFromRSS, bind, fetch, lift, throw, ret.
  destruct (net (requests st) FeedIndex.RUMORS_FEED) as [e|res];
    [left; now do 2 eexists|].
  destruct (negb (ok res)); [left; now do 2 eexists|].
  destruct (parseXML (body res)) as [doc|]; [|left; now do 2 eexists].
  destruct (filterM _ (feedItems doc)) as [found|e]; [|left; now do 2 eexists].
  destruct (@uniqueBy_inv _ f_url 12 (slice 0 20 found) [] [])
    as (U1 & U2 & _).
  { apply keysSeen_nil. }
  { cbn [List.length]. lia. }
  destruct (refineAll_run (uniqueBy f_url 12 (slice 0 20 found) [] []) [] net
              {| requests := requests st ++ [FeedIndex.RUMORS_FEED];
                 dbg := dbg st |}) as (rs & -> & Hrs).
  right. exists (uniqueBy f_url 12 (slice 0 20 found) [] []), rs.
  eexists. cbn [requests dbg app]. split; [reflexivity|]. now repeat split.
Qed.

(** X14.  [getFromRSS] asks for the feed first and then for at most
    twelve article pages, no page twice; when it throws, nothing but the
    feed was asked for.  When it returns, it returns at most five
    rumors, newest first, each with the link of one of the pages asked
    for. *)
Theorem getFromRSS_requests (E : Engine) (query md : jsstring)
        (net : Network) (st : State) :
  exists urls,
    requests (snd (FeedIndex.getFromRSS query md net st))
    = requests st ++ FeedIndex.RUMORS_FEED :: urls
    /\ (List.length urls <= 12)%nat
    /\ NoDup urls
    /\ match fst (FeedIndex.getFromRSS query md net st) with
       | Ok out =>
           (List.length out <= 5)%nat
           /\ StronglySorted (notOlder r_date) out
           /\ Forall (fun r => In (r_url r) urls) out
       | Throw _ => urls = []
       end.
Proof.
  destruct (getFromRSS_cases query md net st)
    as [(e & d & ->)|(unique & rs & d & -> & Hrs & Hn & Hl)].
  - exists []. cbn [fst snd requests]. split; [reflexivity|].
    split; [cbn [List.length]; lia|]. split; [constructor|reflexivity].
  - exists (map f_url unique). cbn [fst snd requests].
    rewrite <- app_assoc. split; [reflexivity|].
    split; [now rewrite length_map|]. split; [exact Hn|].
    split; [|split].
    + pose proof (slice_short 0 5 (sortBy (cmpByDate r_date) rs)). lia.
    + apply StronglySorted_slice. apply (sortBy_date r_date rs).
    + apply Forall_forall. intros r Hr. apply slice_incl in Hr.
      apply (Permutation_in _ (proj1 (sortBy_date r_date rs))) in Hr.
      rewrite <- Hrs. now apply in_map.
Qed.

(** The three index pages. *)
Definition indexPages : list jsstring :=
  [FeedIndex.RUMORS_INDEX; FeedIndex.RUMORS_INDEX ++ js "page/2/";
   FeedIndex.RUMORS_INDEX ++ js "page/3/"].

Lemma collectCards_run {E : Engine} pages : forall acc net st,
  (exists e n d,
     FeedIndex.collectCards pages acc net st
     = (Throw e, {| requests := requests st ++ firstn n pages; dbg := d |}))
  \/ (exists cards d,
        FeedIndex.collectCards pages acc net st
        = (Ok cards, {| requests := requests st ++ pages; dbg := d |})).
Proof.
  induction pages as [|u more IH]; intros acc net st;
    cbn [FeedIndex.collectCards].
  - right. exists acc, (dbg st). unfold ret. rewrite app_nil_r. now destruct st.
  - unfold bind, fetch.
    destruct (net (requests st) u) as [e|res].
    + left. exists e, 1%nat. eexists. reflexivity.
    + set (st1 := {| requests := requests st ++ [u]; dbg := dbg st |}).
      assert (Hnext : forall acc',
        (exists e n d,
           FeedIndex.collectCards more acc' net st1
           = (Throw e, {| requests := requests st ++ firstn n (u :: more);
                          dbg := d |}))
        \/ (exists cards d,
              FeedIndex.collectCards more acc' net st1
              = (Ok cards, {| requests := requests st ++ u :: more; dbg := d |}))).
      { intros acc'. destruct (IH acc' net st1)
          as [(e & n & d & ->)|(cards & d & ->)].
        - left. exists e, (S n), d. cbn [st1 requests firstn].
          now rewrite <- app_assoc.
        - right. exists cards, d. cbn [st1 requests]. now rewrite <- app_assoc. }
      destruct (negb (ok res)); apply Hnext.
Qed.

Lemma hydrateCard_run {E : Engine} it net st :
  exists r,
    FeedIndex.hydrateCard it net st
    = (Ok r, {| requests := requests st ++ [FeedIndex.c_url it]; dbg := dbg st |})
    /\ r_title r = FeedIndex.c_title it /\ r_url r = FeedIndex.c_url it.
Proof.
  unfold FeedIndex.hydrateCard, tryCatch, bind, fetch, ret.
  destruct (net (requests st) (FeedIndex.c_url it)); eexists; split; reflexivity || now split.
Qed.

Lemma hydrateCards_run {E : Engine} unique : forall out net st,
  exists rs,
    FeedIndex.hydrateCards unique out net st
    = (Ok (out ++ rs),
       {| requests := requests st ++ map FeedIndex.c_url unique; dbg := dbg st |})
    /\ map r_url rs = map FeedIndex.c_url unique
    /\ map r_title rs = map FeedIndex.c_title unique.
Proof.
  induction unique as [|it rest IH]; intros out net st;
    cbn [FeedIndex.hydrateCards].
  - exists []. unfold ret. rewrite !app_nil_r. split; [now destruct st|now split].
  - unfold bind. destruct (hydrateCard_run it net st) as (r & -> & Ht & Hu).
    destruct (IH (out ++ [r]) net
                {| requests := requests st ++ [FeedIndex.c_url it]; dbg := dbg st |})
      as (rs & -> & Hrs & Hts).
    exists (r :: rs). cbn [requests dbg map]. rewrite <- !app_assoc.
    split; [reflexivity|]. now rewrite Hu, Hrs, Ht, Hts.
Qed.

(** How a run of [getFromIndex] ends: it throws on the way through the
    index pages, or in the matcher with the three pages read, or it has
    hydrated the cards [unique], all accepted by the matcher. *)
Lemma getFromIndex_cases {E : Engine} query md net st :
  (exists e n d,
     FeedIndex.getFromIndex query md net st
     = (Throw e, {| requests := requests st ++ firstn n indexPages; dbg := d |}))
  \/ (exists unique rs d,
        FeedIndex.getFromIndex query md net st
        = (Ok (slice 0 5 (sortBy (cmpByDate r_date) rs)),
           {| requests := (requests st ++ indexPages) ++ map FeedIndex.c_url unique;
              dbg := d |})
        /\ map r_url rs = map FeedIndex.c_url unique
        /\ map r_title rs = map FeedIndex.c_title unique
        /\ NoDup (map FeedIndex.c_url unique)
        /\ (List.length unique <= 12)%nat
        /\ Forall (fun c => matchMode query md (FeedIndex.c_title c) = Ok true) unique).
Proof.
  unfold FeedIndex.getFromIndex, bind, lift, ret. fold indexPages.
  destruct (collectCards_run indexPages [] net st)
    as [(e & n & d & ->)|(cards & d & ->)]; [left; now exists e, n, d|].
  destruct (filterM _ cards) as [filt|e] eqn:Hf.
  2:{ left. exists e, 3%nat, d. reflexivity. }
  apply filterM_incl in Hf.
  destruct (@uniqueBy_inv _ FeedIndex.c_url 12 filt [] []) as (U1 & U2 & U3).
  { apply keysSeen_nil. }
  { cbn [List.length]. lia. }
  destruct (hydrateCards_run (uniqueBy FeedIndex.c_url 12 filt [] []) [] net
              {| requests := requests st ++ indexPages; dbg := d |})
    as (rs & -> & Hrs & Hts).
  right. exists (uniqueBy FeedIndex.c_url 12 filt [] []), rs, d.
  cbn [requests dbg app]. split; [reflexivity|]. repeat split; try assumption.
  apply Forall_forall. intros c Hc. apply U3 in Hc.
  rewrite Forall_forall in Hf. now apply Hf.
Qed.

(** X15.  [getFromIndex] asks for the three index pages in order and
    then for at most twelve article pages, no page twice; it throws only
    before the first article page is asked for.  When it returns, it
    returns at most five rumors, newest first, each with the link of a
    page asked for and a title the matcher accepts. *)
Theorem getFromIndex_requests (E : Engine) (query md : jsstring)
        (net : Network) (st : State) :
  exists n urls,
    requests (snd (FeedIndex.getFromIndex query md net st))
    = requests st ++ firstn n indexPages ++ urls
    /\ (List.length urls <= 12)%nat
    /\ NoDup urls
    /\ match fst (FeedIndex.getFromIndex query md net st) with
       | Ok out =>
           n = 3%nat
           /\ (List.length out <= 5)%nat
           /\ StronglySorted (notOlder r_date) out
           /\ Forall (fun r => In (r_url r) urls
                               /\ matchMode query md (r_title r) = Ok true) out
       | Throw _ => urls = []
       end.
Proof.
  destruct (getFromIndex_cases query md net st)
    as [(e & n & d & ->)
       |(unique & rs & d & -> & Hrs & Hts & Hn & Hl & Hm)].
  - exists n, []. cbn [fst snd requests]. rewrite app_nil_r.
    split; [reflexivity|]. split; [cbn [List.length]; lia|].
    split; [constructor|reflexivity].
  - exists 3%nat, (map FeedIndex.c_url unique). cbn [fst snd requests].
    rewrite <- app_assoc. split; [reflexivity|].
    split; [now rewrite length_map|]. split; [exact Hn|].
    split; [reflexivity|]. split; [|split].
    + pose proof (slice_short 0 5 (sortBy (cmpByDate r_date) rs)). lia.
    + apply StronglySorted_slice. apply (sortBy_date r_date rs).
    + apply Forall_forall. intros r Hr. apply slice_incl in Hr.
      apply (Permutation_in _ (proj1 (sortBy_date r_date rs))) in Hr.
      split; [rewrite <- Hrs; now apply in_map|].
      assert (Ht : In (r_title r) (map FeedIndex.c_title unique))
        by (rewrite <- Hts; now apply in_map).
      apply in_map_iff in Ht as (c & <- & Hc).
      rewrite Forall_forall in Hm. now apply Hm.
Qed.

(** X16.  One invocation of the handler of the feed generation makes at
    most sixteen requests: the feed and up to twelve articles, or the
    feed, the three index pages and up to twelve articles. *)
Theorem feed_handler_requests (E : Engine) (event : Event) (net : Network) :
  (List.length (requests (snd (invoke (FeedIndex.handler event) net))) <= 16)%nat.
Proof.
  unfold invoke, FeedIndex.handler. cbv zeta.
  destruct (falsy (trim (orEmptyOpt (q event)))).
  { unfold ret. cbn [snd requests List.length]. lia. }
  set (qv := trim (orEmptyOpt (q event))). set (md := FeedIndex.modeOf event).
  set (st := {| requests := []; dbg := [] |}).
  unfold tryCatch at 1, bind at 1, tryCatch at 1.
  destruct (getFromRSS_cases qv md net st)
    as [(e & d & ->)|(unique & rs & d & -> & _ & _ & Hl)].
  - destruct (getFromIndex_cases qv md net
                {| requests := requests st ++ [FeedIndex.RUMORS_FEED]; dbg := d |})
      as [(e' & n & d' & ->)|(unique & rs & d' & -> & _ & _ & _ & Hl & _)];
      unfold ret; cbn [snd requests st app].
    + cbn [List.length]. pose proof (firstn_le_length n indexPages).
      rewrite length_firstn. cbn [indexPages List.length]. lia.
    + cbn [List.length]. rewrite length_app, length_map.
      cbn [indexPages List.length]. lia.
  - unfold ret. cbn [snd requests st app List.length].
    rewrite length_map. lia.
Qed.

(* ================================================================== *)
(** ** The source of a rumor *)
(* ================================================================== *)

Lemma viaHere_some {E : Engine} s g :
  viaHere s = Some g ->
  exists c run, g = c :: run /\ ciMember upperLetters c = true.
Proof.
  unfold viaHere. destruct s as [|v [|i [|a rest]]]; try discriminate.
  destruct (ciEq v 118 && ciEq i 105 && ciEq a 97); [|discriminate].
  destruct (span isWhiteSpace rest) as [[|w ws] [|c r]]; try discriminate.
  destruct (ciMember upperLetters c) eqn:Hc; [|discriminate].
  destruct (span (ciMember sourceChars) r) as [[|x run] r']; [discriminate|].
  intros [= <-]. eauto.
Qed.

Lemma dashHere_some first rest s g :
  dashHere first rest s = Some g ->
  exists c run, g = c :: run /\ first c = true.
Proof.
  unfold dashHere. destruct s as [|d r]; [discriminate|].
  destruct ((d =? 45) || (d =? 8211)); [|discriminate].
  destruct (dropWhile isWhiteSpace r) as [|c run]; [discriminate|].
  destruct (first c) eqn:Hc; cbn [andb]; [|discriminate].
  destruct (negb (falsy run) && forallb rest run); [|discriminate].
  intros [= <-]. eauto.
Qed.

Lemma trim_keeps_first c run :
  isWhiteSpace c = false -> trim (c :: run) <> [].
Proof.
  intros Hc. unfold trim. rewrite dropWhile_head by exact Hc.
  destruct (@dropWhileEnd_keeps_first isWhiteSpace c run Hc) as [r' ->].
  discriminate.
Qed.

Lemma orElse_left a b : a <> [] -> orElse a b = a.
Proof. now destruct a. Qed.

(** The engine folds no white-space code unit onto a letter. *)
Definition foldKeepsSpace {E : Engine} : Prop :=
  forall c, isWhiteSpace c = true -> ciMember upperLetters c = false.

Lemma folded_letter_not_space {E : Engine} c :
  foldKeepsSpace -> ciMember upperLetters c = true -> isWhiteSpace c = false.
Proof.
  intros H Hc. destruct (isWhiteSpace c) eqn:Hw; [|reflexivity].
  rewrite (H c Hw) in Hc. discriminate.
Qed.

Lemma normSource_nonempty {E : Engine} text :
  foldKeepsSpace -> normSource text <> [].
Proof.
  intros H. unfold normSource.
  destruct (firstMatch viaHere text) as [g|] eqn:Hv.
  - apply firstMatch_some in Hv as (u & v & _ & Hv).
    apply viaHere_some in Hv as (c & run & -> & Hc).
    apply trim_keeps_first. now apply folded_letter_not_space.
  - destruct (firstMatch (dashHere isUpper isSourceChar) (trim text))
      as [g|] eqn:Hd; [|discriminate].
    apply firstMatch_some in Hd as (u & v & _ & Hd).
    apply dashHere_some in Hd as (c & run & -> & Hc).
    apply trim_keeps_first.
    apply letter_facts. unfold isLetter. now rewrite Hc, orb_true_r.
Qed.

Lemma sourceFrom_nonempty {E : Engine} text :
  foldKeepsSpace -> sourceFrom text <> [].
Proof.
  intros H. unfold sourceFrom.
  destruct (firstMatch viaHere text) as [g|] eqn:Hv.
  - apply firstMatch_some in Hv as (u & v & _ & Hv).
    apply viaHere_some in Hv as (c & run & -> & Hc).
    apply trim_keeps_first. now apply folded_letter_not_space.
  - destruct (firstMatch (dashHere (ciMember upperLetters)
                                   (ciMember sourceChars)) (trim text))
      as [g|] eqn:Hd; [|discriminate].
    apply firstMatch_some in Hd as (u & v & _ & Hd).
    apply dashHere_some in Hd as (c & run & -> & Hc).
    apply trim_keeps_first. now apply folded_letter_not_space.
Qed.

(** X17.  The source of a rumor is never the empty string: [normSource]
    and [sourceFrom] return the trimmed text behind [via] or behind the
    closing dash, which starts with a letter, or ["HoopsHype"].  So in
    [normSource(html) || normSource(it.title)] and in
    [sourceFrom(html) || sourceFrom(title)] the title is never looked
    at.  This holds when the engine folds no white space onto a letter
    under the [i] flag. *)
Theorem source_never_from_title (E : Engine) (html title : jsstring) :
  foldKeepsSpace ->
  normSource html <> []
  /\ orElse (normSource html) (normSource title) = normSource html
  /\ sourceFrom html <> []
  /\ orElse (sourceFrom html) (sourceFrom title) = sourceFrom html.
Proof.
  intros H. split; [now apply normSource_nonempty|].
  split; [now apply orElse_left, normSource_nonempty|].
  split; [now apply sourceFrom_nonempty|].
  now apply orElse_left, sourceFrom_nonempty.
Qed.

Lemma asciiEngine_foldKeepsSpace : @foldKeepsSpace asciiEngine.
Proof.
  intros c Hw. pose proof (@space_not_letter c Hw) as Hl.
  unfold isLetter in Hl. apply orb_false_iff in Hl as [Hlo Hup].
  assert (R : c < 65 \/ 90 < c).
  { revert Hup. unfold isUpper. intros Hup. code_units. }
  unfold ciMember. cbn [canonicalize asciiEngine]. rewrite Hlo.
  change upperLetters
    with [65; 66; 67; 68; 69; 70; 71; 72; 73; 74; 75; 76; 77; 78; 79; 80;
          81; 82; 83; 84; 85; 86; 87; 88; 89; 90].
  cbn [existsb].
  repeat match goal with
         | |- context [isLower (Npos ?n)] =>
             change (isLower (Npos n)) with false
         end.
  cbv iota. destruct R as [R|R]; settle_cmp; reflexivity.
Qed.

Lemma source_never_from_title_witness :
  @normSource asciiEngine (js "<p>Deal is close, via ESPN</p>") <> []
  /\ orElse (@normSource asciiEngine (js "<p>Deal is close, via ESPN</p>"))
            (@normSource asciiEngine (js "Deal is close - The Athletic"))
     = @normSource asciiEngine (js "<p>Deal is close, via ESPN</p>").
Proof.
  destruct (@source_never_from_title asciiEngine
              (js "<p>Deal is close, via ESPN</p>")
              (js "Deal is close - The Athletic") asciiEngine_foldKeepsSpace)
    as (H1 & H2 & _).
  now split.
Defined.

(* ================================================================== *)
(** ** The four strategies: how much comes back and from where *)
(* ================================================================== *)

(** What a computation returns, when it returns, satisfies [P]. *)
Definition yields {A : Type} (P : A -> Prop) (m : M A) : Prop :=
  forall net st a st', m net st = (Ok a, st') -> P a.

Lemma yields_ret {A : Type} (P : A -> Prop) a : P a -> yields P (ret a).
Proof. intros H net st a' st'. unfold ret. now intros [= <- _]. Qed.

Lemma yields_bind {A B : Type} (Q : B -> Prop) (m : M A) (k : A -> M B) :
  (forall a, yields Q (k a)) -> yields Q (bind m k).
Proof.
  intros Hk net st b st'. unfold bind.
  destruct (m net st) as [[a|e] st1]; [apply Hk|discriminate].
Qed.

Lemma yields_tryCatch {A : Type} (P : A -> Prop) (m : M A) h :
  yields P m -> (forall e, yields P (h e)) -> yields P (tryCatch m h).
Proof.
  intros Hm Hh net st a st'. unfold tryCatch.
  destruct (m net st) as [[a'|e] st1] eqn:Hr.
  - intros [= <- <-]. now apply (Hm net st a' st1).
  - apply Hh.
Qed.

Definition atMostFive (l : list Rumor) : Prop := (List.length l <= 5)%nat.

Lemma hydrateLoop_five {A : Type} (one : A -> M (option Rumor)) candidates :
  forall out, (List.length out < 5)%nat ->
              yields atMostFive (FourStrategies.hydrateLoop one candidates out).
Proof.
  induction candidates as [|it rest IH]; intros out Hl;
    cbn [FourStrategies.hydrateLoop].
  - apply yields_ret. unfold atMostFive. lia.
  - apply yields_bind. intros [item|]; [|now apply IH].
    destruct (5 <=? List.length (out ++ [item]))%nat eqn:Hcap.
    + apply yields_ret. unfold atMostFive. rewrite length_app.
      cbn [List.length]. lia.
    + apply IH. now apply Nat.leb_gt in Hcap.
Qed.

Lemma sorted_five (out : list Rumor) :
  atMostFive (slice 0 5 (sortBy (cmpByDate r_date) out)).
Proof.
  unfold atMostFive. pose proof (slice_short 0 5 (sortBy (cmpByDate r_date) out)).
  lia.
Qed.

Lemma nil_five : atMostFive [].
Proof. unfold atMostFive. cbn [List.length]. lia. Qed.

Section FourStrategiesFive.
Context {E : Engine}.
Variables (qv : jsstring) (matcher : Matcher).

Lemma fromSearchRSS_five :
  yields atMostFive (FourStrategies.fromSearchRSS qv matcher).
Proof.
  unfold FourStrategies.fromSearchRSS.
  apply yields_tryCatch; [|intros _; apply yields_ret, nil_five].
  do 5 (apply yields_bind; intros ?).
  apply hydrateLoop_five. cbn [List.length]. lia.
Qed.

Lemma fromSearchHTML_five :
  yields atMostFive (FourStrategies.fromSearchHTML qv matcher).
Proof.
  unfold FourStrategies.fromSearchHTML.
  apply yields_tryCatch; [|intros _; apply yields_ret, nil_five].
  do 4 (apply yields_bind; intros ?).
  apply yields_ret, sorted_five.
Qed.

Lemma fromRumorsFeed_five :
  yields atMostFive (FourStrategies.fromRumorsFeed qv matcher).
Proof.
  unfold FourStrategies.fromRumorsFeed.
  apply yields_tryCatch; [|intros _; apply yields_ret, nil_five].
  do 3 (apply yields_bind; intros ?).
  apply hydrateLoop_five. cbn [List.length]. lia.
Qed.

Lemma fromRumorsIndex_five :
  yields atMostFive (FourStrategies.fromRumorsIndex qv matcher).
Proof.
  unfold FourStrategies.fromRumorsIndex.
  apply yields_tryCatch; [|intros _; apply yields_ret, nil_five].
  do 3 (apply yields_bind; intros ?).
  apply yields_ret, sorted_five.
Qed.

Lemma orTry_five items next :
  atMostFive items -> yields atMostFive next ->
  yields atMostFive (FourStrategies.orTry items next).
Proof.
  intros Hi Hn. destruct items; [exact Hn|]. now apply yields_ret.
Qed.

End FourStrategiesFive.

Lemma four_handler_five {E : Engine} event :
  yields (fun r => match itemsOf r with
                   | Some items => atMostFive items
                   | None => statusCode r = 400
                   end)
         (FourStrategies.handler event).
Proof.
  unfold FourStrategies.handler. cbv zeta.
  destruct (falsy (trim (orEmptyOpt (q event)))).
  - now apply yields_ret.
  - set (qv := trim (orEmptyOpt (q event))).
    set (mt := buildMatcher qv (FeedIndex.modeOf event)).
    apply yields_bind. intros _.
    intros net st r st'. unfold bind at 1.
    destruct (FourStrategies.fromSearchRSS qv mt net st) as [[i1|e] s1] eqn:H1;
      [|discriminate].
    apply fromSearchRSS_five in H1. revert net s1 r st'.
    change (yields (fun r => match itemsOf r with
                             | Some items => atMostFive items
                             | None => statusCode r = 400
                             end)
              (items <- FourStrategies.orTry i1 (FourStrategies.fromSearchHTML qv mt) ;;
               items <- FourStrategies.orTry items (FourStrategies.fromRumorsFeed qv mt) ;;
               items <- FourStrategies.orTry items (FourStrategies.fromRumorsIndex qv mt) ;;
               d <- getDbg ;;
               ret (json 200 (ItemsBody qv items
                                (if debugFlag event then Some d else None))))).
    intros net s1 r st'. unfold bind at 1.
    destruct (FourStrategies.orTry i1 _ net s1) as [[i2|e] s2] eqn:H2;
      [|discriminate].
    apply (orTry_five H1 (fromSearchHTML_five qv mt)) in H2.
    unfold bind at 1.
    destruct (FourStrategies.orTry i2 _ net s2) as [[i3|e] s3] eqn:H3;
      [|discriminate].
    apply (orTry_five H2 (fromRumorsFeed_five qv mt)) in H3.
    unfold bind at 1.
    destruct (FourStrategies.orTry i3 _ net s3) as [[i4|e] s4] eqn:H4;
      [|discriminate].
    apply (orTry_five H3 (fromRumorsIndex_five qv mt)) in H4.
    unfold bind, getDbg, ret. intros [= <- _]. exact H4.
Qed.

Lemma returnsWith_yields {A : Type} (P : A -> Prop) (m : M A) :
  neverThrows m -> yields P m -> returnsWith P m.
Proof.
  intros Hn Hy net st. destruct (Hn net st) as (a & st' & H).
  exists a, st'. split; [exact H|]. now apply (Hy net st a st').
Qed.

(** X18.  Every strategy of the four-strategy generation returns, and
    returns at most five rumors; the handler always answers, and never
    with more than five: each hydration loop stops at the fifth rumor it
    keeps.  An answer without items is the 400 for a missing subject. *)
Theorem four_strategies_at_most_five (E : Engine) (qv : jsstring)
        (matcher : Matcher) (event : Event) :
  returnsWith atMostFive (FourStrategies.fromSearchRSS qv matcher)
  /\ returnsWith atMostFive (FourStrategies.fromSearchHTML qv matcher)
  /\ returnsWith atMostFive (FourStrategies.fromRumorsFeed qv matcher)
  /\ returnsWith atMostFive (FourStrategies.fromRumorsIndex qv matcher)
  /\ returnsWith (fun r => match itemsOf r with
                           | Some items => atMostFive items
                           | None => statusCode r = 400
                           end)
                 (FourStrategies.handler event).
Proof.
  split; [apply returnsWith_yields;
          [apply catch_all_neverThrows|apply fromSearchRSS_five]|].
  split; [apply returnsWith_yields;
          [apply catch_all_neverThrows|apply fromSearchHTML_five]|].
  split; [apply returnsWith_yields;
          [apply catch_all_neverThrows|apply fromRumorsFeed_five]|].
  split; [apply returnsWith_yields;
          [apply catch_all_neverThrows|apply fromRumorsIndex_five]|].
  apply returnsWith_yields; [|apply four_handler_five].
  intros net st. destruct (four_handler_answers event net st) as (r & st' & H & _).
  eauto.
Qed.

(* ================================================================== *)
(** ** The first strategy that finds something ends the search *)
(* ================================================================== *)

(** The state in which the strategies start: the debug object is
    empty. *)
Definition searchStart (st : State) : State :=
  {| requests := requests st; dbg := [] |}.

(** X19.  When the site-search feed strategy returns rumors, the handler
    answers with exactly these and asks for nothing more: the three
    other strategies are not run. *)
Theorem first_strategy_ends_search (E : Engine) (event : Event)
        (net : Network) (st st1 : State) (items : list Rumor) :
  trim (orEmptyOpt (q event)) <> [] ->
  FourStrategies.fromSearchRSS (trim (orEmptyOpt (q event)))
    (buildMatcher (trim (orEmptyOpt (q event))) (FeedIndex.modeOf event))
    net (searchStart st)
  = (Ok items, st1) ->
  items <> [] ->
  FourStrategies.handler event net st
  = (Ok (json 200 (ItemsBody (trim (orEmptyOpt (q event))) items
                     (if debugFlag event then Some (dbg st1) else None))),
     st1).
Proof.
  intros Hq H1 Hi. unfold FourStrategies.handler. cbv zeta.
  destruct (falsy (trim (orEmptyOpt (q event)))) eqn:Hf;
    [apply falsy_true in Hf; contradiction|].
  unfold bind at 1, modifyDbg at 1. unfold bind at 1.
  change {| requests := requests st; dbg := [] |} with (searchStart st).
  rewrite H1.
  destruct items as [|i0 items]; [contradiction|].
  cbn [FourStrategies.orTry]. unfold bind, ret, getDbg. reflexivity.
Qed.

(** An engine for one site: the feed parser answers with [feed], the
    page parser with [page]. *)
Definition siteEngine (feed page : Node) : Engine.
Proof.
  refine {| normalizeNFD := fun s => s;
            toLowerCase := map asciiLower;
            canonicalize := fun c => if isLower c then c - 32 else c;
            dateParse := fun _ => None;
            toISOString := fun _ => [];
            encodeURIComponent := fun s => Some s;
            parseHTML := fun _ => page;
            parseXML := fun _ => Some feed;
            hrefProperty := fun h => h |}.
  - reflexivity.
  - reflexivity.
  - intros u w v _. exists (map asciiLower u), (map asciiLower v).
    now rewrite !map_app.
Defined.

Definition sampleFeed : Node :=
  Element (js "rss") []
    [ Element (js "channel") []
        [ Element (js "item") []
            [ Element (js "title") [] [Text (js "Brunson extension talks")];
              Element (js "link") []
                [Text (js "https://hoopshype.com/rumors/brunson-extension/")];
              Element (js "pubDate") [] [Text (js "Wed, 15 Oct 2025")];
              Element (js "description") [] [Text (js "Knicks guard")] ];
          Element (js "item") []
            [ Element (js "title") [] [Text (js "Rumors")];
              Element (js "link") [] [Text (js "https://hoopshype.com/rumors/")];
              Element (js "pubDate") [] [Text (js "Wed, 15 Oct 2025")];
              Element (js "description") [] [] ] ] ].

Definition sampleArticle : Node :=
  Element (js "html") []
    [ Element (js "body") []
        [ Element (js "article") []
            [ Element (js "h1") [] [Text (js "Brunson extension talks")];
              Element (js "time") [(js "datetime", js "2025-10-15T12:00:00Z")] [];
              Element (js "p") []
                [Text (js "Jalen Brunson and the Knicks have opened talks.")] ] ] ].

Definition sampleSearch : Result (list Rumor) * State := Eval vm_compute in
    @FourStrategies.fromSearchRSS (siteEngine sampleFeed sampleArticle)
      (js "Jalen Brunson")
      (@buildMatcher (siteEngine sampleFeed sampleArticle)
         (js "Jalen Brunson") (js "player"))
      oneBlankPage (searchStart {| requests := []; dbg := [] |}).

Definition sampleFound : list Rumor :=
  match fst sampleSearch with Ok items => items | Throw _ => [] end.

Lemma first_strategy_ends_search_witness :
  List.length sampleFound = 1%nat
  /\ List.length (requests (snd sampleSearch)) = 2%nat
  /\ @FourStrategies.handler (siteEngine sampleFeed sampleArticle)
       sampleEvent oneBlankPage {| requests := []; dbg := [] |}
     = (Ok (json 200 (ItemsBody (js "Jalen Brunson") sampleFound None)),
        snd sampleSearch).
Proof.
  split; [reflexivity|]. split; [reflexivity|].
  apply (@first_strategy_ends_search (siteEngine sampleFeed sampleArticle)
           sampleEvent oneBlankPage {| requests := []; dbg := [] |}
           (snd sampleSearch) sampleFound).
  - discriminate.
  - vm_compute. reflexivity.
  - discriminate.
Defined.

(* ================================================================== *)
(** ** What the matchers accept *)
(* ================================================================== *)

Lemma team_aliases_ascii key aliases :
  assoc key TEAM_ALIASES = Some aliases ->
  Forall (fun a => forallb isAscii a = true) aliases.
Proof.
  intros H. apply assoc_In in H. revert aliases H. apply Forall_forall.
  vm_compute. repeat constructor.
Qed.

Lemma existsb_In {A : Type} (f : A -> bool) l x :
  In x l -> f x = true -> existsb f l = true.
Proof. intros Hx Hf. apply existsb_exists. now exists x. Qed.

(** X5.  In team mode a subject whose key is in the alias table is found
    in every text that holds one of the aliases of that key, whatever
    the letter case of the text. *)
Theorem matchMode_team_alias (E : Engine) (subject alias txt : jsstring)
        (aliases : list jsstring) :
  assoc (teamKey subject) TEAM_ALIASES = Some aliases ->
  In alias aliases ->
  containsIgnoringCase txt alias ->
  matchMode subject (js "team") txt = Ok true.
Proof.
  intros Ha Hin Hc. rewrite matchMode_team. cbv zeta. fold (teamKey subject).
  unfold objGet. rewrite Ha. f_equal.
  apply (existsb_In _ _ alias Hin).
  apply lowered_includes; [|exact Hc].
  pose proof (team_aliases_ascii _ Ha) as Hf.
  rewrite Forall_forall in Hf. now apply Hf.
Qed.

Lemma matchMode_team_alias_witness :
  @matchMode asciiEngine (js " Knicks! ") (js "team")
    (js "Sources: NYK add a guard") = Ok true.
Proof.
  apply (@matchMode_team_alias asciiEngine (js " Knicks! ") (js "nyk")
           (js "Sources: NYK add a guard")
           [js "new york knicks"; js "nyk"; js "knicks"]).
  - reflexivity.
  - right. now left.
  - exists (js "Sources: "), (js "NYK"), (js " add a guard"). now split.
Defined.

(* The player matcher *)

Lemma wordTest_here {E : Engine} alts before s :
  existsb (altHere before s) alts = true -> wordTest alts before s = true.
Proof. intros H. destruct s; cbn [wordTest]; now rewrite H. Qed.

(** The code unit before what follows [u], [before] standing before
    [u]. *)
Definition lastOr (before : option N) (u : jsstring) : option N :=
  match rev u with
  | [] => before
  | c :: _ => Some c
  end.

Lemma lastOr_cons before c u : lastOr before (c :: u) = lastOr (Some c) u.
Proof.
  unfold lastOr. cbn [rev]. destruct (rev u) as [|x r] eqn:Hr; [reflexivity|].
  reflexivity.
Qed.

Lemma wordTest_skip {E : Engine} alts u : forall before s,
  wordTest alts (lastOr before u) s = true ->
  wordTest alts before (u ++ s) = true.
Proof.
  induction u as [|c u IH]; intros before s H; [exact H|].
  cbn [app wordTest]. rewrite lastOr_cons in H.
  rewrite (IH (Some c) s H). apply orb_true_r.
Qed.

(** [w] reads as [p] when letter case is folded. *)
Definition sameFolded {E : Engine} (p w : jsstring) : Prop :=
  Forall2 (fun x y => canonicalize x = canonicalize y) p w.

Lemma matchLiteral_folded {E : Engine} p : forall w v before,
  sameFolded p w ->
  matchLiteral p (w ++ v) before = Some (lastOr before w, v).
Proof.
  induction p as [|x p IH]; intros w v before H; inversion H; subst.
  - reflexivity.
  - cbn [app matchLiteral]. rewrite H2, N.eqb_refl.
    rewrite lastOr_cons. now apply IH.
Qed.

(** X20.  In player mode a subject is found in every text where one of
    its words stands as a whole word, whatever the letter case: the word
    begins and ends with a letter, a digit or an underscore, and in the
    text it has no such code unit right before it or right behind it. *)
Theorem matchMode_player_word (E : Engine) (subject part u w v : jsstring) :
  In part (splitRuns isWhiteSpace false [] (trim (toLowerCase subject))) ->
  sameFolded part w ->
  isWordChar (hd_error w) = true ->
  isWordChar (lastOr None w) = true ->
  isWordChar (lastOr None u) = false ->
  isWordChar (hd_error v) = false ->
  matchMode subject (js "player") (u ++ w ++ v) = Ok true.
Proof.
  intros Hin Hw Hf Hl Hu Hv. unfold matchMode.
  change (jsstring_eqb (js "player") (js "team")) with false.
  change (jsstring_eqb (js "player") (js "player")) with true.
  cbv beta iota zeta. f_equal.
  set (parts := splitRuns isWhiteSpace false [] (trim (toLowerCase subject))) in *.
  apply wordTest_skip, wordTest_here.
  apply (existsb_In _ _ part); [apply in_or_app; now left|].
  unfold altHere. rewrite (matchLiteral_folded v (lastOr None u) Hw).
  assert (Hhd : hd_error (w ++ v) = hd_error w).
  { destruct w; [discriminate Hf|reflexivity]. }
  assert (Hlast : lastOr (lastOr None u) w = lastOr None w).
  { unfold lastOr at 1 3. destruct (rev w) eqn:Hr; [|reflexivity].
    unfold lastOr in Hl. rewrite Hr in Hl. discriminate Hl. }
  rewrite Hhd, Hlast. unfold wordBoundary. now rewrite Hu, Hf, Hl, Hv.
Qed.

Lemma matchMode_player_word_witness :
  @matchMode asciiEngine (js "Jalen Brunson") (js "player")
    (js "Sources: BRUNSON's camp is optimistic") = Ok true.
Proof.
  apply (@matchMode_player_word asciiEngine (js "Jalen Brunson") (js "brunson")
           (js "Sources: ") (js "BRUNSON") (js "'s camp is optimistic")).
  - right. now left.
  - repeat constructor.
  - reflexivity.
  - reflexivity.
  - reflexivity.
  - reflexivity.
Defined.

(* ================================================================== *)
(** ** The link-crawl generation *)
(* ================================================================== *)

Lemma returnsWith_impl {A : Type} (P Q : A -> Prop) (m : M A) :
  (forall a, P a -> Q a) -> returnsWith P m -> returnsWith Q m.
Proof.
  intros H Hm net st. destruct (Hm net st) as (a & st' & Hr & Ha). eauto.
Qed.

Lemma yields_bind_with {A B : Type} (P : A -> Prop) (Q : B -> Prop)
      (m : M A) (k : A -> M B) :
  yields P m -> (forall a, P a -> yields Q (k a)) -> yields Q (bind m k).
Proof.
  intros Hm Hk net st b st'. unfold bind.
  destruct (m net st) as [[a|e] st1] eqn:Hr; [|discriminate].
  apply Hk. now apply (Hm net st a st1).
Qed.

(** A [try] whose [catch] returns [x] returns [x] or what its body
    returns. *)
Lemma returnsWith_catch {A : Type} (P : A -> Prop) (m : M A) (x : A) :
  yields P m -> P x -> returnsWith P (tryCatch m (fun _ => ret x)).
Proof.
  intros Hm Hx. apply returnsWith_yields; [apply catch_all_neverThrows|].
  apply yields_tryCatch; [exact Hm|]. intros _. now apply yields_ret.
Qed.

Section HydrateLoop.
Context {A : Type}.
Variable one : A -> M (option Rumor).
Variable Q : Rumor -> Prop.

(** The loop of the hydrations always returns; it returns at most five
    rumors, all of them pushed by [one]. *)
Lemma hydrateLoop_returns candidates : forall out,
  (forall it, In it candidates ->
     yields (fun o => match o with Some r => Q r | None => True end) (one it)) ->
  Forall Q out -> (List.length out < 5)%nat ->
  returnsWith (fun l => Forall Q l /\ (List.length l <= 5)%nat)
              (FourStrategies.hydrateLoop one candidates out).
Proof.
  induction candidates as [|it rest IH]; intros out Hone Ho Hl;
    cbn [FourStrategies.hydrateLoop].
  - apply returnsWith_ret. split; [exact Ho|lia].
  - eapply returnsWith_bind.
    + apply (returnsWith_catch
               (P := fun o => match o with Some r => Q r | None => True end)).
      * apply Hone. now left.
      * exact I.
    + intros [item|] Hi.
      * assert (Ho' : Forall Q (out ++ [item])).
        { apply Forall_app. split; [exact Ho|]. now constructor. }
        destruct (5 <=? List.length (out ++ [item]))%nat eqn:Hcap.
        -- apply returnsWith_ret. split; [exact Ho'|].
           rewrite length_app. cbn [List.length]. lia.
        -- apply IH; [|exact Ho'|now apply Nat.leb_gt in Hcap].
           intros it' Hin. apply Hone. now right.
      * apply IH; [|exact Ho|exact Hl]. intros it' Hin. apply Hone. now right.
Qed.

End HydrateLoop.

Lemma addUnseen_incl links : forall urls seen,
  incl (fst (TagLinks.addUnseen links urls seen)) (urls ++ links).
Proof.
  induction links as [|u rest IH]; intros urls seen; cbn [TagLinks.addUnseen].
  - cbn [fst]. now rewrite app_nil_r.
  - destruct (existsb (jsstring_eqb u) seen).
    + intros x Hx. apply IH in Hx. apply in_app_or in Hx as [Hx|Hx];
        apply in_or_app; [now left|right; now right].
    + intros x Hx. apply IH in Hx. rewrite <- app_assoc in Hx. exact Hx.
Qed.

Section LinkCrawl.
Context {E : Engine}.

Definition postLinks (l : list jsstring) : Prop :=
  Forall (fun u => TagLinks.isPostLink u = true) l.

Lemma readTagPage_links slug page :
  yields postLinks (TagLinks.readTagPage slug page).
Proof.
  unfold TagLinks.readTagPage.
  do 3 (apply yields_bind; intros ?).
  apply yields_ret. apply Forall_forall. intros u Hu.
  unfold TagLinks.pageLinks in Hu. now apply filter_In in Hu.
Qed.

Lemma collectLinks_returns slug pages : forall urls seen,
  postLinks urls ->
  returnsWith postLinks (TagLinks.collectLinks slug pages urls seen).
Proof.
  induction pages as [|page more IH]; intros urls seen Hu;
    cbn [TagLinks.collectLinks].
  - now apply returnsWith_ret.
  - eapply returnsWith_bind.
    + apply (returnsWith_catch
               (P := fun o => match o with
                              | Some l => postLinks l
                              | None => True
                              end)); [|exact I].
      eapply yields_bind_with; [apply readTagPage_links|].
      intros links Hl. now apply yields_ret.
    + intros [links|] Hl; [|now apply returnsWith_ret].
      pose proof (addUnseen_incl links urls seen) as Hi.
      destruct (TagLinks.addUnseen links urls seen) as [urls' seen'].
      cbn [fst] in Hi.
      assert (Hu' : postLinks urls').
      { apply Forall_forall. intros u Hin. apply Hi in Hin.
        apply in_app_or in Hin as [Hin|Hin];
          [revert u Hin; now apply Forall_forall
          |revert u Hin; now apply Forall_forall]. }
      destruct (30 <=? List.length urls')%nat; [now apply returnsWith_ret|].
      now apply IH.
Qed.

(** What the hydration loop keeps: an article with a date, under the
    link it was asked for. *)
Definition datedPost (r : Rumor) : Prop :=
  r_date r <> [] /\ TagLinks.isPostLink (r_url r) = true.

Lemma datedArticle_yields u :
  TagLinks.isPostLink u = true ->
  yields (fun o => match o with Some r => datedPost r | None => True end)
         (TagLinks.datedArticle u).
Proof.
  intros Hu. unfold TagLinks.datedArticle.
  apply (yields_bind_with (P := fun art => r_url art = u)).
  - unfold TagLinks.hydrateArticle. apply yields_bind. intros html.
    now apply yields_ret.
  - intros art Ha. destruct (falsy (r_date art)) eqn:Hd;
      apply yields_ret; [exact I|].
    split; [now apply falsy_false|now rewrite Ha].
Qed.

Lemma getTopFive_returns qv :
  returnsWith (fun items => (List.length items <= 5)%nat
                            /\ Forall datedPost items
                            /\ StronglySorted (notOlder r_date) items)
              (TagLinks.getTopFiveFromPreviewTag qv).
Proof.
  unfold TagLinks.getTopFiveFromPreviewTag. cbv zeta.
  eapply returnsWith_bind; [apply returnsWith_modifyDbg|]. intros _ _.
  eapply returnsWith_bind; [apply collectLinks_returns; constructor|].
  intros urls Hu.
  eapply returnsWith_bind; [apply returnsWith_modifyDbg|]. intros _ _.
  eapply returnsWith_bind.
  - apply (@hydrateLoop_returns _ TagLinks.datedArticle datedPost urls []).
    + intros u Hin. apply datedArticle_yields.
      revert u Hin. now apply Forall_forall.
    + constructor.
    + cbn [List.length]. lia.
  - intros items [Hq Hl]. apply returnsWith_ret. split; [|split].
    + pose proof (slice_short 0 5 (sortBy (cmpByDate r_date) items)). lia.
    + apply Forall_forall. intros r Hr. apply slice_incl in Hr.
      apply (Permutation_in _ (proj1 (sortBy_date r_date items))) in Hr.
      revert r Hr. now apply Forall_forall.
    + apply StronglySorted_slice. apply (sortBy_date r_date items).
Qed.

End LinkCrawl.

(** X21.  The handler of the link-crawl generation always answers, and
    never with 500: every step that can fail sits in a [try] of the
    crawl, so the [catch] of the handler is never entered.  The answer
    is 400 for a missing subject and otherwise 200 with at most five
    rumors, newest first, each with a date that is not empty and under a
    link that holds [/rumors/] and not [/rumors/tag/]. *)
Theorem link_crawl_handler_answers (E : Engine) (event : Event) :
  returnsWith
    (fun r => match payload r with
              | ErrorBody e d =>
                  statusCode r = 400 /\ e = js "Missing q"
                  /\ trim (orEmptyOpt (q event)) = []
              | ItemsBody s items d =>
                  statusCode r = 200 /\ s = trim (orEmptyOpt (q event))
                  /\ (List.length items <= 5)%nat
                  /\ Forall datedPost items
                  /\ StronglySorted (notOlder r_date) items
              end)
    (TagLinks.handler event).
Proof.
  unfold TagLinks.handler. cbv zeta.
  destruct (falsy (trim (orEmptyOpt (q event)))) eqn:Hq.
  - apply returnsWith_ret. cbn [payload json statusCode].
    repeat split. now apply falsy_true.
  - eapply returnsWith_bind; [apply returnsWith_modifyDbg|]. intros _ _.
    intros net st.
    destruct (getTopFive_returns (trim (orEmptyOpt (q event))) net st)
      as (items & st' & Hr & Hl & Hd & Hs).
    unfold tryCatch, bind at 1. rewrite Hr. unfold bind, getDbg, ret.
    do 2 eexists. split; [reflexivity|]. cbn [payload json statusCode].
    now repeat split.
Qed.

(* ================================================================== *)
(** ** The crawl that reads dates from headings *)
(* ================================================================== *)

(** [toISOFromHeading] reads a text as [extractISODate] does. *)
Lemma toISOFromHeading_extract {E : Engine} h :
  TagHeadings.toISOFromHeading h = extractISODate h.
Proof. reflexivity. Qed.

Section HeadingItems.
Context {E : Engine}.

(** [toISOFromHeading(el.textContent || "")] *)
Definition headingDate (el : Node) : jsstring :=
  TagHeadings.toISOFromHeading (orEmpty (textContent el)).

(** The element is an [h2] or [h3] whose text holds a date that
    [toISOFromHeading] reads. *)
Definition isDateHeading (el : Node) : bool :=
  (jsstring_eqb (toLowerCase (tagName el)) (js "h2")
   || jsstring_eqb (toLowerCase (tagName el)) (js "h3"))
  && negb (falsy (headingDate el)).

Definition isParagraph (el : Node) : bool :=
  jsstring_eqb (toLowerCase (tagName el)) (js "p").

(** [it] was made from a [p] of [all] with a text of 15 code units or
    more that stands behind a date heading, with no other date heading
    in between; [it] has the date of that heading. *)
Definition underHeading (all : list Node) (it : Rumor) : Prop :=
  exists pre h mid el post,
    all = pre ++ h :: mid ++ el :: post
    /\ isDateHeading h = true
    /\ Forall (fun n => isDateHeading n = false) mid
    /\ isParagraph el = true
    /\ (15 <= List.length (blockText el))%nat
    /\ it = TagPlain.blockRumor el (blockText el) (headingDate h).

(** What the loop knows about the current date after the blocks
    [seen]. *)
Definition headingOfLast (seen : list Node) (cur : jsstring) : Prop :=
  cur = []
  \/ exists pre h mid,
       seen = pre ++ h :: mid
       /\ isDateHeading h = true
       /\ Forall (fun n => isDateHeading n = false) mid
       /\ cur = headingDate h.

Lemma headingOfLast_skip seen cur el :
  headingOfLast seen cur -> isDateHeading el = false ->
  headingOfLast (seen ++ [el]) cur.
Proof.
  intros [->|(pre & h & mid & -> & Hd & Hm & ->)] Hel; [now left|].
  right. exists pre, h, (mid ++ [el]).
  rewrite <- app_assoc. repeat split; try assumption.
  apply Forall_app. split; [exact Hm|]. now constructor.
Qed.

Lemma scanBlocks_inv blocks : forall seen cur out,
  headingOfLast seen cur ->
  Forall (underHeading (seen ++ blocks)) out ->
  (List.length out < 60)%nat ->
  Forall (underHeading (seen ++ blocks)) (TagHeadings.scanBlocks blocks cur out)
  /\ (List.length (TagHeadings.scanBlocks blocks cur out) <= 60)%nat.
Proof.
  induction blocks as [|el rest IH]; intros seen cur out Hc Ho Hl.
  - cbn [TagHeadings.scanBlocks]. split; [exact Ho|lia].
  - assert (Hall : seen ++ el :: rest = (seen ++ [el]) ++ rest)
      by now rewrite <- app_assoc.
    cbn [TagHeadings.scanBlocks]. fold (headingDate el). fold (blockText el).
    fold (isDateHeading el). fold (isParagraph el).
    destruct (isDateHeading el) eqn:Hd.
    + rewrite Hall in *. apply IH; try assumption.
      right. exists seen, el, []. repeat split; try assumption. constructor.
    + destruct (isParagraph el && negb (falsy cur)) eqn:Hb.
      2:{ rewrite Hall in *. apply IH; try assumption.
          now apply headingOfLast_skip. }
      apply andb_true_iff in Hb as [Hp Hf]. apply negb_true_iff in Hf.
      destruct (falsy (blockText el) || (List.length (blockText el) <? 15)%nat)
        eqn:Ht.
      * rewrite Hall in *. apply IH; try assumption.
        now apply headingOfLast_skip.
      * apply orb_false_iff in Ht as [_ Ht]. apply Nat.ltb_ge in Ht.
        assert (Hit : underHeading (seen ++ el :: rest)
                        (TagPlain.blockRumor el (blockText el) cur)).
        { destruct Hc as [->|(pre & h & mid & -> & Hdd & Hm & ->)];
            [discriminate Hf|].
          exists pre, h, mid, el, rest.
          rewrite <- app_assoc. now repeat split. }
        assert (Ho' : Forall (underHeading (seen ++ el :: rest))
                        (out ++ [TagPlain.blockRumor el (blockText el) cur])).
        { apply Forall_app. split; [exact Ho|]. now constructor. }
        destruct (60 <=? List.length
                    (out ++ [TagPlain.blockRumor el (blockText el) cur]))%nat
          eqn:Hcap.
        -- split; [exact Ho'|]. rewrite length_app. cbn [List.length]. lia.
        -- apply Nat.leb_gt in Hcap. rewrite Hall in *.
           apply IH; try assumption. now apply headingOfLast_skip.
Qed.

Lemma scanBlocks_items blocks :
  Forall (underHeading blocks) (TagHeadings.scanBlocks blocks [] [])
  /\ (List.length (TagHeadings.scanBlocks blocks [] []) <= 60)%nat.
Proof.
  apply (@scanBlocks_inv blocks [] [] []).
  - now left.
  - constructor.
  - cbn [List.length]. lia.
Qed.

Lemma underHeading_dated all it : underHeading all it -> r_date it <> [].
Proof.
  intros (pre & h & mid & el & post & _ & Hh & _ & _ & _ & ->).
  cbn [TagPlain.blockRumor r_date].
  unfold isDateHeading in Hh. apply andb_true_iff in Hh as [_ Hh].
  apply negb_true_iff in Hh. now apply falsy_false.
Qed.

End HeadingItems.





(* The handler *)

Lemma addNew_Forall {A : Type} (P : A -> Prop) (keyOf : A -> jsstring) l :
  forall items seen,
    Forall P items -> Forall P l -> Forall P (fst (addNew keyOf l items seen)).
Proof.
  induction l as [|it rest IH]; intros items seen Hi Hl; cbn [addNew];
    [exact Hi|].
  inversion Hl; subst.
  destruct (existsb (jsstring_eqb (keyOf it)) seen); apply IH; try assumption.
  apply Forall_app. split; [exact Hi|]. now constructor.
Qed.

Lemma heading_parse_cases {E : Engine} html net st :
  (exists e, TagHeadings.parseTagPage html net st = (Throw e, st))
  \/ (exists out d,
        TagHeadings.parseTagPage html net st
        = (Ok out, {| requests := requests st; dbg := d |})
        /\ Forall (fun it => r_date it <> []) out).
Proof.
  unfold TagHeadings.parseTagPage.
  destruct (TagHeadings.container (parseHTML html)) as [c|].
  - right. unfold bind, modifyDbg, ret. cbn [requests dbg].
    do 2 eexists. split; [reflexivity|].
    destruct (@scanBlocks_items E (querySelectorAll TagHeadings.blockSelector c))
      as [Hf _].
    revert Hf. apply Forall_impl. intros it. apply underHeading_dated.
  - left. now eexists.
Qed.

(** What the page loop of the heading generation leaves behind: the
    requests made are those for the first [n] of the pages, in order,
    and every rumor returned has a date. *)
Definition headingsCrawled (enc : jsstring) (pages : list N) (st : State)
           (run : Result (list Rumor) * State) : Prop :=
  exists n,
    (n <= List.length pages)%nat
    /\ requests (snd run) = requests st ++ map (pageUrl enc) (firstn n pages)
    /\ match fst run with
       | Ok out => Forall (fun it => r_date it <> []) out
       | Throw _ => True
       end.

Lemma headings_collectPages_crawled {E : Engine} slug enc :
  encodeURIComponent slug = Some enc ->
  forall pages items seen net st,
    Forall (fun it => r_date it <> []) items ->
    headingsCrawled enc pages st
      (TagHeadings.collectPages slug pages items seen net st).
Proof.
  intros Henc. induction pages as [|page more IH]; intros items seen net st Hk.
  - exists 0%nat. cbn [TagHeadings.collectPages firstn map]. unfold ret.
    cbn [fst snd]. rewrite app_nil_r. now repeat split.
  - cbn [TagHeadings.collectPages]. rewrite Henc. unfold bind at 1.
    destruct (@page_attempt (pageUrl enc page)
                (js "page" ++ decimal page ++ js "Error") net st)
      as (got & d & ->).
    destruct got as [html|].
    2:{ exists 1%nat. cbn [fst snd requests List.length firstn map].
        split; [lia|]. now split. }
    unfold bind at 1.
    destruct (@heading_parse_cases E html net
                {| requests := requests st ++ [pageUrl enc page]; dbg := d |})
      as [(e & ->)|(parsed & d' & -> & Hp)].
    { exists 1%nat. cbn [fst snd requests List.length firstn map].
      split; [lia|]. now split. }
    cbn [requests].
    pose proof (@addNew_Forall _ _ TagPlain.rumorKey parsed items seen Hk Hp)
      as Hk'.
    destruct (addNew TagPlain.rumorKey parsed items seen) as [items' seen'].
    cbn [fst] in Hk'.
    destruct (120 <=? List.length items')%nat.
    + exists 1%nat. cbn [fst snd requests List.length firstn map].
      split; [lia|]. now split.
    + destruct (IH items' seen' net
                  {| requests := requests st ++ [pageUrl enc page]; dbg := d' |}
                  Hk') as (n & Hn & Hr & Ho).
      exists (S n). split; [cbn [List.length]; lia|]. split; [|exact Ho].
      rewrite Hr. cbn [requests firstn map]. now rewrite <- app_assoc.
Qed.

Lemma heading_handler_cases {E : Engine} event net st :
  TagHeadings.handler event net st
  = let qv := trim (orEmptyOpt (q event)) in
    if falsy qv then (Ok (json 400 (ErrorBody (js "Missing q") None)), st)
    else
      let st0 := {| requests := requests st;
                    dbg := [(js "slug", DStr (slugify qv))] |} in
      match TagHeadings.collectPages (slugify qv) tenPages [] [] net st0 with
      | (Ok collected, st1) =>
          let sorted := sortBy (cmpByDate r_date) collected in
          let top5 :=
            slice 0 5 (filter (fun x => negb (falsy (r_url x))) sorted) in
          let d :=
            dbgSet (js "returning") (DNum (N.of_nat (List.length top5)))
              (dbgSet (js "totalCollected")
                 (DNum (N.of_nat (List.length sorted))) (dbg st1)) in
          (Ok (json 200 (ItemsBody qv top5
                 (if debugFlag event then Some d else None))),
           {| requests := requests st1; dbg := d |})
      | (Throw e, st1) =>
          (Ok (json 500 (ErrorBody (messageOr e) (Some (dbg st1)))), st1)
      end.
Proof.
  unfold TagHeadings.handler, TagHeadings.collectFromTag. cbv zeta.
  destruct (falsy (trim (orEmptyOpt (q event)))); [reflexivity|].
  unfold bind, tryCatch, modifyDbg, getDbg, ret. cbn [requests dbg].
  now destruct (TagHeadings.collectPages _ _ _ _ _ _) as [[items|e] st1].
Qed.

(** X23.  The handler of the heading generation always answers: 400
    before any request when the subject is missing, otherwise 200 with
    at most five rumors or 500 with a message.  It asks for at most ten
    pages.  Every rumor of a 200 answer has a link and a date, and the
    rumors are in order, newest first. *)
Theorem heading_handler_answers (E : Engine) (event : Event) (net : Network) :
  exists r st,
    invoke (TagHeadings.handler event) net = (Ok r, st)
    /\ tagAnswer 5 event r st
    /\ (List.length (requests st) <= 10)%nat
    /\ match payload r with
       | ItemsBody _ items _ =>
           Forall (fun x => r_url x <> [] /\ r_date x <> []) items
           /\ StronglySorted (notOlder r_date) items
       | ErrorBody _ _ => True
       end.
Proof.
  unfold invoke. rewrite heading_handler_cases. cbv zeta.
  destruct (falsy (trim (orEmptyOpt (q event)))) eqn:Hq.
  - do 2 eexists. split; [reflexivity|]. cbn [requests List.length].
    split; [|split; [lia|exact I]].
    left. cbn [json statusCode requests]. repeat split. now apply falsy_true.
  - apply falsy_false in Hq. cbn [requests].
    set (slug := slugify (trim (orEmptyOpt (q event)))).
    set (st0 := {| requests := []; dbg := [(js "slug", DStr slug)] |}).
    assert (Hreq : (List.length
                      (requests (snd (TagHeadings.collectPages slug tenPages
                                        [] [] net st0))) <= 10)%nat
                   /\ match fst (TagHeadings.collectPages slug tenPages
                                   [] [] net st0) with
                      | Ok out => Forall (fun it => r_date it <> []) out
                      | Throw _ => True
                      end).
    { destruct (encodeURIComponent slug) as [enc|] eqn:Henc.
      - destruct (@headings_collectPages_crawled E slug enc Henc tenPages
                    [] [] net st0 (Forall_nil _)) as (n & Hn & Hr & Ho).
        split; [|exact Ho]. rewrite Hr. unfold st0. cbn [requests app].
        rewrite length_map, length_firstn. unfold tenPages.
        cbn [List.length]. lia.
      - unfold tenPages. cbn [TagHeadings.collectPages]. rewrite Henc.
        unfold throw, st0. cbn [fst snd requests List.length].
        split; [lia|exact I]. }
    destruct (TagHeadings.collectPages slug tenPages [] [] net st0)
      as [[collected|e] st1]; cbn [fst snd] in Hreq; destruct Hreq as [Hr Hd].
    + do 2 eexists. split; [reflexivity|].
      unfold tagAnswer. cbn [payload json statusCode requests].
      set (sorted := sortBy (cmpByDate r_date) collected).
      set (top5 := slice 0 5 (filter (fun x => negb (falsy (r_url x))) sorted)).
      split; [|split; [exact Hr|split]].
      * repeat split; try assumption.
        -- pose proof (slice_short 0 5
                         (filter (fun x => negb (falsy (r_url x))) sorted)) as H.
           fold top5 in H. lia.
        -- intros ->. discriminate.
        -- now intros ->.
      * apply Forall_forall. intros x Hx. apply slice_incl in Hx.
        apply filter_In in Hx as [Hin Hx]. apply negb_true_iff in Hx.
        split; [now apply falsy_false|].
        apply (Permutation_in _ (proj1 (sortBy_date r_date collected))) in Hin.
        clear Hx. revert x Hin. now apply Forall_forall.
      * apply StronglySorted_slice, StronglySorted_filter.
        apply (sortBy_date r_date collected).
    + do 2 eexists. split; [reflexivity|]. split; [|split; [exact Hr|exact I]].
      right. cbn [json statusCode dbg]. repeat split; try assumption.
      apply messageOr_nonempty.
Qed.

(* ================================================================== *)
(** ** The request helper of the REST generation *)
(* ================================================================== *)

Lemma skipn_app_length {A : Type} (p s : list A) :
  skipn (List.length p) (p ++ s) = s.
Proof. now induction p. Qed.

(** What an answer of the network is worth to [fetchJSON]: a response
    with [ok] whose body parses gives the parsed value; a rejected
    request, a response without [ok] and a body that does not parse give
    nothing. *)
Definition usable {J : Type} (parseJSON : jsstring -> Result J)
           (r : FetchResult) : option J :=
  match r with
  | Rejected _ => None
  | Responded res =>
      if ok res then
        match parseJSON (body res) with
        | Ok v => Some v
        | Throw _ => None
        end
      else None
  end.

Definition asked (st : State) (urls : list jsstring) : State :=
  {| requests := requests st ++ urls; dbg := dbg st |}.

Lemma attempt_run {J : Type} (parseJSON : jsstring -> Result J) u net st :
  tryCatch (v <- RestApi.attempt parseJSON u ;; ret (Some v))
           (fun _ => ret None) net st
  = (Ok (usable parseJSON (net (requests st) u)), asked st [u]).
Proof.
  unfold tryCatch, bind, RestApi.attempt, bind, fetch, throw, lift, ret, usable,
    asked.
  destruct (net (requests st) u) as [e|res]; [reflexivity|].
  destruct (ok res); cbn [negb]; [|reflexivity].
  now destruct (parseJSON (body res)).
Qed.

(** X4.  [fetchJSON] asks the HTTP base first and the HTTPS base only
    when the first attempt gave nothing: a rejected request, a response
    without [ok] or a body that is no JSON.  It returns what the first
    usable answer parses to and asks for nothing more.  When both
    attempts give nothing it throws [All preview API fetch attempts
    failed]: the caller never sees why an attempt failed.  The debug
    object is left alone.  In an address that starts with [__BASE__]
    the base takes that place. *)
Theorem fetchJSON_attempts (J : Type) (parseJSON : jsstring -> Result J)
        (url : jsstring) (net : Network) (st : State) :
  let u1 := RestApi.replaceFirst (js "__BASE__") RestApi.PREVIEW_API_HTTP url in
  let u2 := RestApi.replaceFirst (js "__BASE__") RestApi.PREVIEW_API_HTTPS url in
  RestApi.fetchJSON parseJSON url net st
  = match usable parseJSON (net (requests st) u1) with
    | Some v => (Ok v, asked st [u1])
    | None =>
        match usable parseJSON (net (requests st ++ [u1]) u2) with
        | Some v => (Ok v, asked st [u1; u2])
        | None =>
            (Throw (js "All preview API fetch attempts failed"),
             asked st [u1; u2])
        end
    end
  /\ forall base path,
       RestApi.replaceFirst (js "__BASE__") base (js "__BASE__" ++ path)
       = base ++ path.
Proof.
  cbv zeta. split.
  - unfold RestApi.fetchJSON. cbn [RestApi.tryBases].
    unfold bind at 1. rewrite attempt_run.
    destruct (usable parseJSON (net (requests st) _)) as [v|];
      [reflexivity|].
    unfold bind at 1. rewrite attempt_run. cbn [asked requests].
    unfold asked. cbn [requests dbg]. rewrite <- app_assoc. cbn [app].
    now destruct (usable parseJSON (net _ _)) as [v|].
  - intros base path.
    destruct (js "__BASE__" ++ path) as [|c r] eqn:Hs; [discriminate Hs|].
    cbn [RestApi.replaceFirst]. rewrite <- Hs.
    now rewrite isPrefixOf_app, skipn_app_length.
Qed.


